(** * Topic-isolated conversation cache of Desktop Commander MCP

    A shallow embedding of the cache handlers (version 2.0.0, topic based):
    the process-wide [CacheState], the persisted session manifest, the
    permission gate of directory creation, the eight cache operations and the
    counter-driven auto-update trigger.

    Conventions of the embedding.
    - A handler is a function of the validated arguments ([parsed.data], the
      schema defaults already applied) in the monad [M]: it threads the
      [World] (cache state, disk, console, clock, the updates in flight) and
      may raise; a raise keeps the effects done before it, as in JavaScript.
    - A timestamp is the instant it denotes, in milliseconds since the epoch
      (a [Z]); the source stores its ISO-8601 text, and [Date.parse] of
      [toISOString] is the identity.  Within one handler call the clock
      stands still.  A [Date] built from a time value beyond the range of
      dates is invalid: [time_clip].
    - A JavaScript number that the code uses as a counter or a bound is a
      [Z]; the theorems on the counter ask for counts below 2^53, where the
      arithmetic of numbers is exact.
    - A JavaScript object used as a dictionary is the list of its own
      properties in the order of [Object.keys] ([Obj]).  [obj_get] and
      [obj_set] are [o[k]] and [o[k] = v] for the keys that [plain_name]
      accepts: a name that [Object.prototype] also has is found by [o[k]]
      on every object, and an integer-like key is enumerated before the
      others; the theorems that look a topic up or store one ask for a
      plain topic name.
    - The manifest that [JSON.parse] returns is taken at its declared type
      [SessionManifest]; the theorems that depend on what a load returns
      ask for a manifest file written by [saveSessionManifest]
      ([typed_manifest_file]), or state the failure of the parse.
    - The update that [incrementToolCallCounter] starts is not awaited: it
      runs to its first [await] and the rest is in flight ([inflight] of
      the world) until the event loop completes it ([settle]).
    - What Node and the file tools of the server provide ([path.join],
      [JSON], [Date], the markdown templates) is a [Platform]; every general
      theorem holds for every platform, and [NodePlatform] is the instance
      the closed examples run on. *)

From Stdlib Require Import ZArith String Ascii List Lia Sorted Permutation.
From stdpp Require Import base gmap sets list strings pretty.
Import ListNotations.
Local Open Scope Z_scope.

(** ** JavaScript values *)

(** [!!s] of a string that may be [undefined] or [null]: only a non-empty
    string is truthy. *)
Definition truthy (s : option string) : bool :=
  match s with
  | Some (String _ _) => true
  | _ => false
  end.

(** [s || null]. *)
Definition or_null (s : option string) : option string :=
  if truthy s then s else None.

(** [a || b] on strings. *)
Definition or_else (s : option string) (d : string) : string :=
  match s with
  | Some (String c r) => String c r
  | _ => d
  end.

(** [a === b] between a [string | null] and a string. *)
Definition strict_eq (a : option string) (b : string) : bool :=
  bool_decide (a = Some b).

(** [n % d === 0] on integers: the remainder has the sign of the dividend and
    is [NaN] for a zero divisor. *)
Definition rem_is_zero (n d : Z) : bool :=
  if d =? 0 then false else Z.rem n d =? 0.

(** An object used as a dictionary: its own properties, in the order of
    [Object.keys]. *)
Definition Obj (V : Type) : Type := list (string * V).

(** The properties of [Object.prototype]: [o[k]] finds them on every plain
    object, also when [k] is no property of [o] itself, and
    [o["__proto__"] = v] stores no property. *)
Definition object_prototype_names : list string :=
  ["constructor"; "__proto__"; "hasOwnProperty"; "isPrototypeOf";
   "propertyIsEnumerable"; "toLocaleString"; "toString"; "valueOf";
   "__defineGetter__"; "__defineSetter__"; "__lookupGetter__"; "__lookupSetter__"].

Definition is_digit (c : ascii) : bool :=
  let n := nat_of_ascii c in Nat.leb 48 n && Nat.leb n 57.

Fixpoint all_digits (s : string) : bool :=
  match s with
  | EmptyString => true
  | String c r => is_digit c && all_digits r
  end.

(** A key that reads as a number in canonical decimal form: [Object.keys]
    lists the array indices among them before the other keys, in ascending
    order, whenever they were stored. *)
Definition integer_like (k : string) : bool :=
  match k with
  | EmptyString => false
  | String "0" EmptyString => true
  | String "0" _ => false
  | String c r => is_digit c && all_digits r
  end.

(** A key for which an object behaves as a dictionary in insertion order:
    [o[k]] is an own property or [undefined], and [o[k] = v] replaces the
    property in place or adds it after the others. *)
Definition plain_name (k : string) : bool :=
  negb (bool_decide (k ∈ object_prototype_names)) && negb (integer_like k).

(** [o[k]], for a plain name [k]. *)
Fixpoint obj_get {V} (k : string) (o : Obj V) : option V :=
  match o with
  | [] => None
  | (k', v) :: o' => if String.eqb k k' then Some v else obj_get k o'
  end.

(** [o[k] = v], for a plain name [k]: an existing property keeps its place, a
    new one goes last. *)
Fixpoint obj_set {V} (k : string) (v : V) (o : Obj V) : Obj V :=
  match o with
  | [] => [(k, v)]
  | (k', v') :: o' =>
      if String.eqb k k' then (k', v) :: o' else (k', v') :: obj_set k v o'
  end.

(** [delete o[k]]. *)
Fixpoint obj_delete {V} (k : string) (o : Obj V) : Obj V :=
  match o with
  | [] => []
  | (k', v') :: o' =>
      if String.eqb k k' then obj_delete k o' else (k', v') :: obj_delete k o'
  end.

(** [Object.keys(o)]. *)
Definition obj_keys {V} (o : Obj V) : list string := map fst o.

(** [k in o], for own properties. *)
Definition has_key {V} (k : string) (o : Obj V) : Prop := In k (obj_keys o).

(** ** Data model *)

(** One record of [SessionManifest.activeSessions] or [archivedSessions]. *)
Record SessionInfo := mkSessionInfo {
  createdAt : Z;
  lastUsed : Z;
  projectName : string;
  autoCleanupAfterDays : option Z;
  sessionOnly : option bool;
  archivedAt : option Z
}.

(** [interface SessionManifest]; [archivedSessions] is optional. *)
Record SessionManifest := mkManifest {
  activeSessions : Obj SessionInfo;
  archivedSessions : option (Obj SessionInfo);
  manifestVersion : string
}.

(** [interface CacheState]. *)
Record CacheState := mkCacheState {
  isInitialized : bool;
  cacheDir : string;
  currentTopic : option string;
  autoUpdateEnabled : bool;
  toolCallCount : Z;
  updateInterval : Z;
  lastUpdate : option Z;
  activeTopic : option string;
  hasCreatePermission : bool;
  permissionGrantedAt : option Z;
  topicAutoUpdateSettings : gmap string bool
}.

(** The initial value of the global [cacheState]. *)
Definition initialCacheState : CacheState :=
  {| isInitialized := false;
     cacheDir := "C:\Claude_Session";
     currentTopic := None;
     autoUpdateEnabled := false;
     toolCallCount := 0;
     updateInterval := 10;
     lastUpdate := None;
     activeTopic := None;
     hasCreatePermission := false;
     permissionGrantedAt := None;
     topicAutoUpdateSettings := ∅ |}.

(** The manifest that [loadSessionManifest] falls back to. *)
Definition defaultManifest : SessionManifest :=
  {| activeSessions := []; archivedSessions := None; manifestVersion := "2.0.0" |}.

(** [UpdateCacheArgsSchema], parsed. *)
Record UpdateCacheArgs := mkUpdateCacheArgs {
  upd_conversationSummary : string;
  upd_projectUpdate : option string;
  upd_decisionsUpdate : option string;
  upd_nextStepsUpdate : option string;
  upd_topic : option string
}.

(** A call of [handleUpdateCache] that has reached its first [await]: its
    arguments and the locals that it has computed by then, [targetTopic],
    [targetCacheDir] and [timestamp]. *)
Record UpdateJob := mkUpdateJob {
  job_args : UpdateCacheArgs;
  job_target : option string;
  job_dir : string;
  job_timestamp : Z
}.

(** ** The world *)

Inductive WriteMode := Rewrite | Append.

(** What the file tools did to the disk, in order. *)
Inductive IOEvent :=
| EvWrite (path content : string) (mode : WriteMode)
| EvMkdir (path : string).

(** Lines of [console.warn] and [console.error]. *)
Inductive LogEntry :=
| WarnLoadManifest
| WarnSaveManifest (error : string)
| WarnUpdateManifest (error : string)
| ErrorAutoUpdate (topic : option string) (error : string).

(** The disk: the directories and files that exist, the paths on which a
    write or a directory creation fails ([denied]: read-only, or outside the
    allowed directories), the paths on which a read fails ([unreadable]), and
    the journal of the effects so far. *)
Record Disk := mkDisk {
  dirs : gset string;
  files : gmap string string;
  denied : gset string;
  unreadable : gset string;
  journal : list IOEvent
}.

(** The process and its surroundings: the global [cacheState], the disk,
    the console, the clock, and the updates that were started without being
    awaited and have not completed, oldest first. *)
Record World := mkWorld {
  cacheState : CacheState;
  disk : Disk;
  console : list LogEntry;
  clock : Z;
  inflight : list UpdateJob
}.

Definition set_cacheState (cs : CacheState) (w : World) : World :=
  {| cacheState := cs; disk := disk w; console := console w; clock := clock w;
     inflight := inflight w |}.

Definition set_disk (d : Disk) (w : World) : World :=
  {| cacheState := cacheState w; disk := d; console := console w; clock := clock w;
     inflight := inflight w |}.

Definition add_log (l : LogEntry) (w : World) : World :=
  {| cacheState := cacheState w; disk := disk w;
     console := console w ++ [l]; clock := clock w; inflight := inflight w |}.

Definition set_inflight (jobs : list UpdateJob) (w : World) : World :=
  {| cacheState := cacheState w; disk := disk w; console := console w;
     clock := clock w; inflight := jobs |}.

(** A process that has just started, on an empty disk. *)
Definition emptyDisk : Disk :=
  {| dirs := ∅; files := ∅; denied := ∅; unreadable := ∅; journal := [] |}.

Definition initialWorld (now : Z) : World :=
  {| cacheState := initialCacheState; disk := emptyDisk; console := []; clock := now;
     inflight := [] |}.

(** ** The monad of the handlers *)

Inductive Outcome (A : Type) :=
| Ret (a : A)
| Throw (error : string).
Arguments Ret {A} a.
Arguments Throw {A} error.

Definition M (A : Type) : Type := World → Outcome A * World.

Definition ret {A} (a : A) : M A := λ w, (Ret a, w).

Definition throw {A} (e : string) : M A := λ w, (Throw e, w).

Definition bind {A B} (m : M A) (k : A → M B) : M B :=
  λ w, match m w with
       | (Ret a, w') => k a w'
       | (Throw e, w') => (Throw e, w')
       end.

(** [try { m } catch (error) { h error }]. *)
Definition try_catch {A} (m : M A) (h : string → M A) : M A :=
  λ w, match m w with
       | (Ret a, w') => (Ret a, w')
       | (Throw e, w') => h e w'
       end.

Definition get_state : M CacheState := λ w, (Ret (cacheState w), w).

Definition put_state (cs : CacheState) : M unit := λ w, (Ret tt, set_cacheState cs w).

Definition log (l : LogEntry) : M unit := λ w, (Ret tt, add_log l w).

(** [new Date()]. *)
Definition now : M Z := λ w, (Ret (clock w), w).

Declare Scope cache_scope.
Delimit Scope cache_scope with cache.
Notation "'let*' x ':=' m 'in' k" := (bind m (λ x, k))
  (at level 10, x name, m at level 100, k at level 200) : cache_scope.
Notation "m ;; k" := (bind m (λ _, k))
  (at level 100, k at level 200, right associativity) : cache_scope.
Local Open Scope cache_scope.

(** ** The file tools *)

(** [content.split('\n')]. *)
Fixpoint split_lines (s : string) : list string :=
  match s with
  | EmptyString => [EmptyString]
  | String c s' =>
      if Ascii.eqb c "010"%char then EmptyString :: split_lines s'
      else match split_lines s' with
           | l :: ls => String c l :: ls
           | [] => [String c EmptyString]
           end
  end.

(** [lines.slice(offset, offset + length).join('\n')]. *)
Definition lines_window (offset length : nat) (s : string) : string :=
  String.concat (String "010"%char EmptyString)
    (take length (drop offset (split_lines s))).

(** [existsSync(path)] of Node's [fs]. *)
Definition exists_on (d : Disk) (p : string) : bool :=
  bool_decide (p ∈ dirs d) || bool_decide (is_Some (files d !! p)).

Definition existsSync (p : string) : M bool := λ w, (Ret (exists_on (disk w) p), w).

(** The effect of a successful write. *)
Definition write_to (p content : string) (mode : WriteMode) (d : Disk) : Disk :=
  {| dirs := dirs d;
     files := match mode with
              | Rewrite => <[p := content]> (files d)
              | Append => <[p := default EmptyString (files d !! p) +:+ content]> (files d)
              end;
     denied := denied d;
     unreadable := unreadable d;
     journal := journal d ++ [EvWrite p content mode] |}.

(** Modelled from the spec: [writeFile] of [tools/filesystem.js], which is
    not among the sources; section 6 gives
    [writeFile(path, content, mode ∈ {rewrite, append}) → success|failure].
    A write fails, and changes nothing, exactly on a denied path. *)
Definition writeFile (p content : string) (mode : WriteMode) : M unit :=
  λ w, if bool_decide (p ∈ denied (disk w))
       then (Throw ("EACCES: " +:+ p), w)
       else (Ret tt, set_disk (write_to p content mode (disk w)) w).

(** The effect of a successful directory creation. *)
Definition mkdir (p : string) (d : Disk) : Disk :=
  {| dirs := {[p]} ∪ dirs d; files := files d; denied := denied d;
     unreadable := unreadable d;
     journal := journal d ++ [EvMkdir p] |}.

(** Modelled from the spec: [createDirectory] of [tools/filesystem.js];
    section 6 gives [createDirectory(path) → success|failure], succeeding
    when the directory is already there. *)
Definition createDirectory (p : string) : M unit :=
  λ w, if bool_decide (p ∈ denied (disk w))
       then (Throw ("EACCES: " +:+ p), w)
       else (Ret tt, set_disk (mkdir p (disk w)) w).

(** Modelled from the spec: [readFileInternal(path, offset, length)] of
    [tools/filesystem.js]; section 6 gives
    [readFile(path, isUrl, offset, maxLines) → {content}|failure]: the
    [maxLines] lines from line [offset] on.  It fails on an unreadable or
    missing path. *)
Definition readFileInternal (p : string) (offset length : nat) : M string :=
  λ w, if bool_decide (p ∈ unreadable (disk w)) then (Throw ("EACCES: " +:+ p), w)
       else match files (disk w) !! p with
            | Some content => (Ret (lines_window offset length content), w)
            | None => (Throw ("ENOENT: " +:+ p), w)
            end.

(** Modelled from the spec: [readFile(path, isUrl, offset, length)] of
    [tools/filesystem.js], for a local text file; the result is its
    [content] field. *)
Definition readFile (p : string) (isUrl : bool) (offset length : nat) : M string :=
  readFileInternal p offset length.

(** ** The platform *)

(** The five files that [init_cache] writes. *)
Inductive CacheFile :=
| ConversationLog | ProjectState | Decisions | NextSteps | Protocol.

Definition file_name (f : CacheFile) : string :=
  match f with
  | ConversationLog => "conversation_log.md"
  | ProjectState => "current_project_state.md"
  | Decisions => "decisions_made.md"
  | NextSteps => "next_steps.md"
  | Protocol => "cache_protocol.md"
  end.

(** What the templates of [handleInitCache] interpolate. *)
Record InitContext := mkInitContext {
  ic_topic : option string;
  ic_timestamp : Z;
  ic_projectName : string;
  ic_cacheDir : string;
  ic_sessionOnly : bool
}.

Class Platform := {
  (** [path.join(a, b)]. *)
  path_join : string → string → string;
  (** [JSON.stringify(manifest, null, 2)]. *)
  JSON_stringify : SessionManifest → string;
  (** [JSON.parse(text)] as a [SessionManifest], [None] when it throws. *)
  JSON_parse : string → option SessionManifest;
  (** [date.toISOString()]. *)
  toISOString : Z → string;
  (** The template literals of [handleInitCache], one per file. *)
  initial_content : CacheFile → InitContext → string
}.

(** ** Arguments and replies *)

(** [InitCacheArgsSchema], parsed. *)
Record InitCacheArgs := mkInitCacheArgs {
  init_cacheDir : string;
  init_projectName : option string;
  init_topic : option string;
  init_confirmCreate : bool;
  init_understoodGrowth : bool;
  init_sessionOnly : bool
}.

(** [LoadCacheArgsSchema], parsed. *)
Record LoadCacheArgs := mkLoadCacheArgs {
  load_cacheDir : string;
  load_topic : option string;
  load_useLegacy : bool
}.

(** [AutoUpdateCacheArgsSchema], parsed; the schema gives [updateInterval]
    the default 10. *)
Record AutoUpdateCacheArgs := mkAutoUpdateCacheArgs {
  auto_enable : bool;
  auto_updateInterval : Z;
  auto_topic : option string
}.

(** [ArchiveCacheArgsSchema], parsed. *)
Record ArchiveCacheArgs := mkArchiveCacheArgs {
  arch_topic : string;
  arch_cacheDir : string;
  arch_confirmArchive : bool
}.

(** [CleanupCacheArgsSchema], parsed. *)
Record CleanupCacheArgs := mkCleanupCacheArgs {
  clean_cacheDir : string;
  clean_cleanupAfterDays : Z;
  clean_maxSessions : Z;
  clean_confirmCleanup : bool
}.

(** One section of the text that [load_cache] returns. *)
Inductive LoadedSection :=
| SectionLoaded (file content : string)
| SectionNotFound (file : string)
| SectionLoadError (file error : string).

(** One topic of the listing of [get_cache_topics]. *)
Record TopicLine := mkTopicLine {
  tl_topic : string;
  tl_session : SessionInfo;
  tl_dir : string;
  tl_exists : bool;
  tl_autoUpdate : bool;
  tl_isActive : bool
}.

(** The text of a reply that is not an error, by the template literal it is
    built from, with what the template interpolates. *)
Inductive Text :=
| PermissionRequired
| CacheInitialized (dir : string) (topic : option string) (project : string)
    (sessionOnly : bool)
| CacheUpdated (timestamp : Z) (topic : option string) (dir : string)
    (project decisions nextSteps autoUpdate : bool)
| MultipleTopicsAvailable (topics : Obj SessionInfo) (baseExists : bool)
| LegacyCacheModeDetected (dir : string)
| NoCacheFound
| CacheSystemNotFound (dir : string)
| ContextLoaded (dir : string) (topic : option string) (sections : list LoadedSection)
| AutoCacheConfigured (enable : bool) (target : option string) (interval count : Z)
| TopicStatus (topic dir : string) (dirExists autoUpdate : bool) (interval : Z)
    (isActive : bool) (details : option SessionInfo)
| WelcomeNoCache
| GlobalStatus (state : CacheState) (legacyExists : bool)
    (topics : list (string * SessionInfo * bool))
| TopicsWelcome
| TopicsOverview (dir : string) (active : option string) (autoUpdate : bool)
    (topics : list TopicLine) (legacy : bool)
| ArchiveConfirmationRequired (topic : string)
| TopicArchived (topic project dir : string) (archived : Z)
| CleanupConfirmationRequired (days maxSessions : Z)
| CleanupComplete (days maxSessions : Z) (cutoff : option Z)
    (cleaned preserved : list string) (remaining : nat).

(** The message handed to [createErrorResponse]. *)
Inductive ErrorText :=
| CacheNotInitialized (topic : option string)
| CacheDirectoryNotFound (dir : string) (topic : option string)
| FailedToCreateDirectory (error : string)
| InitializationFailed (error : string)
| UpdateFailed (error : string)
| LegacyDirectoryNotFound (dir : string)
| LoadFailed (error : string)
| TopicDirectoryNotFound (topic dir : string)
| TopicNotInManifest (topic : string)
| FailedToArchive (error : string)
| ArchiveOperationFailed (error : string)
| CleanupDirectoryNotFound (dir : string)
| FailedToCleanup (error : string)
| CleanupOperationFailed (error : string).

(** [ServerResult]: a text, or the reply of [createErrorResponse], which
    carries [isError: true]. *)
Inductive ServerResult :=
| Content (text : Text)
| ErrorResponse (message : ErrorText).


(** ** The handlers *)

Section Handlers.
Context `{Platform}.

(** [getCacheDirectory(baseCacheDir, topic?)]. *)
Definition getCacheDirectory (baseCacheDir : string) (topic : option string) : string :=
  if negb (truthy topic) then baseCacheDir
  else path_join baseCacheDir (or_else topic EmptyString).

Definition manifest_path (baseCacheDir : string) : string :=
  path_join baseCacheDir "session_manifest.json".

(** [loadSessionManifest(baseCacheDir)]: a failure of the read or of
    [JSON.parse] is caught, warned about, and answered by the default. *)
Definition loadSessionManifest (baseCacheDir : string) : M SessionManifest :=
  let manifestPath := manifest_path baseCacheDir in
  let* loaded :=
    try_catch
      (let* present := existsSync manifestPath in
       if present then
         let* manifestContent := readFileInternal manifestPath 0 1000 in
         match JSON_parse manifestContent with
         | Some manifest => ret (Some manifest)
         | None => throw "SyntaxError"
         end
       else ret None)
      (λ error, log WarnLoadManifest;; ret None) in
  ret (default defaultManifest loaded).

(** [saveSessionManifest(baseCacheDir, manifest)]: a failure of the write is
    caught and warned about. *)
Definition saveSessionManifest (baseCacheDir : string) (manifest : SessionManifest)
  : M unit :=
  let manifestPath := manifest_path baseCacheDir in
  try_catch
    (writeFile manifestPath (JSON_stringify manifest) Rewrite)
    (λ error, log (WarnSaveManifest error)).

(** [checkCreatePermission(confirmCreate, understoodGrowth)]: the message,
    or [null]. *)
Definition checkCreatePermission (confirmCreate understoodGrowth : bool) : option Text :=
  if negb confirmCreate || negb understoodGrowth then Some PermissionRequired
  else None.

(** The record that [handleInitCache] stores for a topic. *)
Definition init_entry (timestamp : Z) (project : string) (sessionOnly : bool)
  : SessionInfo :=
  {| createdAt := timestamp;
     lastUsed := timestamp;
     projectName := project;
     autoCleanupAfterDays := if sessionOnly then Some 7 else None;
     sessionOnly := Some sessionOnly;
     archivedAt := None |}.

(** [manifest.activeSessions[topic] = info]. *)
Definition set_active (topic : string) (info : SessionInfo) (m : SessionManifest)
  : SessionManifest :=
  {| activeSessions := obj_set topic info (activeSessions m);
     archivedSessions := archivedSessions m;
     manifestVersion := manifestVersion m |}.

(** [delete manifest.activeSessions[topic]]. *)
Definition delete_active (topic : string) (m : SessionManifest) : SessionManifest :=
  {| activeSessions := obj_delete topic (activeSessions m);
     archivedSessions := archivedSessions m;
     manifestVersion := manifestVersion m |}.

(** The assignments to [cacheState] that end [handleInitCache]. *)
Definition state_after_init (cs : CacheState) (baseCacheDir : string)
  (topic : option string) (today : Z) : CacheState :=
  {| isInitialized := true;
     cacheDir := baseCacheDir;
     currentTopic := or_null topic;
     autoUpdateEnabled := autoUpdateEnabled cs;
     toolCallCount := toolCallCount cs;
     updateInterval := updateInterval cs;
     lastUpdate := Some today;
     activeTopic := or_null topic;
     hasCreatePermission := true;
     permissionGrantedAt := Some today;
     topicAutoUpdateSettings := topicAutoUpdateSettings cs |}.

(** The manifest block of [handleInitCache]: [if (topic) { load; store the
    record under the topic; save }]. *)
Definition register_topic (baseCacheDir : string) (topic : option string)
  (info : SessionInfo) : M unit :=
  match or_null topic with
  | Some t =>
      let* manifest := loadSessionManifest baseCacheDir in
      saveSessionManifest baseCacheDir (set_active t info manifest)
  | None => ret tt
  end.

(** The five [writeFile(..., 'rewrite')] of [handleInitCache], in order. *)
Definition write_initial_files (actualCacheDir : string) (ctx : InitContext) : M unit :=
  writeFile (path_join actualCacheDir "conversation_log.md")
    (initial_content ConversationLog ctx) Rewrite;;
  writeFile (path_join actualCacheDir "current_project_state.md")
    (initial_content ProjectState ctx) Rewrite;;
  writeFile (path_join actualCacheDir "decisions_made.md")
    (initial_content Decisions ctx) Rewrite;;
  writeFile (path_join actualCacheDir "next_steps.md")
    (initial_content NextSteps ctx) Rewrite;;
  writeFile (path_join actualCacheDir "cache_protocol.md")
    (initial_content Protocol ctx) Rewrite.

(** The directory block of [handleInitCache]: the reply of its [catch], if
    a creation fails. *)
Definition create_directories (baseCacheDir actualCacheDir : string)
  (topic : option string) : M (option ServerResult) :=
  try_catch
    (createDirectory actualCacheDir;;
     let* baseExists := existsSync baseCacheDir in
     (if truthy topic && negb baseExists
      then createDirectory baseCacheDir else ret tt);;
     ret None)
    (λ error, ret (Some (ErrorResponse (FailedToCreateDirectory error)))).

(** [projectName || (topic ? `${topic} Project` : "Unknown Project")]. *)
Definition default_project_name (args : InitCacheArgs) : string :=
  or_else (init_projectName args)
    (match or_null (init_topic args) with
     | Some t => t +:+ " Project"
     | None => "Unknown Project"
     end).

(** What the templates of one call interpolate. *)
Definition init_context (args : InitCacheArgs) (timestamp : Z) : InitContext :=
  {| ic_topic := or_null (init_topic args);
     ic_timestamp := timestamp;
     ic_projectName := default_project_name args;
     ic_cacheDir := getCacheDirectory (init_cacheDir args) (init_topic args);
     ic_sessionOnly := init_sessionOnly args |}.

(** [handleInitCache(args)], once the permission gate is passed: the
    directories, the manifest, the five files, the cache state. *)
Definition initialize (args : InitCacheArgs) : M ServerResult :=
  let baseCacheDir := init_cacheDir args in
  let topic := init_topic args in
  let sessionOnly := init_sessionOnly args in
  let actualCacheDir := getCacheDirectory baseCacheDir topic in
  let* failure := create_directories baseCacheDir actualCacheDir topic in
  match failure with
  | Some response => ret response
  | None =>
      let* timestamp := now in
      let defaultProjectName := default_project_name args in
      register_topic baseCacheDir topic
        (init_entry timestamp defaultProjectName sessionOnly);;
      write_initial_files actualCacheDir (init_context args timestamp);;
      let* cs := get_state in
      let* today := now in
      put_state (state_after_init cs baseCacheDir topic today);;
      ret (Content (CacheInitialized actualCacheDir (or_null topic)
                      defaultProjectName sessionOnly))
  end.

(** [handleInitCache(args)]: the gate is consulted when the directory does
    not exist. *)
Definition handleInitCache (args : InitCacheArgs) : M ServerResult :=
  try_catch
    (let actualCacheDir := getCacheDirectory (init_cacheDir args) (init_topic args) in
     let* directoryExists := existsSync actualCacheDir in
     match (if negb directoryExists
            then checkCreatePermission (init_confirmCreate args)
                   (init_understoodGrowth args)
            else None) with
     | Some permissionError => ret (Content permissionError)
     | None => initialize args
     end)
    (λ error, ret (ErrorResponse (InitializationFailed error))).

(** The section that [update_cache] appends to a file, under [heading]:
    two line feeds, the heading with the timestamp and the topic, the text,
    two line feeds. *)
Definition update_entry (heading : string) (timestamp : Z)
  (targetTopic : option string) (text : string) : string :=
  let nl := String "010"%char EmptyString in
  nl +:+ nl +:+ "## " +:+ heading +:+ ": " +:+ toISOString timestamp +:+
  match or_null targetTopic with
  | Some t => " (Topic: " +:+ t +:+ ")"
  | None => EmptyString
  end +:+ nl +:+ text +:+ nl +:+ nl.

(** [let targetTopic = topic; if (!targetTopic && cacheState.activeTopic)
    targetTopic = cacheState.activeTopic]. *)
Definition resolve_target (topic : option string) (cs : CacheState) : option string :=
  if negb (truthy topic) && truthy (activeTopic cs) then activeTopic cs else topic.

(** [info.lastUsed = timestamp]. *)
Definition touch (timestamp : Z) (info : SessionInfo) : SessionInfo :=
  {| createdAt := createdAt info;
     lastUsed := timestamp;
     projectName := projectName info;
     autoCleanupAfterDays := autoCleanupAfterDays info;
     sessionOnly := sessionOnly info;
     archivedAt := archivedAt info |}.

(** An optional update of [update_cache]: appended when the text is truthy. *)
Definition append_optional (dir file heading : string) (timestamp : Z)
  (targetTopic : option string) (text : option string) : M unit :=
  if truthy text
  then writeFile (path_join dir file)
         (update_entry heading timestamp targetTopic (or_else text EmptyString)) Append
  else ret tt.

(** The assignments to [cacheState] that end [handleUpdateCache]:
    [lastUpdate = new Date(); if (targetTopic) activeTopic = targetTopic]. *)
Definition state_after_update (cs : CacheState) (today : Z)
  (targetTopic : option string) : CacheState :=
  {| isInitialized := isInitialized cs;
     cacheDir := cacheDir cs;
     currentTopic := currentTopic cs;
     autoUpdateEnabled := autoUpdateEnabled cs;
     toolCallCount := toolCallCount cs;
     updateInterval := updateInterval cs;
     lastUpdate := Some today;
     activeTopic := if truthy targetTopic then targetTopic else activeTopic cs;
     hasCreatePermission := hasCreatePermission cs;
     permissionGrantedAt := permissionGrantedAt cs;
     topicAutoUpdateSettings := topicAutoUpdateSettings cs |}.

(** The appends of [handleUpdateCache]: the conversation log always, the
    three other files when their update is truthy. *)
Definition append_updates (targetCacheDir : string) (timestamp : Z)
  (targetTopic : option string) (args : UpdateCacheArgs) : M unit :=
  writeFile (path_join targetCacheDir "conversation_log.md")
    (update_entry "Update" timestamp targetTopic (upd_conversationSummary args))
    Append;;
  append_optional targetCacheDir "current_project_state.md" "Project Update"
    timestamp targetTopic (upd_projectUpdate args);;
  append_optional targetCacheDir "decisions_made.md" "Decision Update"
    timestamp targetTopic (upd_decisionsUpdate args);;
  append_optional targetCacheDir "next_steps.md" "Next Steps Update"
    timestamp targetTopic (upd_nextStepsUpdate args).

(** The manifest block of [handleUpdateCache]: [if (targetTopic) try { load;
    if the topic is active, set its lastUsed and save } catch { warn }]. *)
Definition touch_manifest (baseCacheDir : string) (targetTopic : option string)
  (timestamp : Z) : M unit :=
  match or_null targetTopic with
  | Some t =>
      try_catch
        (let* manifest := loadSessionManifest baseCacheDir in
         match obj_get t (activeSessions manifest) with
         | Some info =>
             saveSessionManifest baseCacheDir
               (set_active t (touch timestamp info) manifest)
         | None => ret tt
         end)
        (λ error, log (WarnUpdateManifest error))
  | None => ret tt
  end.

(** [handleUpdateCache(args)] up to its first [await]: the target, the two
    checks and the timestamp.  The result is the reply, when a check fails,
    or the call as it stands at the [await]. *)
Definition update_begin (args : UpdateCacheArgs) : M (ServerResult + UpdateJob) :=
  let* cs := get_state in
  let targetTopic := resolve_target (upd_topic args) cs in
  let targetCacheDir := getCacheDirectory (cacheDir cs) targetTopic in
  if negb (isInitialized cs)
  then ret (inl (ErrorResponse (CacheNotInitialized (or_null targetTopic))))
  else
    let* present := existsSync targetCacheDir in
    if negb present
    then ret (inl (ErrorResponse
                     (CacheDirectoryNotFound targetCacheDir (or_null targetTopic))))
    else
      let* timestamp := now in
      ret (inr {| job_args := args; job_target := targetTopic;
                  job_dir := targetCacheDir; job_timestamp := timestamp |}).

(** [handleUpdateCache(args)] from its first [await] on: the appends, the
    manifest of [cacheState.cacheDir], the cache state, the reply. *)
Definition update_finish (job : UpdateJob) : M ServerResult :=
  let args := job_args job in
  let targetTopic := job_target job in
  let timestamp := job_timestamp job in
  append_updates (job_dir job) timestamp targetTopic args;;
  let* cs := get_state in
  touch_manifest (cacheDir cs) targetTopic timestamp;;
  let* cs' := get_state in
  let* today := now in
  put_state (state_after_update cs' today targetTopic);;
  ret (Content (CacheUpdated timestamp (or_null targetTopic) (job_dir job)
                  (truthy (upd_projectUpdate args))
                  (truthy (upd_decisionsUpdate args))
                  (truthy (upd_nextStepsUpdate args))
                  (autoUpdateEnabled cs'))).

(** [handleUpdateCache(args)], awaited. *)
Definition handleUpdateCache (args : UpdateCacheArgs) : M ServerResult :=
  try_catch
    (let* started := update_begin args in
     match started with
     | inl reply => ret reply
     | inr job => update_finish job
     end)
    (λ error, ret (ErrorResponse (UpdateFailed error))).

(** One turn of the loop of [handleLoadCache] over the four files: a file
    that cannot be read, or is empty, is reported in its section. *)
Definition load_section (dir file : string) : M LoadedSection :=
  try_catch
    (let* content := readFile (path_join dir file) false 0 2000 in
     match content with
     | String _ _ => ret (SectionLoaded file content)
     | EmptyString => ret (SectionNotFound file)
     end)
    (λ error, ret (SectionLoadError file error)).

Fixpoint load_sections (dir : string) (names : list string) : M (list LoadedSection) :=
  match names with
  | [] => ret []
  | file :: rest =>
      let* s := load_section dir file in
      let* ss := load_sections dir rest in
      ret (s :: ss)
  end.

(** The assignments to [cacheState] that end [handleLoadCache]. *)
Definition state_after_load (cs : CacheState) (baseCacheDir : string)
  (topic : option string) : CacheState :=
  {| isInitialized := true;
     cacheDir := baseCacheDir;
     currentTopic := or_null topic;
     autoUpdateEnabled := autoUpdateEnabled cs;
     toolCallCount := toolCallCount cs;
     updateInterval := updateInterval cs;
     lastUpdate := lastUpdate cs;
     activeTopic := or_null topic;
     hasCreatePermission := hasCreatePermission cs;
     permissionGrantedAt := permissionGrantedAt cs;
     topicAutoUpdateSettings := topicAutoUpdateSettings cs |}.

(** The topic discovery of [handleLoadCache], for a call without a topic
    and without [useLegacy]: the reply that it returns, or nothing when its
    [catch] falls through to the load of the base directory. *)
Definition discover_topics (baseCacheDir : string) : M (option ServerResult) :=
  try_catch
    (let* manifest := loadSessionManifest baseCacheDir in
     let* baseExists := existsSync baseCacheDir in
     match activeSessions manifest with
     | _ :: _ =>
         ret (Some (Content (MultipleTopicsAvailable (activeSessions manifest)
                               baseExists)))
     | [] =>
         if baseExists then ret (Some (Content (LegacyCacheModeDetected baseCacheDir)))
         else ret (Some (Content NoCacheFound))
     end)
    (λ error,
       let* baseExists := existsSync baseCacheDir in
       if negb baseExists then ret (Some (Content (CacheSystemNotFound baseCacheDir)))
       else ret None).

(** [handleLoadCache(args)]. *)
Definition handleLoadCache (args : LoadCacheArgs) : M ServerResult :=
  try_catch
    (let baseCacheDir := load_cacheDir args in
     let topic := load_topic args in
     let useLegacy := load_useLegacy args in
     let* guidance :=
       if negb (truthy topic) && negb useLegacy then discover_topics baseCacheDir
       else ret None in
     match guidance with
     | Some reply => ret reply
     | None =>
         let* baseExists := existsSync baseCacheDir in
         if useLegacy && negb (truthy topic) && negb baseExists
         then ret (ErrorResponse (LegacyDirectoryNotFound baseCacheDir))
         else
           let targetCacheDir := getCacheDirectory baseCacheDir topic in
           let* present := existsSync targetCacheDir in
           if negb present
           then ret (ErrorResponse (CacheDirectoryNotFound targetCacheDir (or_null topic)))
           else
             let* sections :=
               load_sections targetCacheDir
                 ["conversation_log.md"; "current_project_state.md";
                  "decisions_made.md"; "next_steps.md"] in
             let* cs := get_state in
             put_state (state_after_load cs baseCacheDir topic);;
             ret (Content (ContextLoaded targetCacheDir (or_null topic) sections))
     end)
    (λ error, ret (ErrorResponse (LoadFailed error))).

(** The assignments to [cacheState] of [handleAutoUpdateCache]: the setting
    of the target topic, mirrored in the global flag when that topic is the
    active one, or the global flag alone when there is no target; and the
    interval, when the argument is truthy. *)
Definition state_after_configure (cs : CacheState) (args : AutoUpdateCacheArgs)
  : CacheState :=
  let enable := auto_enable args in
  let targetTopic := resolve_target (auto_topic args) cs in
  {| isInitialized := isInitialized cs;
     cacheDir := cacheDir cs;
     currentTopic := currentTopic cs;
     autoUpdateEnabled :=
       match or_null targetTopic with
       | Some t => if strict_eq (activeTopic cs) t then enable else autoUpdateEnabled cs
       | None => enable
       end;
     toolCallCount := toolCallCount cs;
     updateInterval :=
       if auto_updateInterval args =? 0 then updateInterval cs
       else auto_updateInterval args;
     lastUpdate := lastUpdate cs;
     activeTopic := activeTopic cs;
     hasCreatePermission := hasCreatePermission cs;
     permissionGrantedAt := permissionGrantedAt cs;
     topicAutoUpdateSettings :=
       match or_null targetTopic with
       | Some t => <[t := enable]> (topicAutoUpdateSettings cs)
       | None => topicAutoUpdateSettings cs
       end |}.

(** [handleAutoUpdateCache(args)]; nothing in it raises. *)
Definition handleAutoUpdateCache (args : AutoUpdateCacheArgs) : M ServerResult :=
  let* cs := get_state in
  let targetTopic := resolve_target (auto_topic args) cs in
  let cs' := state_after_configure cs args in
  put_state cs';;
  ret (Content (AutoCacheConfigured (auto_enable args) (or_null targetTopic)
                  (updateInterval cs') (toolCallCount cs'))).

(** [cacheState.topicAutoUpdateSettings.get(topic)] read as a condition. *)
Definition topic_setting (cs : CacheState) (topic : string) : bool :=
  bool_decide (topicAutoUpdateSettings cs !! topic = Some true).



(** [{...sessionInfo, archivedAt: now}]. *)
Definition archived_info (info : SessionInfo) (archived : Z) : SessionInfo :=
  {| createdAt := createdAt info;
     lastUsed := lastUsed info;
     projectName := projectName info;
     autoCleanupAfterDays := autoCleanupAfterDays info;
     sessionOnly := sessionOnly info;
     archivedAt := Some archived |}.

(** The move of [handleArchiveCache]: [archivedSessions] is created when
    absent, receives the record, and the topic leaves [activeSessions]. *)
Definition archive_topic (topic : string) (info : SessionInfo) (archived : Z)
  (m : SessionManifest) : SessionManifest :=
  {| activeSessions := obj_delete topic (activeSessions m);
     archivedSessions :=
       Some (obj_set topic (archived_info info archived)
               (default [] (archivedSessions m)));
     manifestVersion := manifestVersion m |}.

(** The assignments to [cacheState] that end [handleArchiveCache]: the
    setting of the topic is deleted; [if (activeTopic === topic)
    { activeTopic = null; autoUpdateEnabled = false }]. *)
Definition state_after_archive (cs : CacheState) (topic : string) : CacheState :=
  let isActive := strict_eq (activeTopic cs) topic in
  {| isInitialized := isInitialized cs;
     cacheDir := cacheDir cs;
     currentTopic := currentTopic cs;
     autoUpdateEnabled := if isActive then false else autoUpdateEnabled cs;
     toolCallCount := toolCallCount cs;
     updateInterval := updateInterval cs;
     lastUpdate := lastUpdate cs;
     activeTopic := if isActive then None else activeTopic cs;
     hasCreatePermission := hasCreatePermission cs;
     permissionGrantedAt := permissionGrantedAt cs;
     topicAutoUpdateSettings := delete topic (topicAutoUpdateSettings cs) |}.

(** [handleArchiveCache(args)]. *)
Definition handleArchiveCache (args : ArchiveCacheArgs) : M ServerResult :=
  try_catch
    (let topic := arch_topic args in
     let cacheDir' := arch_cacheDir args in
     if negb (arch_confirmArchive args)
     then ret (Content (ArchiveConfirmationRequired topic))
     else
       let topicCacheDir := getCacheDirectory cacheDir' (Some topic) in
       let* present := existsSync topicCacheDir in
       if negb present
       then ret (ErrorResponse (TopicDirectoryNotFound topic topicCacheDir))
       else
         try_catch
           (let* manifest := loadSessionManifest cacheDir' in
            match obj_get topic (activeSessions manifest) with
            | None => ret (ErrorResponse (TopicNotInManifest topic))
            | Some sessionInfo =>
                let* today := now in
                saveSessionManifest cacheDir'
                  (archive_topic topic sessionInfo today manifest);;
                let* cs := get_state in
                put_state (state_after_archive cs topic);;
                ret (Content (TopicArchived topic (projectName sessionInfo)
                                topicCacheDir today))
            end)
           (λ error, ret (ErrorResponse (FailedToArchive error))))
    (λ error, ret (ErrorResponse (ArchiveOperationFailed error))).

(** [activeSessions.sort(([, a], [, b]) => new Date(b.lastUsed).getTime() -
    new Date(a.lastUsed).getTime())].  [Array.prototype.sort] is stable, so
    its result is the one an insertion sort gives: [a] stays before [b]
    when the comparator is not positive, that is when
    [lastUsed b <= lastUsed a]. *)
Definition stays_before (a b : string * SessionInfo) : bool :=
  lastUsed b.2 <=? lastUsed a.2.

Fixpoint insert_session (x : string * SessionInfo) (l : list (string * SessionInfo))
  : list (string * SessionInfo) :=
  match l with
  | [] => [x]
  | y :: l' => if stays_before x y then x :: y :: l' else y :: insert_session x l'
  end.

Definition sort_sessions (l : list (string * SessionInfo))
  : list (string * SessionInfo) :=
  foldr insert_session [] l.

(** [new Date(value)] of a time value: beyond 8.64e15 milliseconds from the
    epoch the date is invalid, and its time value is [NaN]. *)
Definition time_clip (value : Z) : option Z :=
  if Z.abs value <=? 8640000000000000 then Some value else None.

(** [lastUsed < cutoffDate] between two dates, the first one valid: the
    comparison with an invalid date is false. *)
Definition before_date (instant : Z) (date : option Z) : bool :=
  match date with
  | Some d => instant <? d
  | None => false
  end.

(** What the loop of [handleCleanupCache] carries. *)
Record CleanupState := mkCleanupState {
  cl_manifest : SessionManifest;
  cl_settings : gmap string bool;
  cl_cleaned : list string;
  cl_preserved : list string
}.

(** [(tooOld || excessCount) && !isCurrentlyActive] for the entry at index
    [i] of the sorted list. *)
Definition selected_for_cleanup (cutoff : option Z) (maxSessions : Z)
  (active : option string) (i : nat) (e : string * SessionInfo) : bool :=
  let tooOld := before_date (lastUsed e.2) cutoff in
  let excessCount := maxSessions <=? Z.of_nat i in
  let isCurrentlyActive := strict_eq active e.1 in
  (tooOld || excessCount) && negb isCurrentlyActive.

(** The body of the loop, for the entry at index [i]. *)
Definition cleanup_step (d : Disk) (cacheDir' : string) (cutoff : option Z)
  (maxSessions : Z) (active : option string) (i : nat) (e : string * SessionInfo)
  (st : CleanupState)
  : CleanupState :=
  let topicDir := getCacheDirectory cacheDir' (Some e.1) in
  if selected_for_cleanup cutoff maxSessions active i e then
    {| cl_manifest := delete_active e.1 (cl_manifest st);
       cl_settings := delete e.1 (cl_settings st);
       cl_cleaned :=
         if exists_on d topicDir
         then cl_cleaned st ++
              [e.1 +:+ " (" +:+ projectName e.2 +:+ ") - Directory: " +:+ topicDir]
         else cl_cleaned st;
       cl_preserved := cl_preserved st |}
  else
    {| cl_manifest := cl_manifest st;
       cl_settings := cl_settings st;
       cl_cleaned := cl_cleaned st;
       cl_preserved := cl_preserved st ++ [e.1 +:+ " (" +:+ projectName e.2 +:+ ")"] |}.

(** [for (let i = 0; i < activeSessions.length; i++)], from index [i] on. *)
Fixpoint cleanup_loop (d : Disk) (cacheDir' : string) (cutoff : option Z)
  (maxSessions : Z) (active : option string) (i : nat)
  (entries : list (string * SessionInfo)) (st : CleanupState) : CleanupState :=
  match entries with
  | [] => st
  | e :: rest =>
      cleanup_loop d cacheDir' cutoff maxSessions active (S i) rest
        (cleanup_step d cacheDir' cutoff maxSessions active i e st)
  end.

(** [cacheState] with the per-topic settings that the loop leaves. *)
Definition with_settings (cs : CacheState) (settings : gmap string bool) : CacheState :=
  {| isInitialized := isInitialized cs;
     cacheDir := cacheDir cs;
     currentTopic := currentTopic cs;
     autoUpdateEnabled := autoUpdateEnabled cs;
     toolCallCount := toolCallCount cs;
     updateInterval := updateInterval cs;
     lastUpdate := lastUpdate cs;
     activeTopic := activeTopic cs;
     hasCreatePermission := hasCreatePermission cs;
     permissionGrantedAt := permissionGrantedAt cs;
     topicAutoUpdateSettings := settings |}.

(** [new Date(now.getTime() - (cleanupAfterDays * 24 * 60 * 60 * 1000))]. *)
Definition cutoff_date (today cleanupAfterDays : Z) : option Z :=
  time_clip (today - cleanupAfterDays * 24 * 60 * 60 * 1000).

(** [handleCleanupCache(args)].  The loop deletes from the manifest in
    memory and from [cacheState.topicAutoUpdateSettings]; it touches no file
    and no directory. *)
Definition handleCleanupCache (args : CleanupCacheArgs) : M ServerResult :=
  try_catch
    (let cacheDir' := clean_cacheDir args in
     let cleanupAfterDays := clean_cleanupAfterDays args in
     let maxSessions := clean_maxSessions args in
     if negb (clean_confirmCleanup args)
     then ret (Content (CleanupConfirmationRequired cleanupAfterDays maxSessions))
     else
       let* present := existsSync cacheDir' in
       if negb present
       then ret (ErrorResponse (CleanupDirectoryNotFound cacheDir'))
       else
         try_catch
           (let* manifest := loadSessionManifest cacheDir' in
            let* today := now in
            let cutoffDate := cutoff_date today cleanupAfterDays in
            let activeSessions' := sort_sessions (activeSessions manifest) in
            let* cs := get_state in
            let* st := (λ w, (Ret (cleanup_loop (disk w) cacheDir' cutoffDate maxSessions
                                     (activeTopic cs) 0 activeSessions'
                                     {| cl_manifest := manifest;
                                        cl_settings := topicAutoUpdateSettings cs;
                                        cl_cleaned := [];
                                        cl_preserved := [] |}), w)) in
            put_state (with_settings cs (cl_settings st));;
            saveSessionManifest cacheDir' (cl_manifest st);;
            ret (Content (CleanupComplete cleanupAfterDays maxSessions cutoffDate
                            (cl_cleaned st) (cl_preserved st)
                            (length (obj_keys (activeSessions (cl_manifest st)))))))
           (λ error, ret (ErrorResponse (FailedToCleanup error))))
    (λ error, ret (ErrorResponse (CleanupOperationFailed error))).

(** [cacheState.toolCallCount++]. *)
Definition counted (cs : CacheState) : CacheState :=
  {| isInitialized := isInitialized cs;
     cacheDir := cacheDir cs;
     currentTopic := currentTopic cs;
     autoUpdateEnabled := autoUpdateEnabled cs;
     toolCallCount := toolCallCount cs + 1;
     updateInterval := updateInterval cs;
     lastUpdate := lastUpdate cs;
     activeTopic := activeTopic cs;
     hasCreatePermission := hasCreatePermission cs;
     permissionGrantedAt := permissionGrantedAt cs;
     topicAutoUpdateSettings := topicAutoUpdateSettings cs |}.

(** The arguments of the update that [incrementToolCallCounter] starts. *)
Definition auto_update_args (cs : CacheState) (today : Z) : UpdateCacheArgs :=
  {| upd_conversationSummary :=
       "Auto-update triggered after " +:+ pretty (toolCallCount cs) +:+
       " tool calls at " +:+ toISOString today;
     upd_projectUpdate := None;
     upd_decisionsUpdate := None;
     upd_nextStepsUpdate := None;
     upd_topic := or_null (activeTopic cs) |}.

(** [shouldAutoUpdate] of [incrementToolCallCounter]: the setting of the
    active topic, [true] only when it is stored as [true], or the global
    flag when no topic is active. *)
Definition should_auto_update (cs : CacheState) : bool :=
  match or_null (activeTopic cs) with
  | Some t => topic_setting cs t
  | None => autoUpdateEnabled cs
  end.

(** [handleUpdateCache(args).catch(...)], not awaited: the call runs to its
    first [await]; if it has not returned by then, its rest is in flight. *)
Definition start_update (args : UpdateCacheArgs) : M unit :=
  let* started := update_begin args in
  match started with
  | inl reply => ret tt
  | inr job => λ w, (Ret tt, set_inflight (inflight w ++ [job]) w)
  end.

(** [incrementToolCallCounter()]. *)
Definition incrementToolCallCounter : M unit :=
  let* cs0 := get_state in
  let cs := counted cs0 in
  put_state cs;;
  let shouldAutoUpdate := should_auto_update cs in
  if shouldAutoUpdate && isInitialized cs
     && rem_is_zero (toolCallCount cs) (updateInterval cs)
  then
    let* today := now in
    start_update (auto_update_args cs today)
  else ret tt.

(** An update in flight runs to its end, still inside the [try] of
    [handleUpdateCache]: the promise is never rejected, so that the [catch]
    given by [incrementToolCallCounter] logs nothing, and the reply is
    dropped. *)
Definition complete_update (job : UpdateJob) : M unit :=
  try_catch (update_finish job) (λ error, ret (ErrorResponse (UpdateFailed error)));;
  ret tt.

Fixpoint complete_updates (jobs : list UpdateJob) : M unit :=
  match jobs with
  | [] => ret tt
  | job :: rest => complete_update job;; complete_updates rest
  end.

(** The event loop completes the updates in flight, oldest first, while
    nothing else touches the cache. *)
Definition settle : M unit :=
  λ w, complete_updates (inflight w) (set_inflight [] w).

(** [n] calls of [incrementToolCallCounter()] in a row. *)
Fixpoint ticks (n : nat) : M unit :=
  match n with
  | O => ret tt
  | S n' => incrementToolCallCounter;; ticks n'
  end.

(** [n] calls of [incrementToolCallCounter()], far enough apart for the
    update that a call starts to complete before the next call. *)
Fixpoint tool_calls (n : nat) : M unit :=
  match n with
  | O => ret tt
  | S n' => incrementToolCallCounter;; settle;; tool_calls n'
  end.

End Handlers.

(** ** A platform to run on

    [path.join], [Date] and [JSON] as Node provides them, for ASCII text,
    years 0000 to 9999, integers as the only numbers and path segments
    without separators or dots; each template is cut down to its heading
    line. *)

Module Node.

Definition nl : string := String "010"%char EmptyString.

(** [path.join(a, b)], POSIX flavour. *)
Definition join (a b : string) : string :=
  match a, b with
  | EmptyString, _ => b
  | _, EmptyString => a
  | _, _ => a +:+ "/" +:+ b
  end.

(** A number in decimal, padded with zeros on the left. *)
Definition pad (width : nat) (n : Z) : string :=
  let s := pretty n in
  String.concat EmptyString (replicate (width - String.length s) "0") +:+ s.

(** The civil date of a day count since 1970-01-01. *)
Definition civil_from_days (days : Z) : Z * Z * Z :=
  let z := days + 719468 in
  let era := z / 146097 in
  let doe := z - era * 146097 in
  let yoe := (doe - doe / 1460 + doe / 36524 - doe / 146096) / 365 in
  let doy := doe - (365 * yoe + yoe / 4 - yoe / 100) in
  let mp := (5 * doy + 2) / 153 in
  let d := doy - (153 * mp + 2) / 5 + 1 in
  let m := if mp <? 10 then mp + 3 else mp - 9 in
  let y := yoe + era * 400 + (if m <=? 2 then 1 else 0) in
  (y, m, d).

(** The day count since 1970-01-01 of a civil date. *)
Definition days_from_civil (y m d : Z) : Z :=
  let y' := if m <=? 2 then y - 1 else y in
  let era := y' / 400 in
  let yoe := y' - era * 400 in
  let doy := (153 * (if 2 <? m then m - 3 else m + 9) + 2) / 5 + d - 1 in
  let doe := yoe * 365 + yoe / 4 - yoe / 100 + doy in
  era * 146097 + doe - 719468.

(** [new Date(ms).toISOString()]. *)
Definition iso_of_ms (ms : Z) : string :=
  let '(y, m, d) := civil_from_days (ms / 86400000) in
  let t := ms mod 86400000 in
  pad 4 y +:+ "-" +:+ pad 2 m +:+ "-" +:+ pad 2 d +:+ "T" +:+
  pad 2 (t / 3600000) +:+ ":" +:+ pad 2 (t / 60000 mod 60) +:+ ":" +:+
  pad 2 (t / 1000 mod 60) +:+ "." +:+ pad 3 (t mod 1000) +:+ "Z".

Definition digit_of (c : ascii) : option Z :=
  let n := Z.of_nat (nat_of_ascii c) in
  if (48 <=? n) && (n <=? 57) then Some (n - 48) else None.

Fixpoint digits_from (acc : Z) (s : string) : option Z :=
  match s with
  | EmptyString => Some acc
  | String c r =>
      match digit_of c with
      | Some n => digits_from (10 * acc + n) r
      | None => None
      end
  end.

(** A non-empty run of decimal digits. *)
Definition digits (s : string) : option Z :=
  match s with
  | EmptyString => None
  | _ => digits_from 0 s
  end.

(** [new Date(text).getTime()] for the text that [toISOString] writes. *)
Definition ms_of_iso (s : string) : option Z :=
  if negb (Nat.eqb (String.length s) 24) then None
  else
    let sep i c := String.eqb (substring i 1 s) c in
    if sep 4%nat "-" && sep 7%nat "-" && sep 10%nat "T" && sep 13%nat ":"
       && sep 16%nat ":" && sep 19%nat "." && sep 23%nat "Z"
    then
      match digits (substring 0 4 s), digits (substring 5 2 s),
            digits (substring 8 2 s), digits (substring 11 2 s),
            digits (substring 14 2 s), digits (substring 17 2 s),
            digits (substring 20 3 s) with
      | Some y, Some m, Some d, Some hh, Some mm, Some ss, Some ms =>
          Some (days_from_civil y m d * 86400000 + hh * 3600000 + mm * 60000
                + ss * 1000 + ms)
      | _, _, _, _, _, _, _ => None
      end
    else None.

(** JSON values, as far as a manifest needs them. *)
Local Unset Elimination Schemes.
Inductive json :=
| JNull
| JBool (b : bool)
| JNum (n : Z)
| JStr (s : string)
| JObj (fields : list (string * json)).
Local Set Elimination Schemes.

Definition dquote : ascii := "034"%char.
Definition backslash : ascii := "092"%char.

Definition hex_digit (n : nat) : ascii :=
  ascii_of_nat (if Nat.ltb n 10 then 48 + n else 87 + n).

(** One character of a string, as its JSON text has it. *)
Definition escape_char (c : ascii) : string :=
  let n := nat_of_ascii c in
  let esc (x : ascii) := String backslash (String x EmptyString) in
  if Nat.eqb n 34 then esc dquote
  else if Nat.eqb n 92 then esc backslash
  else if Nat.eqb n 8 then esc "b"%char
  else if Nat.eqb n 9 then esc "t"%char
  else if Nat.eqb n 10 then esc "n"%char
  else if Nat.eqb n 12 then esc "f"%char
  else if Nat.eqb n 13 then esc "r"%char
  else if Nat.ltb n 32
       then String backslash
              ("u00" +:+ String (hex_digit (n / 16))
                           (String (hex_digit (n mod 16)) EmptyString))
       else String c EmptyString.

Fixpoint escape (s : string) : string :=
  match s with
  | EmptyString => EmptyString
  | String c r => escape_char c +:+ escape r
  end.

Definition quote (s : string) : string :=
  String dquote (escape s +:+ String dquote EmptyString).

(** [JSON.stringify(v, null, 2)], at the indentation [indent]. *)
Fixpoint print_json (indent : string) (v : json) : string :=
  match v with
  | JNull => "null"
  | JBool true => "true"
  | JBool false => "false"
  | JNum n => pretty n
  | JStr s => quote s
  | JObj [] => "{}"
  | JObj fields =>
      "{" +:+ nl +:+
      String.concat ("," +:+ nl)
        (map (λ kv : string * json,
                indent +:+ "  " +:+ quote kv.1 +:+ ": " +:+
                print_json (indent +:+ "  ") kv.2)
           fields) +:+
      nl +:+ indent +:+ "}"
  end.

Definition is_space (c : ascii) : bool :=
  let n := nat_of_ascii c in
  Nat.eqb n 32 || Nat.eqb n 9 || Nat.eqb n 10 || Nat.eqb n 13.

Fixpoint skip_ws (s : string) : string :=
  match s with
  | String c r => if is_space c then skip_ws r else s
  | EmptyString => s
  end.

Definition hex_value (c : ascii) : option nat :=
  let n := nat_of_ascii c in
  if Nat.leb 48 n && Nat.leb n 57 then Some (n - 48)%nat
  else if Nat.leb 97 n && Nat.leb n 102 then Some (n - 87)%nat
  else if Nat.leb 65 n && Nat.leb n 70 then Some (n - 55)%nat
  else None.

(** The rest of a string literal, after its opening quote: the string and
    what follows the closing quote. *)
Fixpoint parse_string (s : string) : option (string * string) :=
  match s with
  | EmptyString => None
  | String c r =>
      let n := nat_of_ascii c in
      if Nat.eqb n 34 then Some (EmptyString, r)
      else if Nat.ltb n 32 then None
      else if Nat.eqb n 92 then
        match r with
        | String e r' =>
            let plain (x : ascii) :=
              match parse_string r' with
              | Some (t, rest) => Some (String x t, rest)
              | None => None
              end in
            let m := nat_of_ascii e in
            if Nat.eqb m 34 then plain dquote
            else if Nat.eqb m 92 then plain backslash
            else if Nat.eqb m 47 then plain "/"%char
            else if Nat.eqb m 98 then plain "008"%char
            else if Nat.eqb m 116 then plain "009"%char
            else if Nat.eqb m 110 then plain "010"%char
            else if Nat.eqb m 102 then plain "012"%char
            else if Nat.eqb m 114 then plain "013"%char
            else if Nat.eqb m 117 then
              match r' with
              | String "0" (String "0" (String h (String l r''))) =>
                  match hex_value h, hex_value l, parse_string r'' with
                  | Some a, Some b, Some (t, rest) =>
                      Some (String (ascii_of_nat (16 * a + b)) t, rest)
                  | _, _, _ => None
                  end
              | _ => None
              end
            else None
        | EmptyString => None
        end
      else
        match parse_string r with
        | Some (t, rest) => Some (String c t, rest)
        | None => None
        end
  end.

(** The digits at the head of a text, and what follows them. *)
Fixpoint span_digits (s : string) : string * string :=
  match s with
  | String c r =>
      match digit_of c with
      | Some _ => let '(ds, rest) := span_digits r in (String c ds, rest)
      | None => (EmptyString, s)
      end
  | EmptyString => (EmptyString, s)
  end.

Definition after_number (rest : string) : bool :=
  match rest with
  | String c _ =>
      negb (Ascii.eqb c "."%char || Ascii.eqb c "e"%char || Ascii.eqb c "E"%char)
  | EmptyString => true
  end.

(** An integer literal. *)
Definition parse_number (s : string) : option (json * string) :=
  let '(negative, body) :=
    match s with
    | String "-" r => (true, r)
    | _ => (false, s)
    end in
  let '(ds, rest) := span_digits body in
  match digits ds with
  | Some n =>
      if after_number rest && (Nat.eqb (String.length ds) 1 || negb (String.prefix "0" ds))
      then Some (JNum (if negative then - n else n), rest)
      else None
  | None => None
  end.

Definition expect (word : string) (v : json) (s : string) : option (json * string) :=
  if String.prefix word s
  then Some (v, substring (String.length word) (String.length s - String.length word) s)
  else None.

(** A value at the head of a text, and the members of an object after its
    opening brace; [fuel] bounds the nesting and the number of members. *)
Fixpoint parse_value (fuel : nat) (s : string) : option (json * string) :=
  match fuel with
  | O => None
  | S fuel' =>
      match skip_ws s with
      | String "{" r =>
          match skip_ws r with
          | String "}" r' => Some (JObj [], r')
          | r1 => parse_members fuel' r1 []
          end
      | String "034" r =>
          match parse_string r with
          | Some (t, rest) => Some (JStr t, rest)
          | None => None
          end
      | String "t" _ as t => expect "true" (JBool true) t
      | String "f" _ as t => expect "false" (JBool false) t
      | String "n" _ as t => expect "null" JNull t
      | t => parse_number t
      end
  end
with parse_members (fuel : nat) (s : string) (acc : list (string * json))
  : option (json * string) :=
  match fuel with
  | O => None
  | S fuel' =>
      match skip_ws s with
      | String "034" r =>
          match parse_string r with
          | Some (k, r1) =>
              match skip_ws r1 with
              | String ":" r2 =>
                  match parse_value fuel' r2 with
                  | Some (v, r3) =>
                      match skip_ws r3 with
                      | String "," r4 => parse_members fuel' r4 (obj_set k v acc)
                      | String "}" r4 => Some (JObj (obj_set k v acc), r4)
                      | _ => None
                      end
                  | None => None
                  end
              | _ => None
              end
          | None => None
          end
      | _ => None
      end
  end.

(** [JSON.parse(text)]. *)
Definition parse_json (s : string) : option json :=
  match parse_value (S (String.length s)) s with
  | Some (v, rest) =>
      match skip_ws rest with
      | EmptyString => Some v
      | _ => None
      end
  | None => None
  end.

(** A record of the manifest as a JSON object; a field that is [undefined]
    is left out, and [archivedAt] comes last, where the spread of
    [handleArchiveCache] puts it. *)
Definition info_to_json (e : SessionInfo) : json :=
  JObj ([("createdAt", JStr (iso_of_ms (createdAt e)));
         ("lastUsed", JStr (iso_of_ms (lastUsed e)));
         ("projectName", JStr (projectName e))]
        ++ match autoCleanupAfterDays e with
           | Some n => [("autoCleanupAfterDays", JNum n)]
           | None => []
           end
        ++ match sessionOnly e with
           | Some b => [("sessionOnly", JBool b)]
           | None => []
           end
        ++ match archivedAt e with
           | Some t => [("archivedAt", JStr (iso_of_ms t))]
           | None => []
           end).

Definition sessions_to_json (o : Obj SessionInfo) : json :=
  JObj (map (λ kv, (kv.1, info_to_json kv.2)) o).

(** The manifest as a JSON object; [archivedSessions], added by the first
    archive, comes after [manifestVersion]. *)
Definition manifest_to_json (m : SessionManifest) : json :=
  JObj ([("activeSessions", sessions_to_json (activeSessions m));
         ("manifestVersion", JStr (manifestVersion m))]
        ++ match archivedSessions m with
           | Some o => [("archivedSessions", sessions_to_json o)]
           | None => []
           end).

Definition stringify (m : SessionManifest) : string :=
  print_json EmptyString (manifest_to_json m).

(** An optional field: absent, or present with a value that [read] accepts. *)
Definition optional_field {A} (read : json → option A) (k : string)
  (fields : list (string * json)) : option (option A) :=
  match obj_get k fields with
  | None => Some None
  | Some v => match read v with Some a => Some (Some a) | None => None end
  end.

Definition as_instant (v : json) : option Z :=
  match v with JStr s => ms_of_iso s | _ => None end.

Definition as_string (v : json) : option string :=
  match v with JStr s => Some s | _ => None end.

Definition as_number (v : json) : option Z :=
  match v with JNum n => Some n | _ => None end.

Definition as_bool (v : json) : option bool :=
  match v with JBool b => Some b | _ => None end.

Definition info_of_json (v : json) : option SessionInfo :=
  match v with
  | JObj fs =>
      match obj_get "createdAt" fs ≫= as_instant,
            obj_get "lastUsed" fs ≫= as_instant,
            obj_get "projectName" fs ≫= as_string,
            optional_field as_number "autoCleanupAfterDays" fs,
            optional_field as_bool "sessionOnly" fs,
            optional_field as_instant "archivedAt" fs with
      | Some c, Some l, Some p, Some a, Some s, Some r =>
          Some {| createdAt := c; lastUsed := l; projectName := p;
                  autoCleanupAfterDays := a; sessionOnly := s; archivedAt := r |}
      | _, _, _, _, _, _ => None
      end
  | _ => None
  end.

Fixpoint sessions_of_fields (fs : list (string * json)) : option (Obj SessionInfo) :=
  match fs with
  | [] => Some []
  | (k, v) :: rest =>
      match info_of_json v, sessions_of_fields rest with
      | Some e, Some o => Some ((k, e) :: o)
      | _, _ => None
      end
  end.

Definition as_sessions (v : json) : option (Obj SessionInfo) :=
  match v with JObj fs => sessions_of_fields fs | _ => None end.

(** The parsed document as a [SessionManifest]; a document of another shape
    is outside the typed model and counts as unreadable. *)
Definition manifest_of_json (v : json) : option SessionManifest :=
  match v with
  | JObj fs =>
      match obj_get "activeSessions" fs ≫= as_sessions,
            optional_field as_sessions "archivedSessions" fs,
            obj_get "manifestVersion" fs ≫= as_string with
      | Some a, Some r, Some ver =>
          Some {| activeSessions := a; archivedSessions := r; manifestVersion := ver |}
      | _, _, _ => None
      end
  | _ => None
  end.

Definition parse (s : string) : option SessionManifest :=
  parse_json s ≫= manifest_of_json.

(** The heading line of each template of [handleInitCache]. *)
Definition heading (f : CacheFile) (ctx : InitContext) : string :=
  match f with
  | ConversationLog => "# Claude Session Conversation Log"
  | ProjectState => "# Project State"
  | Decisions => "# Key Decisions and Approaches"
  | NextSteps => "# Next Steps - Immediate Actions"
  | Protocol => "# Cache System Protocol"
  end +:+
  match ic_topic ctx with
  | Some t => " - " +:+ t
  | None => EmptyString
  end +:+ nl.

End Node.

Definition NodePlatform : Platform :=
  {| path_join := Node.join;
     JSON_stringify := Node.stringify;
     JSON_parse := Node.parse;
     toISOString := Node.iso_of_ms;
     initial_content := Node.heading |}.

(** Worlds and arguments of the closed examples. *)
Definition demo_init : InitCacheArgs :=
  {| init_cacheDir := "/cache"; init_projectName := None;
     init_topic := Some "demo"; init_confirmCreate := true;
     init_understoodGrowth := true; init_sessionOnly := false |}.

Definition demo_archive : ArchiveCacheArgs :=
  {| arch_topic := "demo"; arch_cacheDir := "/cache"; arch_confirmArchive := true |}.

(** ** Vocabulary of the statements *)

(** The world after a handler, whatever it answered. *)
Definition after {A} (m : M A) (w : World) : World := (m w).2.

(** The handler answered, and not with an error response. *)
Definition succeeds (r : Outcome ServerResult * World) : Prop :=
  match r.1 with
  | Ret (Content _) => True
  | _ => False
  end.

(** The manifest that a load sees in a world. *)
Definition manifest_of `{Platform} (w : World) (baseCacheDir : string) : SessionManifest :=
  match (loadSessionManifest baseCacheDir w).1 with
  | Ret m => m
  | Throw _ => defaultManifest
  end.

(** The manifest file of [baseCacheDir], if there is one, holds what
    [saveSessionManifest] writes: the text of a manifest.  [JSON.parse] of
    its first 1000 lines then throws, when the window cuts the text, or
    returns a value of the type [SessionManifest].  A file of another
    content that is valid JSON makes the handlers go on with a value of
    another shape, which this development does not describe. *)
Definition typed_manifest_file `{Platform} (d : Disk) (baseCacheDir : string) : Prop :=
  ∀ content, files d !! manifest_path baseCacheDir = Some content →
             ∃ m, content = JSON_stringify m.

(** Every key of the object is a plain name: the object then lists its
    keys in the order in which they were stored. *)
Definition plain_keys {A} (o : Obj A) : bool := forallb plain_name (obj_keys o).

(** Nothing, or one rewrite of the manifest file of [baseCacheDir]. *)
Definition rewrites_manifest `{Platform} (baseCacheDir : string) (saved : list IOEvent)
  : Prop :=
  saved = [] ∨ ∃ content, saved = [EvWrite (manifest_path baseCacheDir) content Rewrite].

(** [manifest.archivedSessions], empty when absent. *)
Definition archived (m : SessionManifest) : Obj SessionInfo :=
  default [] (archivedSessions m).


(** What an event of the journal did to the disk. *)
Definition apply_event (d : Disk) (ev : IOEvent) : Disk :=
  match ev with
  | EvWrite p content mode => write_to p content mode d
  | EvMkdir p => mkdir p d
  end.

(** The disk after the events [evs], in order. *)
Definition replay (evs : list IOEvent) (d : Disk) : Disk :=
  foldl apply_event d evs.

(** The world [w] after a handler that left the cache state [cs], logged
    [logs] and did [evs] to the disk. *)
Definition evolve (cs : CacheState) (logs : list LogEntry) (evs : list IOEvent)
  (w : World) : World :=
  {| cacheState := cs;
     disk := replay evs (disk w);
     console := console w ++ logs;
     clock := clock w;
     inflight := inflight w |}.

(** The write of a manifest to its file. *)
Definition manifest_write `{Platform} (baseCacheDir : string) (m : SessionManifest)
  : IOEvent :=
  EvWrite (manifest_path baseCacheDir) (JSON_stringify m) Rewrite.

(** The appends of [update_cache] to the four files of [dir]. *)
Definition update_events `{Platform} (dir : string) (timestamp : Z)
  (target : option string) (args : UpdateCacheArgs) : list IOEvent :=
  [EvWrite (path_join dir "conversation_log.md")
     (update_entry "Update" timestamp target (upd_conversationSummary args)) Append]
  ++ (if truthy (upd_projectUpdate args)
      then [EvWrite (path_join dir "current_project_state.md")
              (update_entry "Project Update" timestamp target
                 (or_else (upd_projectUpdate args) EmptyString)) Append]
      else [])
  ++ (if truthy (upd_decisionsUpdate args)
      then [EvWrite (path_join dir "decisions_made.md")
              (update_entry "Decision Update" timestamp target
                 (or_else (upd_decisionsUpdate args) EmptyString)) Append]
      else [])
  ++ (if truthy (upd_nextStepsUpdate args)
      then [EvWrite (path_join dir "next_steps.md")
              (update_entry "Next Steps Update" timestamp target
                 (or_else (upd_nextStepsUpdate args) EmptyString)) Append]
      else []).

(** The path that an event writes or creates. *)
Definition event_path (ev : IOEvent) : string :=
  match ev with
  | EvWrite p _ _ => p
  | EvMkdir p => p
  end.

(** [args] with the two consent flags replaced. *)
Definition with_consent (confirmCreate understoodGrowth : bool) (args : InitCacheArgs)
  : InitCacheArgs :=
  {| init_cacheDir := init_cacheDir args;
     init_projectName := init_projectName args;
     init_topic := init_topic args;
     init_confirmCreate := confirmCreate;
     init_understoodGrowth := understoodGrowth;
     init_sessionOnly := init_sessionOnly args |}.

(** The five writes of [init_cache] to the files of [dir]. *)
Definition initial_events `{Platform} (dir : string) (ctx : InitContext) : list IOEvent :=
  [EvWrite (path_join dir "conversation_log.md") (initial_content ConversationLog ctx)
     Rewrite;
   EvWrite (path_join dir "current_project_state.md") (initial_content ProjectState ctx)
     Rewrite;
   EvWrite (path_join dir "decisions_made.md") (initial_content Decisions ctx) Rewrite;
   EvWrite (path_join dir "next_steps.md") (initial_content NextSteps ctx) Rewrite;
   EvWrite (path_join dir "cache_protocol.md") (initial_content Protocol ctx) Rewrite].

(** What [init_cache] writes to the manifest file: nothing without a topic
    or when the write fails, else the loaded manifest with the record of the
    topic stored in [activeSessions]. *)
Definition init_saved `{Platform} (args : InitCacheArgs) (w : World) : list IOEvent :=
  let base := init_cacheDir args in
  match or_null (init_topic args) with
  | Some t =>
      if bool_decide (manifest_path base ∈ denied (disk w)) then []
      else [manifest_write base
              (set_active t
                 (init_entry (clock w) (default_project_name args) (init_sessionOnly args))
                 (manifest_of w base))]
  | None => []
  end.

(** The reply of a successful [init_cache]. *)
Definition init_reply `{Platform} (args : InitCacheArgs) : ServerResult :=
  Content (CacheInitialized (getCacheDirectory (init_cacheDir args) (init_topic args))
             (or_null (init_topic args)) (default_project_name args)
             (init_sessionOnly args)).

(** An event that creates a directory. *)
Definition is_mkdir (ev : IOEvent) : Prop := ∃ p, ev = EvMkdir p.

(** [a] is at least as recently used as [b]. *)
Definition most_recent_first (a b : string * SessionInfo) : Prop :=
  lastUsed b.2 ≤ lastUsed a.2.

(** The cleanup removes the topic [t]: at some index [i] of the sorted
    sessions stands [t], older than the cutoff or at a rank of [maxSessions]
    or more, and [t] is not the active topic. *)
Definition removed_by_cleanup (cutoff : option Z) (maxSessions : Z)
  (active : option string) (sorted : list (string * SessionInfo)) (t : string) : Prop :=
  ∃ i e, sorted !! i = Some (t, e) ∧
         ((∃ c, cutoff = Some c ∧ lastUsed e < c) ∨ maxSessions ≤ Z.of_nat i) ∧
         active ≠ Some t.

(** The keys that the loop of the cleanup deletes, from index [i] on. *)
Fixpoint selected_keys (cutoff : option Z) (maxSessions : Z) (active : option string)
  (i : nat) (entries : list (string * SessionInfo)) : list string :=
  match entries with
  | [] => []
  | e :: rest =>
      (if selected_for_cleanup cutoff maxSessions active i e then [e.1] else [])
      ++ selected_keys cutoff maxSessions active (S i) rest
  end.

(** A computation that, however it ends, leaves the cache state and the
    clock as they were. *)
Definition keeps_state {A} (m : M A) : Prop :=
  ∀ w, cacheState (m w).2 = cacheState w ∧ clock (m w).2 = clock w.


(** A computation that, however it ends, leaves the disk as it was. *)
Definition keeps_disk {A} (m : M A) : Prop := ∀ w, disk (m w).2 = disk w.


(** ** Runs on Node

    The worlds of the closed examples: a process started at
    2023-11-14T22:13:20.000Z on an empty disk, and what the handlers make
    of it. *)

Definition at_time (t : Z) (w : World) : World :=
  {| cacheState := cacheState w; disk := disk w; console := console w; clock := t;
     inflight := inflight w |}.

(** The path is taken out of the allowed ones: writing it fails. *)
Definition lock (p : string) (w : World) : World :=
  set_disk
    {| dirs := dirs (disk w); files := files (disk w);
       denied := {[p]} ∪ denied (disk w); unreadable := unreadable (disk w);
       journal := journal (disk w) |}
    w.

Definition demo_world : World := initialWorld 1700000000000.

Definition demo_initialised : World :=
  after (@handleInitCache NodePlatform demo_init) demo_world.

Definition demo_archived : World :=
  after (@handleArchiveCache NodePlatform demo_archive) demo_initialised.

Definition demo_reinitialised : World :=
  after (@handleInitCache NodePlatform demo_init) demo_archived.


(** After [init_cache] of "demo" the manifest file cannot be written. *)
Definition demo_locked : World := lock "/cache/session_manifest.json" demo_initialised.

(** Two topics: "a", last used forty days before "b". *)
Definition init_topic_args (t : string) : InitCacheArgs :=
  {| init_cacheDir := "/cache"; init_projectName := None;
     init_topic := Some t; init_confirmCreate := true;
     init_understoodGrowth := true; init_sessionOnly := false |}.

Definition two_topics : World :=
  after (@handleInitCache NodePlatform (init_topic_args "b"))
    (at_time (1700000000000 + 40 * 86400000)
       (after (@handleInitCache NodePlatform (init_topic_args "a")) demo_world)).

Definition demo_cleanup : CleanupCacheArgs :=
  {| clean_cacheDir := "/cache"; clean_cleanupAfterDays := 30;
     clean_maxSessions := 10; clean_confirmCleanup := true |}.

(** An update of "a" while "b" is the active topic. *)
Definition demo_update : UpdateCacheArgs :=
  {| upd_conversationSummary := "Reviewed the plan";
     upd_projectUpdate := None; upd_decisionsUpdate := Some "Keep the manifest";
     upd_nextStepsUpdate := None; upd_topic := Some "a" |}.

(** A manifest of two hundred topics: its text runs over 1000 lines. *)
Definition long_manifest : SessionManifest :=
  {| activeSessions :=
       map (λ i : nat, ("topic" +:+ pretty i,
                        init_entry 1700000000000 "Unknown Project" false))
         (seq 0 200);
     archivedSessions := None;
     manifestVersion := "2.0.0" |}.

Definition long_manifest_world : World :=
  set_disk
    {| dirs := {["/cache"]};
       files := {["/cache/session_manifest.json" := Node.stringify long_manifest]};
       denied := ∅; unreadable := ∅; journal := [] |}
    demo_world.

(** The two topics, with the auto-update of "b" enabled every three calls. *)
Definition demo_ticking : World :=
  after (handleAutoUpdateCache
           {| auto_enable := true; auto_updateInterval := 3; auto_topic := Some "b" |})
    two_topics.

(** ** The schemas of the cache tools

    [tools/schemas.ts].  The arguments of a tool call are a JSON value;
    [safeParse] of a [z.object] accepts an object whose fields have the types
    asked for, drops the other fields, and fills in the defaults; here it
    returns the parsed arguments, or [None] when it does not succeed.
    Numbers are integers, as everywhere in this development. *)

(** [z.string()], [z.boolean()], [z.number()] on the value of a field that
    is required: an absent field fails. *)
Definition z_required {A} (read : Node.json → option A) (field : option Node.json)
  : option A :=
  field ≫= read.

(** [.optional()]: an absent field is [undefined]. *)
Definition z_optional {A} (read : Node.json → option A) (field : option Node.json)
  : option (option A) :=
  match field with
  | None => Some None
  | Some v => Some <$> read v
  end.

(** [.optional().default(d)]. *)
Definition z_default {A} (read : Node.json → option A) (d : A) (field : option Node.json)
  : option A :=
  match field with
  | None => Some d
  | Some v => read v
  end.

(** [z.object({...}).safeParse(args)]: the fields of an object. *)
Definition z_object (args : Node.json) : option (Obj Node.json) :=
  match args with
  | Node.JObj fields => Some fields
  | _ => None
  end.

Definition InitCacheArgsSchema (args : Node.json) : option InitCacheArgs :=
  fs ← z_object args;
  cacheDir' ← z_default Node.as_string "C:\Claude_Session" (obj_get "cacheDir" fs);
  projectName' ← z_optional Node.as_string (obj_get "projectName" fs);
  topic ← z_optional Node.as_string (obj_get "topic" fs);
  confirmCreate ← z_default Node.as_bool false (obj_get "confirmCreate" fs);
  understoodGrowth ← z_default Node.as_bool false (obj_get "understoodGrowth" fs);
  sessionOnly' ← z_default Node.as_bool false (obj_get "sessionOnly" fs);
  Some {| init_cacheDir := cacheDir'; init_projectName := projectName';
          init_topic := topic; init_confirmCreate := confirmCreate;
          init_understoodGrowth := understoodGrowth; init_sessionOnly := sessionOnly' |}.






Definition ArchiveCacheArgsSchema (args : Node.json) : option ArchiveCacheArgs :=
  fs ← z_object args;
  topic ← z_required Node.as_string (obj_get "topic" fs);
  cacheDir' ← z_default Node.as_string "C:\Claude_Session" (obj_get "cacheDir" fs);
  confirmArchive ← z_default Node.as_bool false (obj_get "confirmArchive" fs);
  Some {| arch_topic := topic; arch_cacheDir := cacheDir';
          arch_confirmArchive := confirmArchive |}.

Definition CleanupCacheArgsSchema (args : Node.json) : option CleanupCacheArgs :=
  fs ← z_object args;
  cacheDir' ← z_default Node.as_string "C:\Claude_Session" (obj_get "cacheDir" fs);
  cleanupAfterDays ← z_default Node.as_number 30 (obj_get "cleanupAfterDays" fs);
  maxSessions ← z_default Node.as_number 10 (obj_get "maxSessions" fs);
  confirmCleanup ← z_default Node.as_bool false (obj_get "confirmCleanup" fs);
  Some {| clean_cacheDir := cacheDir'; clean_cleanupAfterDays := cleanupAfterDays;
          clean_maxSessions := maxSessions; clean_confirmCleanup := confirmCleanup |}.

(** ** The request handler of the server

    [server.ts], the handler of [CallToolRequestSchema], as far as the cache
    tools go. *)

(** What a tool call answers: the reply of the handler,
    [createErrorResponse(`Invalid arguments: ...`)] of a handler whose
    [safeParse] did not succeed, or the error response of the [catch] of the
    request handler; the last two carry [isError: true]. *)
Inductive ToolResult :=
| Handled (reply : ServerResult)
| InvalidArguments
| RequestFailed (error : string).

Section Server.
Context `{Platform}.

(** The tools whose handlers are not among the sources, and the [default]
    of the [switch]. *)
Variable other_tools : string → Node.json → M ToolResult.

(** [capture] and [capture_call_tool] of [utils/capture.js] and
    [trackToolCall] of [utils/trackTools.js], which are not among the
    sources either: what a call of each does, with the event and the name
    or message that the request handler passes. *)
Variable capture : string → string → M unit.
Variable capture_call_tool : string → string → M unit.
Variable trackToolCall : string → Node.json → M unit.

(** The head of each handler: [const parsed = Schema.safeParse(args);
    if (!parsed.success) return createErrorResponse(...)]. *)
Definition with_schema {A} (schema : Node.json → option A)
  (handler : A → M ServerResult) (args : Node.json) : M ToolResult :=
  match schema args with
  | Some parsed => let* reply := handler parsed in ret (Handled reply)
  | None => ret InvalidArguments
  end.



End Server.
(** ** Vocabulary of the further properties *)

(** The file that a section of the reply of [load_cache] is about. *)
Definition section_file (s : LoadedSection) : string :=
  match s with
  | SectionLoaded f _ | SectionNotFound f | SectionLoadError f _ => f
  end.

(** The four files that [load_cache] reads, in its order. *)
Definition loaded_files : list string :=
  ["conversation_log.md"; "current_project_state.md"; "decisions_made.md";
   "next_steps.md"].

(** What one turn of the loop of [load_cache] makes of a file of the disk. *)
Definition read_section `{Platform} (d : Disk) (dir file : string) : LoadedSection :=
  let p := path_join dir file in
  if bool_decide (p ∈ unreadable d) then SectionLoadError file ("EACCES: " +:+ p)
  else match files d !! p with
       | Some content =>
           match lines_window 0 2000 content with
           | String c s => SectionLoaded file (String c s)
           | EmptyString => SectionNotFound file
           end
       | None => SectionLoadError file ("ENOENT: " +:+ p)
       end.



(** The five files of a cache directory, in the order [init_cache] writes
    them, and their paths. *)
Definition cache_files : list CacheFile :=
  [ConversationLog; ProjectState; Decisions; NextSteps; Protocol].

Definition cache_paths `{Platform} (dir : string) : list string :=
  map (λ f, path_join dir (file_name f)) cache_files.

(** From [d] to [d'] no directory changed, and every file of [d] other than
    [except] is still there, with what it held followed by what was
    added. *)
Definition extends_files (except : string) (d d' : Disk) : Prop :=
  dirs d' = dirs d ∧
  ∀ p old, p ≠ except → files d !! p = Some old →
           ∃ added, files d' !! p = Some (old +:+ added).

(** A computation that only appends to the files other than [except]. *)
Definition appends_only {A} (except : string) (m : M A) : Prop :=
  ∀ w, extends_files except (disk w) (disk (m w).2).

(** What the manifest block of [update_cache] writes in the world [w]:
    nothing without a target, for a target that is not in [activeSessions],
    or when the write fails; else the loaded manifest with [lastUsed] of the
    target set. *)
Definition update_saved `{Platform} (baseCacheDir : string) (target : option string)
  (timestamp : Z) (w : World) : list IOEvent :=
  match or_null target with
  | Some t =>
      match obj_get t (activeSessions (manifest_of w baseCacheDir)) with
      | Some info =>
          if bool_decide (manifest_path baseCacheDir ∈ denied (disk w)) then []
          else [manifest_write baseCacheDir
                  (set_active t (touch timestamp info) (manifest_of w baseCacheDir))]
      | None => []
      end
  | None => []
  end.

(** The manifest that [cleanup_cache] hands to its save: the loaded one
    without the sessions that the loop selected. *)
Definition cleaned_manifest (cutoff : option Z) (maxSessions : Z)
  (active : option string) (m : SessionManifest) : SessionManifest :=
  foldl (λ m k, delete_active k m) m
    (selected_keys cutoff maxSessions active 0 (sort_sessions (activeSessions m))).



(** The two topics after an update of "a", and the manifest of a run that
    archived "demo" and initialized it again. *)
Definition two_topics_updated : World :=
  after (@handleUpdateCache NodePlatform demo_update) two_topics.

Definition demo_manifest : SessionManifest :=
  @manifest_of NodePlatform demo_reinitialised "/cache".

(** An empty disk on which the conversation log of "demo" cannot be
    written. *)
Definition demo_log_locked : World := lock "/cache/demo/conversation_log.md" demo_world.

(** The call of the file tools that an event of the journal records. *)
Definition perform_event (ev : IOEvent) : M unit :=
  match ev with
  | EvWrite p content mode => writeFile p content mode
  | EvMkdir p => createDirectory p
  end.

(** The calls that [evs] record, each awaited before the next. *)
Fixpoint perform (evs : list IOEvent) : M unit :=
  match evs with
  | [] => ret tt
  | [ev] => perform_event ev
  | ev :: rest => perform_event ev;; perform rest
  end.

(** [cs] with the count of tool calls set to [n]. *)
Definition with_count (n : Z) (cs : CacheState) : CacheState :=
  {| isInitialized := isInitialized cs;
     cacheDir := cacheDir cs;
     currentTopic := currentTopic cs;
     autoUpdateEnabled := autoUpdateEnabled cs;
     toolCallCount := n;
     updateInterval := updateInterval cs;
     lastUpdate := lastUpdate cs;
     activeTopic := activeTopic cs;
     hasCreatePermission := hasCreatePermission cs;
     permissionGrantedAt := permissionGrantedAt cs;
     topicAutoUpdateSettings := topicAutoUpdateSettings cs |}.

(** The topic, if there is one, has a plain name. *)
Definition plain_topic (topic : option string) : bool :=
  match or_null topic with
  | Some t => plain_name t
  | None => true
  end.




(** ** Sequences of operations

    The operations of the cache as the steps of a run: the eight handlers,
    the counter of tool calls, the completion of the oldest update in
    flight, and what the environment does between two operations -- time
    passes, a path becomes read-only, the process is started again on the
    same disk. *)












(** * Proofs *)

(** ** Running the monad *)

Lemma bind_run {A B} (m : M A) (k : A → M B) w a w1 :
  m w = (Ret a, w1) → bind m k w = k a w1.
Proof. intros E. unfold bind. by rewrite E. Qed.

Lemma bind_throw {A B} (m : M A) (k : A → M B) w e w1 :
  m w = (Throw e, w1) → bind m k w = (Throw e, w1).
Proof. intros E. unfold bind. by rewrite E. Qed.

Lemma bind_inv {A B} (m : M A) (k : A → M B) w b w' :
  bind m k w = (Ret b, w') → ∃ a w1, m w = (Ret a, w1) ∧ k a w1 = (Ret b, w').
Proof.
  unfold bind. destruct (m w) as [[a|e] w1]; [eauto | discriminate].
Qed.

Lemma try_catch_run {A} (m : M A) h w a w1 :
  m w = (Ret a, w1) → try_catch m h w = (Ret a, w1).
Proof. intros E. unfold try_catch. by rewrite E. Qed.

Lemma try_catch_throw {A} (m : M A) h w e w1 :
  m w = (Throw e, w1) → try_catch m h w = h e w1.
Proof. intros E. unfold try_catch. by rewrite E. Qed.

(** A handler whose [catch] answers with an error response succeeds only
    when its body does. *)
Lemma try_catch_succeeds (m : M ServerResult) (err : string → ErrorText) w :
  succeeds (try_catch m (λ e, ret (ErrorResponse (err e))) w) →
  ∃ t w1, m w = (Ret (Content t), w1).
Proof.
  unfold succeeds, try_catch. destruct (m w) as [[[t|e]|e] w1]; simpl; try tauto.
  eauto.
Qed.

Lemma bind_get_state {B} (k : CacheState → M B) w :
  bind get_state k w = k (cacheState w) w.
Proof. reflexivity. Qed.

Lemma bind_existsSync {B} p (k : bool → M B) w :
  bind (existsSync p) k w = k (exists_on (disk w) p) w.
Proof. reflexivity. Qed.

Lemma bind_now {B} (k : Z → M B) w : bind now k w = k (clock w) w.
Proof. reflexivity. Qed.

Lemma bind_ret {A B} (a : A) (k : A → M B) w : bind (ret a) k w = k a w.
Proof. reflexivity. Qed.

Lemma bind_put_state {B} cs (k : unit → M B) w :
  bind (put_state cs) k w = k tt (set_cacheState cs w).
Proof. reflexivity. Qed.

Ltac step :=
  first [ rewrite bind_get_state | rewrite bind_existsSync | rewrite bind_now
        | rewrite bind_ret | rewrite bind_put_state ];
  cbv zeta.

Ltac step_in H :=
  first [ rewrite bind_get_state in H | rewrite bind_existsSync in H
        | rewrite bind_now in H | rewrite bind_ret in H
        | rewrite bind_put_state in H ];
  cbv zeta in H.

(** ** Worlds *)

Lemma evolve_id w : evolve (cacheState w) [] [] w = w.
Proof. destruct w as [cs d l c j]. unfold evolve. simpl. by rewrite app_nil_r. Qed.

Lemma evolve_evolve cs1 l1 e1 cs2 l2 e2 w :
  evolve cs2 l2 e2 (evolve cs1 l1 e1 w) = evolve cs2 (l1 ++ l2) (e1 ++ e2) w.
Proof.
  unfold evolve, replay. simpl. by rewrite foldl_app, app_assoc.
Qed.

Lemma replay_app evs1 evs2 d : replay (evs1 ++ evs2) d = replay evs2 (replay evs1 d).
Proof. unfold replay. apply foldl_app. Qed.

Lemma replay_journal evs d : journal (replay evs d) = journal d ++ evs.
Proof.
  revert d. induction evs as [|ev evs IH]; intros d; simpl.
  - by rewrite app_nil_r.
  - unfold replay in *. simpl. rewrite IH. destruct ev; simpl; by rewrite <- app_assoc.
Qed.

Lemma replay_denied evs d : denied (replay evs d) = denied d.
Proof.
  revert d. induction evs as [|ev evs IH]; intros d; [done|].
  unfold replay in *. simpl. rewrite IH. by destruct ev.
Qed.

Lemma replay_unreadable evs d : unreadable (replay evs d) = unreadable d.
Proof.
  revert d. induction evs as [|ev evs IH]; intros d; [done|].
  unfold replay in *. simpl. rewrite IH. by destruct ev.
Qed.

Lemma set_disk_evolve ev w :
  set_disk (apply_event (disk w) ev) w = evolve (cacheState w) [] [ev] w.
Proof. unfold set_disk, evolve. simpl. by rewrite app_nil_r. Qed.

Lemma add_log_evolve l w : add_log l w = evolve (cacheState w) [l] [] w.
Proof. destruct w as [cs [] ? ? ?]. reflexivity. Qed.

Lemma set_cacheState_evolve cs w : set_cacheState cs w = evolve cs [] [] w.
Proof. destruct w as [? [] ? ? ?]. unfold set_cacheState, evolve. simpl. by rewrite app_nil_r. Qed.

(** ** The file tools *)

Lemma writeFile_ok p c mode w :
  p ∉ denied (disk w) →
  writeFile p c mode w = (Ret tt, evolve (cacheState w) [] [EvWrite p c mode] w).
Proof.
  intros Hp. unfold writeFile. rewrite bool_decide_eq_false_2 by done.
  by rewrite <- set_disk_evolve.
Qed.

Lemma writeFile_denied p c mode w :
  p ∈ denied (disk w) → writeFile p c mode w = (Throw ("EACCES: " +:+ p), w).
Proof. intros Hp. unfold writeFile. by rewrite bool_decide_eq_true_2. Qed.

Lemma writeFile_inv p c mode w a w1 :
  writeFile p c mode w = (Ret a, w1) →
  (p ∉ denied (disk w)) ∧ w1 = evolve (cacheState w) [] [EvWrite p c mode] w.
Proof.
  unfold writeFile. case_bool_decide; [discriminate|]. intros [= _ <-].
  by rewrite <- set_disk_evolve.
Qed.

Lemma createDirectory_ok p w :
  p ∉ denied (disk w) →
  createDirectory p w = (Ret tt, evolve (cacheState w) [] [EvMkdir p] w).
Proof.
  intros Hp. unfold createDirectory. rewrite bool_decide_eq_false_2 by done.
  by rewrite <- set_disk_evolve.
Qed.

Lemma createDirectory_denied p w :
  p ∈ denied (disk w) → createDirectory p w = (Throw ("EACCES: " +:+ p), w).
Proof. intros Hp. unfold createDirectory. by rewrite bool_decide_eq_true_2. Qed.

(** ** Objects *)

Section Objects.
Context {V : Type}.
Implicit Types (o : Obj V) (k t : string) (v : V).


Lemma has_key_obj_delete t k o : has_key t (obj_delete k o) ↔ t ≠ k ∧ has_key t o.
Proof.
  unfold has_key, obj_keys. induction o as [|[k' v'] o IH]; simpl.
  - intuition.
  - destruct (String.eqb_spec k k') as [->|Hne]; simpl; rewrite IH;
      intuition congruence.
Qed.

Lemma obj_get_None k o : obj_get k o = None ↔ ¬ has_key k o.
Proof.
  unfold has_key, obj_keys. induction o as [|[k' v'] o IH]; simpl.
  - intuition.
  - destruct (String.eqb_spec k k') as [->|Hne]; [|rewrite IH];
      intuition congruence.
Qed.

Lemma obj_get_Some k o v : obj_get k o = Some v → has_key k o.
Proof.
  unfold has_key, obj_keys. induction o as [|[k' v'] o IH]; simpl; [done|].
  destruct (String.eqb_spec k k') as [->|Hne]; auto.
Qed.

Lemma obj_get_set_eq k v o : obj_get k (obj_set k v o) = Some v.
Proof.
  induction o as [|[k' v'] o IH]; simpl.
  - by rewrite String.eqb_refl.
  - destruct (String.eqb_spec k k') as [->|Hne]; simpl.
    + by rewrite String.eqb_refl.
    + by rewrite (proj2 (String.eqb_neq k k') Hne).
Qed.

Lemma obj_get_set_ne t k v o : t ≠ k → obj_get t (obj_set k v o) = obj_get t o.
Proof.
  intros Hne. induction o as [|[k' v'] o IH]; simpl.
  - by rewrite (proj2 (String.eqb_neq t k) Hne).
  - destruct (String.eqb_spec k k') as [->|Hk]; simpl.
    + by rewrite (proj2 (String.eqb_neq t k') Hne).
    + by rewrite IH.
Qed.

Lemma obj_get_delete_eq k o : obj_get k (obj_delete k o) = None.
Proof. apply obj_get_None. rewrite has_key_obj_delete. tauto. Qed.

Lemma obj_get_delete_ne t k o : t ≠ k → obj_get t (obj_delete k o) = obj_get t o.
Proof.
  intros Hne. induction o as [|[k' v'] o IH]; simpl; [done|].
  destruct (String.eqb_spec k k') as [->|Hk]; simpl.
  - by rewrite (proj2 (String.eqb_neq t k') Hne).
  - by rewrite IH.
Qed.

End Objects.

Section Proofs.
Context `{Platform}.

Lemma saveSessionManifest_run base m w :
  saveSessionManifest base m w =
  (Ret tt,
   if bool_decide (manifest_path base ∈ denied (disk w))
   then evolve (cacheState w) [WarnSaveManifest ("EACCES: " +:+ manifest_path base)] [] w
   else evolve (cacheState w) [] [manifest_write base m] w).
Proof.
  unfold saveSessionManifest, try_catch, log.
  case_bool_decide as Hd.
  - rewrite writeFile_denied by done. by rewrite add_log_evolve.
  - by rewrite writeFile_ok.
Qed.

Lemma loadSessionManifest_run base w :
  ∃ logs, loadSessionManifest base w =
          (Ret (manifest_of w base), evolve (cacheState w) logs [] w).
Proof.
  unfold manifest_of.
  unfold loadSessionManifest, bind, try_catch, existsSync, readFileInternal, ret, throw, log.
  simpl.
  repeat (case_match; simpl in *; simplify_eq);
    first [ by exists []; rewrite evolve_id
          | by exists [WarnLoadManifest]; rewrite add_log_evolve ].
Qed.

(** What a load sees, from the disk. *)
Lemma manifest_of_eq w base :
  manifest_of w base =
  let p := manifest_path base in
  if bool_decide (p ∈ unreadable (disk w)) then defaultManifest
  else match files (disk w) !! p with
       | Some content =>
           default defaultManifest (JSON_parse (lines_window 0 1000 content))
       | None => defaultManifest
       end.
Proof.
  unfold manifest_of.
  unfold loadSessionManifest, bind, try_catch, existsSync, readFileInternal, ret, throw, log.
  unfold exists_on. simpl.
  destruct (files (disk w) !! manifest_path base) as [c|] eqn:Ef.
  - rewrite (bool_decide_eq_true_2 (is_Some (Some c))) by eauto.
    rewrite orb_true_r. simpl. case_bool_decide; [done|].
    rewrite Ef. by destruct (JSON_parse _).
  - rewrite (bool_decide_eq_false_2 (is_Some None)) by (by intros [? ?]).
    rewrite orb_false_r.
    destruct (bool_decide (_ ∈ dirs _)); simpl; [|by case_bool_decide].
    case_bool_decide; [done|]. by rewrite Ef.
Qed.

Lemma manifest_of_disk w w' base :
  disk w' = disk w → manifest_of w' base = manifest_of w base.
Proof. intros Hd. by rewrite !manifest_of_eq, Hd. Qed.

Lemma append_optional_inv dir file heading ts target text w a w1 :
  append_optional dir file heading ts target text w = (Ret a, w1) →
  w1 = evolve (cacheState w) []
         (if truthy text
          then [EvWrite (path_join dir file)
                  (update_entry heading ts target (or_else text EmptyString)) Append]
          else []) w.
Proof.
  unfold append_optional. destruct (truthy text).
  - by intros [_ ->]%writeFile_inv.
  - intros [= _ <-]. by rewrite evolve_id.
Qed.

Lemma append_updates_inv dir ts target args w a w1 :
  append_updates dir ts target args w = (Ret a, w1) →
  w1 = evolve (cacheState w) [] (update_events dir ts target args) w.
Proof.
  unfold append_updates, update_events.
  intros ([] & w2 & [_ ->]%writeFile_inv & E)%bind_inv.
  apply bind_inv in E as ([] & w3 & ->%append_optional_inv & E).
  apply bind_inv in E as ([] & w4 & ->%append_optional_inv & ->%append_optional_inv).
  simpl. by rewrite !evolve_evolve.
Qed.

Lemma denied_evolve cs logs evs w :
  denied (disk (evolve cs logs evs w)) = denied (disk w).
Proof. apply replay_denied. Qed.

Lemma unreadable_evolve cs logs evs w :
  unreadable (disk (evolve cs logs evs w)) = unreadable (disk w).
Proof. apply replay_unreadable. Qed.

Lemma append_updates_ok dir ts target args w :
  (∀ ev, ev ∈ update_events dir ts target args → event_path ev ∉ denied (disk w)) →
  append_updates dir ts target args w =
    (Ret tt, evolve (cacheState w) [] (update_events dir ts target args) w).
Proof.
  unfold append_updates, update_events, append_optional. intros Hw.
  assert (Hp : ∀ p c, EvWrite p c Append ∈ update_events dir ts target args →
                      p ∉ denied (disk w)) by (intros p c Hin; apply (Hw _ Hin)).
  clear Hw. unfold update_events in Hp.
  destruct (truthy (upd_projectUpdate args)).
  all: destruct (truthy (upd_decisionsUpdate args)).
  all: destruct (truthy (upd_nextStepsUpdate args)).
  all: cbn [app] in *.
  all: repeat first
         [ rewrite bind_ret
         | erewrite bind_run;
           [|apply writeFile_ok; rewrite ?denied_evolve; eapply Hp;
             repeat first [apply list_elem_of_here | apply list_elem_of_further]] ].
  all: first [ rewrite writeFile_ok
                 by (rewrite ?denied_evolve; eapply Hp;
                     repeat first [apply list_elem_of_here | apply list_elem_of_further])
             | unfold ret ].
  all: by rewrite ?evolve_evolve.
Qed.

Lemma touch_manifest_run base target ts w :
  ∃ logs saved,
    touch_manifest base target ts w = (Ret tt, evolve (cacheState w) logs saved w) ∧
    (saved = [] ∨
     ∃ t info, or_null target = Some t ∧
               obj_get t (activeSessions (manifest_of w base)) = Some info ∧
               saved = [manifest_write base
                          (set_active t (touch ts info) (manifest_of w base))]).
Proof.
  unfold touch_manifest. destruct (or_null target) as [t|] eqn:Ht.
  - destruct (loadSessionManifest_run base w) as [logs E].
    unfold try_catch. rewrite (bind_run _ _ _ _ _ E).
    destruct (obj_get t _) as [info|] eqn:Hg.
    + rewrite saveSessionManifest_run. simpl. case_bool_decide.
      * eexists _, []. rewrite evolve_evolve. split; [reflexivity|by left].
      * eexists _, _. rewrite evolve_evolve. split; [reflexivity|]. right.
        exists t, info. rewrite app_nil_l. done.
    + exists logs, []. split; [reflexivity|by left].
  - exists [], []. unfold ret. rewrite evolve_id. split; [done|by left].
Qed.


Lemma append_updates_cacheState dir ts target args w :
  cacheState (append_updates dir ts target args w).2 = cacheState w.
Proof.
  unfold append_updates, append_optional, bind, writeFile, ret.
  repeat (case_match; simplify_eq/=; try done).
Qed.

(** [handleUpdateCache], awaited, with its two halves in one sequence. *)
Lemma handleUpdateCache_unfold args w :
  handleUpdateCache args w =
  try_catch
    (let* cs := get_state in
     let targetTopic := resolve_target (upd_topic args) cs in
     let targetCacheDir := getCacheDirectory (cacheDir cs) targetTopic in
     if negb (isInitialized cs)
     then ret (ErrorResponse (CacheNotInitialized (or_null targetTopic)))
     else
       let* present := existsSync targetCacheDir in
       if negb present
       then ret (ErrorResponse (CacheDirectoryNotFound targetCacheDir (or_null targetTopic)))
       else
         let* timestamp := now in
         append_updates targetCacheDir timestamp targetTopic args;;
         touch_manifest (cacheDir cs) targetTopic timestamp;;
         let* cs' := get_state in
         let* today := now in
         put_state (state_after_update cs' today targetTopic);;
         ret (Content (CacheUpdated timestamp (or_null targetTopic) targetCacheDir
                         (truthy (upd_projectUpdate args))
                         (truthy (upd_decisionsUpdate args))
                         (truthy (upd_nextStepsUpdate args))
                         (autoUpdateEnabled cs'))))
    (λ error, ret (ErrorResponse (UpdateFailed error))) w.
Proof.
  unfold handleUpdateCache, update_begin, update_finish, try_catch.
  cbv beta zeta.
  unfold bind at 1 2. unfold get_state at 1. cbv beta iota.
  rewrite bind_get_state. cbv zeta.
  destruct (isInitialized (cacheState w)); cbn [negb]; [|reflexivity].
  unfold bind at 1 2. unfold existsSync at 1. cbv beta iota.
  rewrite bind_existsSync.
  destruct (exists_on _ _); cbn [negb]; [|reflexivity].
  unfold bind at 1. unfold now at 1, ret at 1. cbv beta iota.
  rewrite bind_now.
  cbn [job_args job_target job_dir job_timestamp].
  pose proof (append_updates_cacheState
                (getCacheDirectory (cacheDir (cacheState w))
                   (resolve_target (upd_topic args) (cacheState w)))
                (clock w) (resolve_target (upd_topic args) (cacheState w)) args w) as Hc.
  unfold bind, get_state.
  destruct (append_updates _ _ _ _ w) as [[[]|e] w1]; cbn [snd] in Hc; [|done].
  cbv beta iota. rewrite Hc. reflexivity.
Qed.

Lemma handleUpdateCache_success args w :
  succeeds (handleUpdateCache args w) →
  let cs := cacheState w in
  let target := resolve_target (upd_topic args) cs in
  let dir := getCacheDirectory (cacheDir cs) target in
  isInitialized cs = true ∧ exists_on (disk w) dir = true ∧
  ∃ logs saved,
    handleUpdateCache args w =
      (Ret (Content (CacheUpdated (clock w) (or_null target) dir
                       (truthy (upd_projectUpdate args))
                       (truthy (upd_decisionsUpdate args))
                       (truthy (upd_nextStepsUpdate args))
                       (autoUpdateEnabled cs))),
       evolve (state_after_update cs (clock w) target) logs
         (update_events dir (clock w) target args ++ saved) w) ∧
    (saved = [] ∨
     ∃ t info, or_null target = Some t ∧
       obj_get t (activeSessions
                    (manifest_of (evolve cs [] (update_events dir (clock w) target args) w)
                       (cacheDir cs))) = Some info ∧
       saved = [manifest_write (cacheDir cs)
                  (set_active t (touch (clock w) info)
                     (manifest_of (evolve cs [] (update_events dir (clock w) target args) w)
                        (cacheDir cs)))]).
Proof.
  intros Hs cs target dir. rewrite handleUpdateCache_unfold in Hs.
  apply try_catch_succeeds in Hs as (t & w1 & Hb).
  assert (Hr : handleUpdateCache args w = (Ret (Content t), w1))
    by (rewrite handleUpdateCache_unfold; apply try_catch_run, Hb).
  rewrite Hr. clear Hr.
  step_in Hb. fold cs target dir in Hb.
  destruct (isInitialized cs); [|discriminate]. cbn [negb] in Hb.
  step_in Hb.
  destruct (exists_on (disk w) dir); [|discriminate]. cbn [negb] in Hb.
  step_in Hb.
  apply bind_inv in Hb as ([] & w2 & ->%append_updates_inv & Hb).
  fold cs in Hb.
  destruct (touch_manifest_run (cacheDir cs) target (clock w)
              (evolve cs [] (update_events dir (clock w) target args) w))
    as (logs & saved & Ht & Hsaved).
  rewrite (bind_run _ _ _ _ _ Ht) in Hb.
  do 3 step_in Hb.
  injection Hb as <- <-.
  do 2 (split; [done|]). exists logs, saved. split; [|done].
  rewrite !evolve_evolve, set_cacheState_evolve, evolve_evolve.
  by rewrite !app_nil_r.
Qed.


Lemma or_null_truthy o : truthy o = true → or_null o = o.
Proof. unfold or_null. by intros ->. Qed.

Lemma or_null_falsy o : truthy o = false → or_null o = None.
Proof. unfold or_null. by intros ->. Qed.

Lemma truthy_or_null o : truthy (or_null o) = truthy o.
Proof. unfold or_null. by destruct (truthy o) eqn:E. Qed.

Lemma or_null_Some o t : or_null o = Some t → o = Some t ∧ truthy o = true.
Proof. unfold or_null. destruct (truthy o) eqn:E; [|done]. by intros ->. Qed.

Lemma replay_files_other evs d p :
  (∀ ev, ev ∈ evs → event_path ev ≠ p) → files (replay evs d) !! p = files d !! p.
Proof.
  revert d. induction evs as [|ev evs IH]; intros d Hne; [done|].
  unfold replay in *. simpl. rewrite IH.
  - assert (Hq : event_path ev ≠ p) by (apply Hne; left).
    destruct ev as [q c []|q]; simpl in *; try done; by rewrite lookup_insert_ne.
  - intros ev' Hin. apply Hne. by right.
Qed.

Lemma replay_dirs_writes evs d :
  (∀ ev, ev ∈ evs → ∃ p c m, ev = EvWrite p c m) → dirs (replay evs d) = dirs d.
Proof.
  revert d. induction evs as [|ev evs IH]; intros d Hw; [done|].
  unfold replay in *. simpl. rewrite IH.
  - destruct (Hw ev) as (p & c & m & ->); [left|]. done.
  - intros ev' Hin. apply Hw. by right.
Qed.

Lemma handleUpdateCache_ok args w :
  let cs := cacheState w in
  let target := resolve_target (upd_topic args) cs in
  let dir := getCacheDirectory (cacheDir cs) target in
  isInitialized cs = true → exists_on (disk w) dir = true →
  (∀ ev, ev ∈ update_events dir (clock w) target args →
         event_path ev ∉ denied (disk w)) →
  succeeds (handleUpdateCache args w).
Proof.
  intros cs target dir Hi He Hw. unfold succeeds. rewrite handleUpdateCache_unfold. unfold try_catch. step.
  fold cs target dir. rewrite Hi. cbn [negb]. step. rewrite He. cbn [negb]. step.
  rewrite (bind_run _ _ _ _ _ (append_updates_ok _ _ _ _ _ Hw)).
  destruct (touch_manifest_run (cacheDir cs) target (clock w)
              (evolve (cacheState w) [] (update_events dir (clock w) target args) w))
    as (logs & saved & Ht & _).
  rewrite (bind_run _ _ _ _ _ Ht). by do 3 step.
Qed.

(** Claim C5: [update_cache] resolves its target as the explicit (truthy)
    topic, else the active topic, else the base directory; it answers
    [CacheNotInitialized] when the cache is not initialized and
    [CacheDirectoryNotFound] when the resolved directory is missing, the
    world being left as it was; when it succeeds the journal grows by one
    append to the conversation log -- the section made of two line feeds,
    the heading "## Update: " with the timestamp of the call and the topic,
    the summary, and two line feeds -- and by one append of such a section
    to each of the three other files exactly when its update is a non-empty
    string, followed at most by the write of the manifest; and it succeeds
    whenever those files can be written. *)
Theorem update_contract (args : UpdateCacheArgs) (w : World) :
  let cs := cacheState w in
  let target := resolve_target (upd_topic args) cs in
  let dir := getCacheDirectory (cacheDir cs) target in
  let nl := String "010"%char EmptyString in
  let section (heading text : string) :=
    nl +:+ nl +:+ "## " +:+ heading +:+ ": " +:+ toISOString (clock w) +:+
    match or_null target with
    | Some t => " (Topic: " +:+ t +:+ ")"
    | None => EmptyString
    end +:+ nl +:+ text +:+ nl +:+ nl in
  let optional (file heading : string) (text : option string) :=
    match text with
    | Some (String c r) =>
        [EvWrite (path_join dir file) (section heading (String c r)) Append]
    | _ => []
    end in
  let appended :=
    [EvWrite (path_join dir "conversation_log.md")
       (section "Update" (upd_conversationSummary args)) Append]
    ++ optional "current_project_state.md" "Project Update" (upd_projectUpdate args)
    ++ optional "decisions_made.md" "Decision Update" (upd_decisionsUpdate args)
    ++ optional "next_steps.md" "Next Steps Update" (upd_nextStepsUpdate args) in
  or_null target =
    (if truthy (upd_topic args) then upd_topic args else or_null (activeTopic cs)) ∧
  dir = match or_null target with
        | Some t => path_join (cacheDir cs) t
        | None => cacheDir cs
        end ∧
  (isInitialized cs = false →
     handleUpdateCache args w =
       (Ret (ErrorResponse (CacheNotInitialized (or_null target))), w)) ∧
  (isInitialized cs = true → exists_on (disk w) dir = false →
     handleUpdateCache args w =
       (Ret (ErrorResponse (CacheDirectoryNotFound dir (or_null target))), w)) ∧
  (succeeds (handleUpdateCache args w) →
     ∃ saved,
       journal (disk (after (handleUpdateCache args) w)) =
         journal (disk w) ++ appended ++ saved ∧
       rewrites_manifest (cacheDir cs) saved) ∧
  (isInitialized cs = true → exists_on (disk w) dir = true →
     (∀ ev, ev ∈ appended → event_path ev ∉ denied (disk w)) →
     succeeds (handleUpdateCache args w)).
Proof.
  intros cs target dir nl section optional appended.
  assert (Happ : update_events dir (clock w) target args = appended).
  { unfold update_events, appended, optional, section, update_entry.
    destruct (upd_projectUpdate args) as [[|? ?]|],
             (upd_decisionsUpdate args) as [[|? ?]|],
             (upd_nextStepsUpdate args) as [[|? ?]|]; reflexivity. }
  rewrite <- Happ. clear Happ. repeat split.
  - unfold target, resolve_target.
    destruct (truthy (upd_topic args)) eqn:Et; simpl.
    + by apply or_null_truthy.
    + destruct (truthy (activeTopic cs)) eqn:Ea; [done|].
      by rewrite (or_null_falsy _ Et), (or_null_falsy _ Ea).
  - unfold dir, getCacheDirectory, or_null.
    destruct target as [[|c r]|]; reflexivity.
  - intros Hi. rewrite handleUpdateCache_unfold. unfold try_catch. step. fold cs.
    by rewrite Hi.
  - intros Hi He. rewrite handleUpdateCache_unfold. unfold try_catch. step.
    fold cs target dir.
    rewrite Hi. cbn [negb]. step. by rewrite He.
  - intros Hs. destruct (handleUpdateCache_success _ _ Hs) as (_ & _ & logs & saved & E & Hsaved).
    fold cs target dir in E, Hsaved. exists saved. split.
    + unfold after. rewrite E. unfold evolve. cbn [snd disk]. apply replay_journal.
    + destruct Hsaved as [Hn|(t & info & _ & _ & Hn)]; [by left|right; eexists; exact Hn].
  - by apply handleUpdateCache_ok.
Qed.

(** Claim C9: after a successful [update_cache] whose resolved target is
    the topic [t], [activeTopic] is [t] -- so an update with an explicit
    topic switches the session: the operations that default their topic, and
    the auto-update trigger, then work on [t]; with no target the active
    topic stays; and but for [activeTopic] and [lastUpdate] no field of
    [cacheState] changes. *)
Theorem update_switches_active_topic (args : UpdateCacheArgs) (w : World) :
  succeeds (handleUpdateCache args w) →
  let cs := cacheState w in
  let cs' := cacheState (after (handleUpdateCache args) w) in
  let target := or_null (resolve_target (upd_topic args) cs) in
  (∀ t, target = Some t →
        activeTopic cs' = Some t ∧
        or_null (resolve_target None cs') = Some t ∧
        should_auto_update (counted cs') = topic_setting cs t ∧
        ∀ today, upd_topic (auto_update_args (counted cs') today) = Some t) ∧
  (target = None → activeTopic cs' = activeTopic cs) ∧
  lastUpdate cs' = Some (clock w) ∧
  isInitialized cs' = isInitialized cs ∧
  cacheDir cs' = cacheDir cs ∧
  currentTopic cs' = currentTopic cs ∧
  autoUpdateEnabled cs' = autoUpdateEnabled cs ∧
  toolCallCount cs' = toolCallCount cs ∧
  updateInterval cs' = updateInterval cs ∧
  hasCreatePermission cs' = hasCreatePermission cs ∧
  permissionGrantedAt cs' = permissionGrantedAt cs ∧
  topicAutoUpdateSettings cs' = topicAutoUpdateSettings cs.
Proof.
  intros Hs cs cs' target.
  destruct (handleUpdateCache_success _ _ Hs) as (_ & _ & logs & saved & E & _).
  assert (Hcs : cs' = state_after_update cs (clock w) (resolve_target (upd_topic args) cs)).
  { unfold cs', after. rewrite E. reflexivity. }
  clearbody cs'. subst cs'. unfold target. clear E Hs.
  split; [|split].
  - intros t [Ht Hy]%or_null_Some. rewrite Ht in *.
    destruct t as [|c r]; [discriminate|].
    split; [reflexivity|]. split; [reflexivity|]. split; [reflexivity|].
    intros today. reflexivity.
  - intros Hn. cbn. unfold or_null in Hn.
    destruct (truthy _) eqn:Et; [|done]. rewrite Hn in Et. discriminate.
  - repeat split.
Qed.

(** Claim C7: [getCacheDirectory] returns the base directory when no topic
    (or the empty topic) is given, and [path.join(base, t)] for a non-empty
    topic [t]; it is a function of its arguments alone, outside the monad of
    the handlers: no disk, no state, no raise. *)
Theorem getCacheDirectory_contract (baseCacheDir : string) :
  getCacheDirectory baseCacheDir None = baseCacheDir ∧
  getCacheDirectory baseCacheDir (Some EmptyString) = baseCacheDir ∧
  ∀ c r, getCacheDirectory baseCacheDir (Some (String c r)) =
         path_join baseCacheDir (String c r).
Proof. repeat split. Qed.


(** The events of the five writes of [init_cache]. *)
Lemma write_initial_files_inv dir ctx w a w1 :
  write_initial_files dir ctx w = (Ret a, w1) →
  w1 = evolve (cacheState w) [] (initial_events dir ctx) w.
Proof.
  unfold write_initial_files, initial_events.
  intros ([] & w2 & [_ ->]%writeFile_inv & E)%bind_inv.
  apply bind_inv in E as ([] & w3 & [_ ->]%writeFile_inv & E).
  apply bind_inv in E as ([] & w4 & [_ ->]%writeFile_inv & E).
  apply bind_inv in E as ([] & w5 & [_ ->]%writeFile_inv & [_ ->]%writeFile_inv).
  by rewrite !evolve_evolve.
Qed.

Lemma write_initial_files_ok dir ctx w :
  (∀ ev, ev ∈ initial_events dir ctx → event_path ev ∉ denied (disk w)) →
  write_initial_files dir ctx w =
    (Ret tt, evolve (cacheState w) [] (initial_events dir ctx) w).
Proof.
  unfold write_initial_files, initial_events. intros Hw.
  assert (Hp : ∀ p c, EvWrite p c Rewrite ∈ initial_events dir ctx →
                      p ∉ denied (disk w)) by (intros p c Hin; apply (Hw _ Hin)).
  clear Hw. unfold initial_events in Hp.
  repeat (erewrite bind_run;
          [|apply writeFile_ok; rewrite ?denied_evolve; eapply Hp;
            repeat first [apply list_elem_of_here | apply list_elem_of_further]]).
  rewrite writeFile_ok
    by (rewrite ?denied_evolve; eapply Hp;
        repeat first [apply list_elem_of_here | apply list_elem_of_further]).
  by rewrite ?evolve_evolve.
Qed.

Lemma files_mkdirs evs d :
  Forall is_mkdir evs → files (replay evs d) = files d.
Proof.
  revert d. induction evs as [|ev evs IH]; intros d Hm; [done|].
  inversion Hm as [|? ? Hp Hm']; subst. destruct Hp as [p ->].
  unfold replay in *. simpl. by rewrite IH.
Qed.

(** A manifest file that holds the text of a manifest is one that the cache
    wrote. *)
Lemma typed_manifest_file_holds d base m :
  files d !! manifest_path base = Some (JSON_stringify m) → typed_manifest_file d base.
Proof. intros Hf content Hc. exists m. congruence. Qed.

Lemma typed_manifest_file_absent d base :
  files d !! manifest_path base = None → typed_manifest_file d base.
Proof. intros Hf content Hc. congruence. Qed.

Lemma manifest_of_mkdirs cs logs evs w base :
  Forall is_mkdir evs →
  manifest_of (evolve cs logs evs w) base = manifest_of w base.
Proof.
  intros Hm. rewrite !manifest_of_eq. cbv zeta.
  rewrite unreadable_evolve. unfold evolve. cbn [disk]. by rewrite files_mkdirs.
Qed.

Lemma create_directories_run base dir topic w :
  ∃ r evs,
    create_directories base dir topic w = (Ret r, evolve (cacheState w) [] evs w) ∧
    Forall is_mkdir evs ∧
    (r = None ∨ ∃ e, r = Some (ErrorResponse (FailedToCreateDirectory e))) ∧
    (dir ∈ denied (disk w) → r ≠ None) ∧
    (dir ∉ denied (disk w) → base ∉ denied (disk w) → r = None).
Proof.
  assert (Hm1 : ∀ p, Forall is_mkdir [EvMkdir p])
    by (intros p; constructor; [by exists p|constructor]).
  assert (Hm2 : ∀ p q, Forall is_mkdir [EvMkdir p; EvMkdir q])
    by (intros p q; constructor; [by exists p|apply Hm1]).
  unfold create_directories, try_catch.
  destruct (decide (dir ∈ denied (disk w))) as [Hd|Hd].
  - rewrite (bind_throw _ _ _ _ _ (createDirectory_denied _ _ Hd)).
    eexists _, []. rewrite evolve_id. split; [reflexivity|].
    split; [constructor|]. split; [right; eauto|]. split; [done|tauto].
  - rewrite (bind_run _ _ _ _ _ (createDirectory_ok _ _ Hd)). step.
    destruct (truthy topic && negb _).
    + destruct (decide (base ∈ denied (disk w))) as [Hb|Hb].
      * erewrite bind_throw; [|apply createDirectory_denied; by rewrite denied_evolve].
        eexists _, _. split; [reflexivity|].
        split; [apply Hm1|]. split; [right; eauto|]. split; [done|tauto].
      * erewrite bind_run; [|apply createDirectory_ok; by rewrite denied_evolve].
        unfold ret. rewrite evolve_evolve. eexists _, _. split; [reflexivity|].
        split; [apply Hm2|]. split; [by left|]. split; [tauto|done].
    + step. unfold ret. eexists _, _. split; [reflexivity|].
      split; [apply Hm1|]. split; [by left|]. split; [tauto|done].
Qed.

Lemma register_topic_run base topic info w :
  ∃ logs,
    register_topic base topic info w =
      (Ret tt,
       evolve (cacheState w) logs
         match or_null topic with
         | Some t =>
             if bool_decide (manifest_path base ∈ denied (disk w)) then []
             else [manifest_write base (set_active t info (manifest_of w base))]
         | None => []
         end w).
Proof.
  unfold register_topic. destruct (or_null topic) as [t|].
  - destruct (loadSessionManifest_run base w) as [logs E].
    rewrite (bind_run _ _ _ _ _ E), saveSessionManifest_run.
    rewrite denied_evolve. case_bool_decide; rewrite evolve_evolve; eauto.
  - exists []. unfold ret. by rewrite evolve_id.
Qed.


Lemma initialize_inv args w t w1 :
  initialize args w = (Ret (Content t), w1) →
  ∃ mk logs,
    Forall is_mkdir mk ∧
    initialize args w =
      (Ret (init_reply args),
       evolve (state_after_init (cacheState w) (init_cacheDir args) (init_topic args)
                 (clock w))
         logs
         (mk ++ init_saved args w ++
          initial_events (getCacheDirectory (init_cacheDir args) (init_topic args))
            (init_context args (clock w)))
         w).
Proof.
  intros E.
  destruct (create_directories_run (init_cacheDir args)
              (getCacheDirectory (init_cacheDir args) (init_topic args))
              (init_topic args) w) as (r & mk & Ec & Hmk & Hr & _).
  unfold initialize in *. cbv zeta in *. rewrite (bind_run _ _ _ _ _ Ec) in *.
  destruct Hr as [->|[e ->]]; [|discriminate].
  step_in E. step.
  destruct (register_topic_run (init_cacheDir args) (init_topic args)
              (init_entry (clock w) (default_project_name args) (init_sessionOnly args))
              (evolve (cacheState w) [] mk w)) as [logs Er].
  rewrite denied_evolve, (manifest_of_mkdirs _ _ _ _ _ Hmk), evolve_evolve in Er.
  cbn [cacheState evolve] in Er. fold (init_saved args w) in Er.
  cbn [clock evolve] in *.
  rewrite (bind_run _ _ _ _ _ Er) in *.
  apply bind_inv in E as ([] & w2 & Ew & E).
  rewrite (bind_run _ _ _ _ _ Ew).
  apply write_initial_files_inv in Ew as ->.
  do 3 step. unfold ret.
  exists mk, logs. split; [done|]. f_equal.
  rewrite set_cacheState_evolve, !evolve_evolve.
  cbn [cacheState clock evolve]. by rewrite !app_nil_r, !app_nil_l, <- !app_assoc.
Qed.


(** The three ways [initialize] can end. *)
Lemma initialize_reply args w :
  (∃ e, (initialize args w).1 = Throw e) ∨
  (∃ e, (initialize args w).1 = Ret (ErrorResponse (FailedToCreateDirectory e))) ∨
  (initialize args w).1 = Ret (init_reply args).
Proof.
  destruct (create_directories_run (init_cacheDir args)
              (getCacheDirectory (init_cacheDir args) (init_topic args))
              (init_topic args) w) as (r & mk & Ec & Hmk & Hr & _).
  unfold initialize. cbv zeta. rewrite (bind_run _ _ _ _ _ Ec).
  destruct Hr as [->|[e ->]]; [|right; left; by exists e].
  step.
  destruct (register_topic_run (init_cacheDir args) (init_topic args)
              (init_entry (clock (evolve (cacheState w) [] mk w))
                 (default_project_name args) (init_sessionOnly args))
              (evolve (cacheState w) [] mk w)) as [logs Er].
  rewrite (bind_run _ _ _ _ _ Er).
  match goal with
  | |- context [bind (write_initial_files ?d ?c) ?k ?w'] =>
      destruct (write_initial_files d c w') as [[[]|e] w2] eqn:Ew
  end.
  - rewrite (bind_run _ _ _ _ _ Ew). do 3 step. by right; right.
  - rewrite (bind_throw _ _ _ _ _ Ew). left. by exists e.
Qed.

Lemma initialize_ok args w :
  let dir := getCacheDirectory (init_cacheDir args) (init_topic args) in
  dir ∉ denied (disk w) → init_cacheDir args ∉ denied (disk w) →
  (∀ ev, ev ∈ initial_events dir (init_context args (clock w)) →
         event_path ev ∉ denied (disk w)) →
  ∃ w1, initialize args w = (Ret (init_reply args), w1).
Proof.
  intros dir Hd Hb Hw.
  destruct (create_directories_run (init_cacheDir args) dir (init_topic args) w)
    as (r & mk & Ec & Hmk & _ & _ & Hr).
  rewrite (Hr Hd Hb) in Ec. clear Hr.
  unfold initialize. cbv zeta. fold dir. rewrite (bind_run _ _ _ _ _ Ec). step.
  destruct (register_topic_run (init_cacheDir args) (init_topic args)
              (init_entry (clock (evolve (cacheState w) [] mk w))
                 (default_project_name args) (init_sessionOnly args))
              (evolve (cacheState w) [] mk w)) as [logs Er].
  rewrite (bind_run _ _ _ _ _ Er).
  erewrite bind_run;
    [|apply write_initial_files_ok; intros ev Hev; rewrite !denied_evolve; by apply Hw].
  do 3 step. unfold ret. eauto.
Qed.


Lemma handleInitCache_gate_open args w :
  exists_on (disk w) (getCacheDirectory (init_cacheDir args) (init_topic args)) = true ∨
  init_confirmCreate args && init_understoodGrowth args = true →
  handleInitCache args w =
    try_catch (initialize args)
      (λ error, ret (ErrorResponse (InitializationFailed error))) w.
Proof.
  intros Hopen. unfold handleInitCache, try_catch. cbv zeta. step.
  destruct (exists_on _ _); [done|]. destruct Hopen as [|Hc]; [done|].
  apply andb_true_iff in Hc as [-> ->]. done.
Qed.

Lemma handleInitCache_not_blocked args w :
  exists_on (disk w) (getCacheDirectory (init_cacheDir args) (init_topic args)) = true ∨
  init_confirmCreate args && init_understoodGrowth args = true →
  (handleInitCache args w).1 ≠ Ret (Content PermissionRequired).
Proof.
  intros Hopen. rewrite (handleInitCache_gate_open _ _ Hopen). unfold try_catch.
  destruct (initialize_reply args w) as [[e He]|[[e He]|He]];
    destruct (initialize args w) as [[r|e'] w1]; simpl in *; simplify_eq; done.
Qed.

Lemma handleInitCache_blocked args w :
  exists_on (disk w) (getCacheDirectory (init_cacheDir args) (init_topic args)) = false →
  init_confirmCreate args && init_understoodGrowth args = false →
  handleInitCache args w = (Ret (Content PermissionRequired), w).
Proof.
  intros He Hc. unfold handleInitCache, try_catch. cbv zeta. step.
  rewrite He. unfold checkCreatePermission.
  destruct (init_confirmCreate args), (init_understoodGrowth args); done.
Qed.

(** Claim C6: [checkCreatePermission] returns its message for every input
    with a flag that is false, and [null] exactly when both flags are true;
    [init_cache] consults it only when the resolved directory does not
    exist: there a missing consent gives the message and leaves the world as
    it was; on an existing directory the two flags are without effect, and
    the reply is never the message. *)
Theorem permission_gate (args : InitCacheArgs) (w : World) :
  let dir := getCacheDirectory (init_cacheDir args) (init_topic args) in
  (∀ c u, checkCreatePermission c u = None ↔ c = true ∧ u = true) ∧
  (∀ c u, checkCreatePermission c u = None ∨
          checkCreatePermission c u = Some PermissionRequired) ∧
  (exists_on (disk w) dir = false →
   init_confirmCreate args && init_understoodGrowth args = false →
   handleInitCache args w = (Ret (Content PermissionRequired), w)) ∧
  (exists_on (disk w) dir = false →
   init_confirmCreate args && init_understoodGrowth args = true →
   (handleInitCache args w).1 ≠ Ret (Content PermissionRequired)) ∧
  (exists_on (disk w) dir = true →
   (∀ c u, handleInitCache (with_consent c u args) w = handleInitCache args w) ∧
   (handleInitCache args w).1 ≠ Ret (Content PermissionRequired)).
Proof.
  intros dir. split; [|split; [|split; [|split]]].
  - intros [] []; unfold checkCreatePermission; simpl; split; intros; intuition congruence.
  - intros [] []; unfold checkCreatePermission; simpl; auto.
  - apply handleInitCache_blocked.
  - intros _ Hc. apply handleInitCache_not_blocked. by right.
  - intros He. split.
    + intros c u. rewrite !handleInitCache_gate_open by (by left). reflexivity.
    + apply handleInitCache_not_blocked. by left.
Qed.

Lemma handleArchiveCache_run args w :
  arch_confirmArchive args = true →
  let t := arch_topic args in
  let base := arch_cacheDir args in
  let dir := getCacheDirectory base (Some t) in
  if exists_on (disk w) dir then
    ∃ logs,
      handleArchiveCache args w =
        match obj_get t (activeSessions (manifest_of w base)) with
        | None =>
            (Ret (ErrorResponse (TopicNotInManifest t)), evolve (cacheState w) logs [] w)
        | Some info =>
            (Ret (Content (TopicArchived t (projectName info) dir (clock w))),
             evolve (state_after_archive (cacheState w) t) logs
               (if bool_decide (manifest_path base ∈ denied (disk w)) then []
                else [manifest_write base
                        (archive_topic t info (clock w) (manifest_of w base))])
               w)
        end
  else
    handleArchiveCache args w =
      (Ret (ErrorResponse (TopicDirectoryNotFound t dir)), w).
Proof.
  intros Hc t base dir.
  assert (Hstart : handleArchiveCache args w =
            try_catch
              (let* present := existsSync dir in
               if negb present
               then ret (ErrorResponse (TopicDirectoryNotFound t dir))
               else
                 try_catch
                   (let* manifest := loadSessionManifest base in
                    match obj_get t (activeSessions manifest) with
                    | None => ret (ErrorResponse (TopicNotInManifest t))
                    | Some sessionInfo =>
                        let* today := now in
                        saveSessionManifest base
                          (archive_topic t sessionInfo today manifest);;
                        let* cs := get_state in
                        put_state (state_after_archive cs t);;
                        ret (Content (TopicArchived t (projectName sessionInfo) dir today))
                    end)
                   (λ error, ret (ErrorResponse (FailedToArchive error))))
              (λ error, ret (ErrorResponse (ArchiveOperationFailed error))) w).
  { unfold handleArchiveCache. cbv zeta. fold t base dir. by rewrite Hc. }
  destruct (exists_on (disk w) dir) eqn:He.
  - destruct (loadSessionManifest_run base w) as [logs E].
    assert (Hin : ∃ logs', handleArchiveCache args w =
              match obj_get t (activeSessions (manifest_of w base)) with
              | None =>
                  (Ret (ErrorResponse (TopicNotInManifest t)),
                   evolve (cacheState w) logs' [] w)
              | Some info =>
                  (Ret (Content (TopicArchived t (projectName info) dir (clock w))),
                   evolve (state_after_archive (cacheState w) t) logs'
                     (if bool_decide (manifest_path base ∈ denied (disk w)) then []
                      else [manifest_write base
                              (archive_topic t info (clock w) (manifest_of w base))])
                     w)
              end); [|exact Hin].
    rewrite Hstart. unfold try_catch at 1. step. rewrite He. cbn [negb].
    unfold try_catch. rewrite (bind_run _ _ _ _ _ E).
    destruct (obj_get t _) as [info|].
    + step. cbn [clock evolve].
      rewrite (bind_run _ _ _ _ _ (saveSessionManifest_run _ _ _)).
      rewrite denied_evolve. cbn [cacheState evolve].
      case_bool_decide; rewrite evolve_evolve.
      all: do 2 step; unfold ret.
      all: rewrite set_cacheState_evolve, evolve_evolve.
      all: eexists; by rewrite ?app_nil_r, ?app_nil_l.
    + exists logs. reflexivity.
  - rewrite Hstart. unfold try_catch at 1. step. by rewrite He.
Qed.


Lemma files_evolve_other cs logs evs w p :
  (∀ ev, ev ∈ evs → event_path ev ≠ p) →
  files (disk (evolve cs logs evs w)) !! p = files (disk w) !! p.
Proof. apply replay_files_other. Qed.

Lemma dirs_evolve_writes cs logs evs w :
  (∀ ev, ev ∈ evs → ∃ p c m, ev = EvWrite p c m) →
  dirs (disk (evolve cs logs evs w)) = dirs (disk w).
Proof. apply replay_dirs_writes. Qed.


(** *** The sort of the cleanup *)

Lemma insert_session_perm x l : Permutation (insert_session x l) (x :: l).
Proof.
  induction l as [|y l IH]; simpl; [done|].
  destruct (stays_before x y); [done|].
  rewrite IH. apply perm_swap.
Qed.

Lemma sort_sessions_perm l : Permutation (sort_sessions l) l.
Proof.
  induction l as [|x l IH]; simpl; [done|].
  rewrite insert_session_perm. by constructor.
Qed.

Lemma insert_session_sorted x l :
  StronglySorted most_recent_first l →
  StronglySorted most_recent_first (insert_session x l).
Proof.
  induction 1 as [|y l Hs IH Hy]; simpl.
  - repeat constructor.
  - unfold stays_before. destruct (Z.leb_spec (lastUsed y.2) (lastUsed x.2)) as [Hle|Hlt].
    + constructor; [by constructor|]. constructor; [done|].
      eapply Forall_impl; [exact Hy|]. unfold most_recent_first. intros z Hz. lia.
    + constructor; [done|].
      rewrite (insert_session_perm x l). constructor; [|done].
      unfold most_recent_first. lia.
Qed.

Lemma sort_sessions_sorted l : StronglySorted most_recent_first (sort_sessions l).
Proof.
  induction l as [|x l IH]; simpl; [constructor|]. by apply insert_session_sorted.
Qed.

(** The sort is stable: sessions used at the same instant keep their order. *)
Lemma insert_session_stable k x l :
  StronglySorted most_recent_first l →
  filter (λ e, lastUsed e.2 = k) (insert_session x l) =
  filter (λ e, lastUsed e.2 = k) (x :: l).
Proof.
  induction 1 as [|y l Hs IH Hy]; simpl; [done|].
  unfold stays_before. destruct (Z.leb_spec (lastUsed y.2) (lastUsed x.2)) as [Hle|Hlt].
  - done.
  - rewrite !filter_cons. rewrite IH. rewrite !filter_cons.
    destruct (decide (lastUsed y.2 = k)), (decide (lastUsed x.2 = k)); try done. lia.
Qed.

Lemma sort_sessions_stable k l :
  filter (λ e, lastUsed e.2 = k) (sort_sessions l) = filter (λ e, lastUsed e.2 = k) l.
Proof.
  induction l as [|x l IH]; simpl; [done|].
  rewrite insert_session_stable by apply sort_sessions_sorted.
  by rewrite !filter_cons, IH.
Qed.


(** *** The loop of the cleanup *)

Lemma before_date_spec t cutoff :
  before_date t cutoff = true ↔ ∃ c, cutoff = Some c ∧ t < c.
Proof.
  destruct cutoff as [c|]; simpl.
  - rewrite Z.ltb_lt. split; [by exists c|]. by intros (? & [= <-] & ?).
  - split; [done|]. by intros (? & ? & _).
Qed.

Lemma selected_for_cleanup_spec cutoff maxSessions active i e :
  selected_for_cleanup cutoff maxSessions active i e = true ↔
  ((∃ c, cutoff = Some c ∧ lastUsed e.2 < c) ∨ maxSessions ≤ Z.of_nat i) ∧
  active ≠ Some e.1.
Proof.
  unfold selected_for_cleanup, strict_eq. cbv zeta.
  rewrite andb_true_iff, orb_true_iff, negb_true_iff, bool_decide_eq_false.
  rewrite before_date_spec, Z.leb_le. tauto.
Qed.

Lemma elem_of_selected_keys cutoff maxSessions active i l t :
  t ∈ selected_keys cutoff maxSessions active i l ↔
  ∃ j e, l !! j = Some (t, e) ∧
         ((∃ c, cutoff = Some c ∧ lastUsed e < c) ∨ maxSessions ≤ Z.of_nat (i + j)) ∧
         active ≠ Some t.
Proof.
  revert i. induction l as [|[k e0] l IH]; intros i; simpl.
  - split; [by intros ?%elem_of_nil|]. by intros (j & e & ? & _).
  - rewrite elem_of_app, IH. split.
    + intros [Hin|(j & e & Hj & Hsel & Ha)].
      * destruct (selected_for_cleanup _ _ _ _ _) eqn:Es;
          [|by apply elem_of_nil in Hin].
        apply list_elem_of_singleton in Hin as ->.
        apply selected_for_cleanup_spec in Es as [Hsel Ha]. simpl in *.
        exists 0%nat, e0. rewrite Nat.add_0_r. done.
      * exists (S j), e. rewrite Nat.add_succ_r. done.
    + intros ([|j] & e & Hj & Hsel & Ha); simpl in Hj.
      * injection Hj as -> ->. left. rewrite Nat.add_0_r in Hsel.
        rewrite (proj2 (selected_for_cleanup_spec cutoff maxSessions active i (t, e)))
          by done.
        by apply list_elem_of_singleton.
      * right. exists j, e. rewrite Nat.add_succ_r in Hsel. done.
Qed.

Lemma cleanup_loop_result d dir cutoff maxSessions active i l st :
  let st' := cleanup_loop d dir cutoff maxSessions active i l st in
  let keys := selected_keys cutoff maxSessions active i l in
  cl_manifest st' = foldl (λ m k, delete_active k m) (cl_manifest st) keys ∧
  cl_settings st' = foldl (λ s k, delete k s) (cl_settings st) keys.
Proof.
  revert i st. induction l as [|e l IH]; intros i st; simpl; [done|].
  destruct (IH (S i) (cleanup_step d dir cutoff maxSessions active i e st)) as [Hm Hs].
  rewrite Hm, Hs. unfold cleanup_step.
  destruct (selected_for_cleanup _ _ _ _ _); simpl; done.
Qed.

Lemma foldl_delete_active ks m :
  foldl (λ m k, delete_active k m) m ks =
  {| activeSessions := foldl (λ o k, obj_delete k o) (activeSessions m) ks;
     archivedSessions := archivedSessions m;
     manifestVersion := manifestVersion m |}.
Proof.
  revert m. induction ks as [|k ks IH]; intros m; simpl; [by destruct m|].
  by rewrite IH.
Qed.

Lemma obj_get_foldl_delete {V} t ks (o : Obj V) :
  obj_get t (foldl (λ o k, obj_delete k o) o ks) =
  if decide (t ∈ ks) then None else obj_get t o.
Proof.
  revert o. induction ks as [|k ks IH]; intros o; cbn [foldl].
  - case_decide as Hin; [by apply elem_of_nil in Hin|done].
  - rewrite IH. destruct (decide (t = k)) as [->|Hne].
    + rewrite obj_get_delete_eq.
      destruct (decide (k ∈ ks)), (decide (k ∈ k :: ks)) as [|Hn]; try done.
      all: exfalso; apply Hn; left.
    + rewrite obj_get_delete_ne by done.
      destruct (decide (t ∈ ks)) as [Hin|Hin], (decide (t ∈ k :: ks)) as [Hin'|Hin'];
        try done; exfalso.
      * apply Hin'. by right.
      * by apply elem_of_cons in Hin' as [?|?].
Qed.

Lemma lookup_foldl_delete t ks (s : gmap string bool) :
  foldl (λ s k, delete k s) s ks !! t = if decide (t ∈ ks) then None else s !! t.
Proof.
  revert s. induction ks as [|k ks IH]; intros s; cbn [foldl].
  - case_decide as Hin; [by apply elem_of_nil in Hin|done].
  - rewrite IH. destruct (decide (t = k)) as [->|Hne].
    + rewrite lookup_delete_eq.
      destruct (decide (k ∈ ks)), (decide (k ∈ k :: ks)) as [|Hn]; try done.
      all: exfalso; apply Hn; left.
    + rewrite lookup_delete_ne by done.
      destruct (decide (t ∈ ks)) as [Hin|Hin], (decide (t ∈ k :: ks)) as [Hin'|Hin'];
        try done; exfalso.
      * apply Hin'. by right.
      * by apply elem_of_cons in Hin' as [?|?].
Qed.


Lemma handleCleanupCache_run args w :
  clean_confirmCleanup args = true →
  exists_on (disk w) (clean_cacheDir args) = true →
  let base := clean_cacheDir args in
  let cs := cacheState w in
  let cutoff := cutoff_date (clock w) (clean_cleanupAfterDays args) in
  let st :=
    cleanup_loop (disk w) base cutoff (clean_maxSessions args) (activeTopic cs) 0
      (sort_sessions (activeSessions (manifest_of w base)))
      {| cl_manifest := manifest_of w base;
         cl_settings := topicAutoUpdateSettings cs;
         cl_cleaned := []; cl_preserved := [] |} in
  ∃ logs,
    handleCleanupCache args w =
      (Ret (Content (CleanupComplete (clean_cleanupAfterDays args)
                       (clean_maxSessions args) cutoff (cl_cleaned st) (cl_preserved st)
                       (length (obj_keys (activeSessions (cl_manifest st)))))),
       evolve (with_settings cs (cl_settings st)) logs
         (if bool_decide (manifest_path base ∈ denied (disk w)) then []
          else [manifest_write base (cl_manifest st)])
         w).
Proof.
  intros Hc He base cs cutoff st.
  unfold handleCleanupCache. cbv zeta. fold base in He |- *. rewrite Hc. cbn [negb].
  unfold try_catch at 1. step. rewrite He. cbn [negb].
  destruct (loadSessionManifest_run base w) as [logs E].
  unfold try_catch. rewrite (bind_run _ _ _ _ _ E).
  do 2 step. unfold bind at 1. cbn [disk clock cacheState evolve].
  change (replay [] (disk w)) with (disk w). fold cs cutoff st.
  step.
  rewrite (bind_run _ _ _ _ _ (saveSessionManifest_run _ _ _)).
  rewrite set_cacheState_evolve, evolve_evolve, denied_evolve.
  cbn [cacheState evolve].
  case_bool_decide; rewrite evolve_evolve; unfold ret; eexists;
    by rewrite ?app_nil_r, ?app_nil_l.
Qed.


Lemma cleanup_loop_cleaned d dir cutoff maxSessions active i l st line :
  line ∈ cl_cleaned (cleanup_loop d dir cutoff maxSessions active i l st) ↔
  line ∈ cl_cleaned st ∨
  ∃ j e, l !! j = Some e ∧
         selected_for_cleanup cutoff maxSessions active (i + j) e = true ∧
         exists_on d (getCacheDirectory dir (Some e.1)) = true ∧
         line = e.1 +:+ " (" +:+ projectName e.2 +:+ ") - Directory: " +:+
                getCacheDirectory dir (Some e.1).
Proof.
  revert i st. induction l as [|e l IH]; intros i st; cbn [cleanup_loop].
  - split; [by left|]. intros [?|(j & e & Hj & _)]; [done|]. by destruct j.
  - rewrite IH. unfold cleanup_step at 1.
    destruct (selected_for_cleanup cutoff maxSessions active i e) eqn:Es;
      cbn [cl_cleaned].
    + destruct (exists_on d (getCacheDirectory dir (Some e.1))) eqn:Ee.
      * rewrite elem_of_app, list_elem_of_singleton. split.
        -- intros [[?| ->]|(j & e' & Hj & Hs & Hx & ->)]; [by left|right..].
           ++ exists 0%nat, e. by rewrite Nat.add_0_r.
           ++ exists (S j), e'. by rewrite Nat.add_succ_r.
        -- intros [?|([|j] & e' & Hj & Hs & Hx & ->)]; [by left; left|..].
           ++ injection Hj as <-. left; by right.
           ++ right. exists j, e'. by rewrite Nat.add_succ_r in Hs.
      * split.
        -- intros [?|(j & e' & Hj & Hs & Hx & ->)]; [by left|right].
           exists (S j), e'. by rewrite Nat.add_succ_r.
        -- intros [?|([|j] & e' & Hj & Hs & Hx & ->)]; [by left|..].
           ++ injection Hj as <-. congruence.
           ++ right. exists j, e'. by rewrite Nat.add_succ_r in Hs.
    + split.
      * intros [?|(j & e' & Hj & Hs & Hx & ->)]; [by left|right].
        exists (S j), e'. by rewrite Nat.add_succ_r.
      * intros [?|([|j] & e' & Hj & Hs & Hx & ->)]; [by left|..].
        -- injection Hj as <-. rewrite Nat.add_0_r in Hs. congruence.
        -- right. exists j, e'. by rewrite Nat.add_succ_r in Hs.
Qed.

(** Claim C3: with [confirmCleanup = true] on an existing base directory
    whose manifest file is one that the cache wrote, of topics with plain
    names, [cleanup_cache] sorts
    the active sessions by [lastUsed], most recent first, and removes a
    topic from [activeSessions] of the manifest that it saves, and from the
    per-topic auto-update settings of the cache state, exactly when the
    topic is older than the cutoff of [cleanupAfterDays] days -- no topic
    is, when that cutoff is not a valid date -- or stands at a rank of
    [maxSessions] or more, and is not the active topic, which is never
    removed; the other sessions and settings and the other fields of the
    cache state are kept as they are; no directory and no file other than
    the manifest is touched: the reply lists, for each removed topic whose
    directory exists, the directory to delete by hand. *)
Theorem cleanup_contract (args : CleanupCacheArgs) (w : World) :
  clean_confirmCleanup args = true →
  exists_on (disk w) (clean_cacheDir args) = true →
  typed_manifest_file (disk w) (clean_cacheDir args) →
  plain_keys (activeSessions (manifest_of w (clean_cacheDir args))) = true →
  let base := clean_cacheDir args in
  let cs := cacheState w in
  let m := manifest_of w base in
  let instant := clock w - clean_cleanupAfterDays args * 86400000 in
  let cutoff := if Z.abs instant <=? 8640000000000000 then Some instant else None in
  let sorted := sort_sessions (activeSessions m) in
  let removed := removed_by_cleanup cutoff (clean_maxSessions args) (activeTopic cs) sorted in
  let r := handleCleanupCache args w in
  let cs' := cacheState r.2 in
  Permutation sorted (activeSessions m) ∧
  StronglySorted most_recent_first sorted ∧
  (∀ t, activeTopic cs = Some t → ¬ removed t) ∧
  (∃ m' logs cleaned preserved,
     r = (Ret (Content (CleanupComplete (clean_cleanupAfterDays args)
                          (clean_maxSessions args) cutoff cleaned preserved
                          (length (obj_keys (activeSessions m'))))),
          evolve cs' logs
            (if bool_decide (manifest_path base ∈ denied (disk w)) then []
             else [manifest_write base m'])
            w) ∧
     (∀ t, has_key t (activeSessions m') ↔ has_key t (activeSessions m) ∧ ¬ removed t) ∧
     (∀ t, ¬ removed t → obj_get t (activeSessions m') = obj_get t (activeSessions m)) ∧
     archivedSessions m' = archivedSessions m ∧
     manifestVersion m' = manifestVersion m ∧
     (∀ line, line ∈ cleaned ↔
        ∃ i t e, sorted !! i = Some (t, e) ∧
                 ((∃ c, cutoff = Some c ∧ lastUsed e < c) ∨
                  clean_maxSessions args ≤ Z.of_nat i) ∧
                 activeTopic cs ≠ Some t ∧
                 exists_on (disk w) (getCacheDirectory base (Some t)) = true ∧
                 line = t +:+ " (" +:+ projectName e +:+ ") - Directory: " +:+
                        getCacheDirectory base (Some t))) ∧
  (∀ t, removed t → topicAutoUpdateSettings cs' !! t = None) ∧
  (∀ t, ¬ removed t → topicAutoUpdateSettings cs' !! t = topicAutoUpdateSettings cs !! t) ∧
  (isInitialized cs' = isInitialized cs ∧ cacheDir cs' = cacheDir cs ∧
   currentTopic cs' = currentTopic cs ∧ autoUpdateEnabled cs' = autoUpdateEnabled cs ∧
   toolCallCount cs' = toolCallCount cs ∧ updateInterval cs' = updateInterval cs ∧
   lastUpdate cs' = lastUpdate cs ∧ activeTopic cs' = activeTopic cs ∧
   hasCreatePermission cs' = hasCreatePermission cs ∧
   permissionGrantedAt cs' = permissionGrantedAt cs) ∧
  dirs (disk r.2) = dirs (disk w) ∧
  (∀ p, p ≠ manifest_path base → files (disk r.2) !! p = files (disk w) !! p).
Proof.
  intros Hc He _ _ base cs m instant cutoff sorted removed r cs'.
  destruct (handleCleanupCache_run args w Hc He) as [logs Hrun].
  fold base cs m sorted r in Hrun.
  assert (Hcut : cutoff_date (clock w) (clean_cleanupAfterDays args) = cutoff).
  { unfold cutoff_date, time_clip, cutoff, instant.
    by replace (clock w - clean_cleanupAfterDays args * 24 * 60 * 60 * 1000)
         with (clock w - clean_cleanupAfterDays args * 86400000) by lia. }
  rewrite Hcut in Hrun.
  set (st0 := {| cl_manifest := m; cl_settings := topicAutoUpdateSettings cs;
                 cl_cleaned := []; cl_preserved := [] |}) in Hrun.
  set (st := cleanup_loop (disk w) base cutoff (clean_maxSessions args) (activeTopic cs)
               0 sorted st0) in Hrun.
  destruct (cleanup_loop_result (disk w) base cutoff (clean_maxSessions args)
              (activeTopic cs) 0 sorted st0) as [Hm Hs].
  fold st in Hm, Hs. cbv zeta in Hm, Hs. rewrite foldl_delete_active in Hm.
  set (keys := selected_keys cutoff (clean_maxSessions args) (activeTopic cs) 0 sorted)
    in Hm, Hs.
  assert (Hkeys : ∀ t, t ∈ keys ↔ removed t).
  { intros t. unfold keys. rewrite elem_of_selected_keys. reflexivity. }
  assert (Hget : ∀ t, obj_get t (activeSessions (cl_manifest st)) =
                      if decide (t ∈ keys) then None else obj_get t (activeSessions m)).
  { intros t. rewrite Hm. cbn [activeSessions]. apply obj_get_foldl_delete. }
  assert (Hcs : cs' = with_settings cs (cl_settings st)) by (unfold cs'; by rewrite Hrun).
  clearbody cs'. subst cs'.
  split; [apply sort_sessions_perm|]. split; [apply sort_sessions_sorted|].
  split; [by intros t Ha (i & e & _ & _ & Hn)|].
  split; [|split; [|split; [|split; [|split]]]].
  - exists (cl_manifest st), logs, (cl_cleaned st), (cl_preserved st).
    split; [exact Hrun|].
    split; [|split; [|split; [by rewrite Hm|split; [by rewrite Hm|]]]].
    + intros t. specialize (Hget t). rewrite <- Hkeys.
      destruct (decide (t ∈ keys)) as [Hin|Hin].
      * apply obj_get_None in Hget. tauto.
      * split.
        -- intros Hk. split; [|done].
           destruct (obj_get t (activeSessions m)) as [v|] eqn:Hv;
             [by apply obj_get_Some in Hv|].
           by apply obj_get_None in Hget.
        -- intros [Hk _].
           destruct (obj_get t (activeSessions (cl_manifest st))) as [v|] eqn:Hv;
             [by apply obj_get_Some in Hv|].
           symmetry in Hget. by apply obj_get_None in Hget.
    + intros t Hn. rewrite Hget, decide_False; [done|]. by rewrite Hkeys.
    + intros line. unfold st. rewrite cleanup_loop_cleaned. cbn [cl_cleaned st0].
      split.
      * intros [?%elem_of_nil|(j & [t e] & Hj & Hsel & Hx & ->)]; [done|].
        apply selected_for_cleanup_spec in Hsel as [Hsel Ha]. cbn in *.
        by exists j, t, e.
      * intros (i & t & e & Hi & Hsel & Ha & Hx & ->). right. exists i, (t, e).
        split; [done|]. split; [|done]. by apply selected_for_cleanup_spec.
  - intros t Hr. cbn [topicAutoUpdateSettings with_settings].
    rewrite Hs, lookup_foldl_delete, decide_True; [done|]. by rewrite Hkeys.
  - intros t Hn. cbn [topicAutoUpdateSettings with_settings].
    rewrite Hs, lookup_foldl_delete, decide_False; [done|]. by rewrite Hkeys.
  - done.
  - rewrite Hrun. cbn [snd]. apply dirs_evolve_writes.
    intros ev. case_bool_decide; [by intros ?%elem_of_nil|].
    intros ->%list_elem_of_singleton. unfold manifest_write. eauto.
  - intros p Hp. rewrite Hrun. cbn [snd]. apply files_evolve_other.
    intros ev. case_bool_decide; [by intros ?%elem_of_nil|].
    intros ->%list_elem_of_singleton. cbn. congruence.
Qed.

(** *** What keeps the cache state *)

Lemma keeps_state_ret {A} (a : A) : keeps_state (ret a).
Proof. by intros w. Qed.

Lemma keeps_state_bind {A B} (m : M A) (k : A → M B) :
  keeps_state m → (∀ a, keeps_state (k a)) → keeps_state (bind m k).
Proof.
  intros Hm Hk w. unfold bind. specialize (Hm w).
  destruct (m w) as [[a|e] w1]; simpl in *; [|done].
  destruct (Hk a w1) as [-> ->]. done.
Qed.

Lemma keeps_state_try_catch {A} (m : M A) h :
  keeps_state m → (∀ e, keeps_state (h e)) → keeps_state (try_catch m h).
Proof.
  intros Hm Hh w. unfold try_catch. specialize (Hm w).
  destruct (m w) as [[a|e] w1]; simpl in *; [done|].
  destruct (Hh e w1) as [-> ->]. done.
Qed.

Lemma keeps_state_writeFile p c mode : keeps_state (writeFile p c mode).
Proof. intros w. unfold writeFile. by case_bool_decide. Qed.

Lemma keeps_state_log l : keeps_state (log l).
Proof. by intros w. Qed.

Lemma keeps_state_append_updates dir ts target args :
  keeps_state (append_updates dir ts target args).
Proof.
  unfold append_updates, append_optional.
  repeat first [ apply keeps_state_bind; [|intros ?]
               | apply keeps_state_writeFile
               | apply keeps_state_ret
               | match goal with |- keeps_state (if ?b then _ else _) => destruct b end ].
Qed.


Lemma state_after_auto_update cs ts today :
  let cs' := state_after_update cs ts (resolve_target (upd_topic (auto_update_args cs today)) cs) in
  activeTopic cs' = activeTopic cs.
Proof.
  unfold auto_update_args, resolve_target, state_after_update.
  cbn [upd_topic activeTopic].
  destruct (truthy (activeTopic cs)) eqn:Ea.
  - rewrite (or_null_truthy _ Ea), Ea. cbn [negb andb]. by rewrite Ea.
  - by rewrite (or_null_falsy _ Ea).
Qed.

Lemma resolve_target_or_null active cs :
  activeTopic cs = active → resolve_target (or_null active) cs = or_null active.
Proof.
  intros <-. unfold resolve_target. rewrite truthy_or_null.
  destruct (truthy (activeTopic cs)) eqn:Ea; cbn [negb andb]; [done|].
  by rewrite (or_null_falsy _ Ea).
Qed.

Lemma getCacheDirectory_or_null base topic :
  getCacheDirectory base (or_null topic) = getCacheDirectory base topic.
Proof.
  unfold getCacheDirectory. rewrite truthy_or_null.
  destruct (truthy topic) eqn:Et; cbn [negb]; [|done].
  by rewrite (or_null_truthy _ Et).
Qed.

Lemma start_update_run args w :
  let cs := cacheState w in
  let target := resolve_target (upd_topic args) cs in
  let dir := getCacheDirectory (cacheDir cs) target in
  start_update args w =
    (Ret tt,
     if isInitialized cs && exists_on (disk w) dir
     then set_inflight
            (inflight w ++ [{| job_args := args; job_target := target; job_dir := dir;
                               job_timestamp := clock w |}]) w
     else w).
Proof.
  intros cs target dir. unfold start_update, update_begin.
  unfold bind at 1. rewrite bind_get_state. cbv zeta. fold cs target dir.
  destruct (isInitialized cs); cbn [negb andb]; [|done].
  rewrite bind_existsSync.
  destruct (exists_on (disk w) dir); cbn [negb]; [|done].
  by rewrite bind_now.
Qed.

(** One tick: the count, and the update in flight if one is due and its
    directory exists. *)
Lemma incrementToolCallCounter_run w :
  let cs := counted (cacheState w) in
  let dir := getCacheDirectory (cacheDir cs) (activeTopic cs) in
  incrementToolCallCounter w =
    (Ret tt,
     if should_auto_update cs && isInitialized cs
        && rem_is_zero (toolCallCount cs) (updateInterval cs)
        && exists_on (disk w) dir
     then set_inflight
            (inflight w ++
             [{| job_args := auto_update_args cs (clock w);
                 job_target := or_null (activeTopic cs);
                 job_dir := dir; job_timestamp := clock w |}])
            (set_cacheState cs w)
     else set_cacheState cs w).
Proof.
  intros cs dir. unfold incrementToolCallCounter. do 2 step. fold cs.
  destruct (should_auto_update cs) eqn:Es; cbn [andb]; [|done].
  destruct (isInitialized cs) eqn:Ei; cbn [andb]; [|done].
  destruct (rem_is_zero _ _); cbn [andb]; [|done].
  step. rewrite start_update_run.
  cbn [cacheState set_cacheState disk clock inflight upd_topic auto_update_args].
  rewrite Ei. cbn [andb].
  rewrite (resolve_target_or_null (activeTopic cs) cs) by done.
  rewrite getCacheDirectory_or_null. fold dir.
  by destruct (exists_on (disk w) dir).
Qed.

Lemma should_auto_update_ext cs cs' :
  activeTopic cs' = activeTopic cs →
  topicAutoUpdateSettings cs' = topicAutoUpdateSettings cs →
  autoUpdateEnabled cs' = autoUpdateEnabled cs →
  should_auto_update cs' = should_auto_update cs.
Proof.
  intros Ha Hs He. unfold should_auto_update, topic_setting. by rewrite Ha, Hs, He.
Qed.

Lemma try_catch_returns {A} (m : M A) (h : string → A) w :
  ∃ a w1, try_catch m (λ e, ret (h e)) w = (Ret a, w1).
Proof. unfold try_catch. destruct (m w) as [[a|e] w1]; eauto. Qed.

Lemma handleUpdateCache_returns args w :
  ∃ r w1, handleUpdateCache args w = (Ret r, w1).
Proof.
  unfold handleUpdateCache.
  apply (try_catch_returns _ (λ e, ErrorResponse (UpdateFailed e))).
Qed.

(** The rest of an update whose files can be written. *)
Lemma update_finish_ok job w :
  let events :=
    update_events (job_dir job) (job_timestamp job) (job_target job) (job_args job) in
  (∀ ev, ev ∈ events → event_path ev ∉ denied (disk w)) →
  ∃ logs saved,
    update_finish job w =
      (Ret (Content (CacheUpdated (job_timestamp job) (or_null (job_target job))
                       (job_dir job)
                       (truthy (upd_projectUpdate (job_args job)))
                       (truthy (upd_decisionsUpdate (job_args job)))
                       (truthy (upd_nextStepsUpdate (job_args job)))
                       (autoUpdateEnabled (cacheState w)))),
       evolve (state_after_update (cacheState w) (clock w) (job_target job)) logs
         (events ++ saved) w) ∧
    (saved = [] ∨ ∃ m, saved = [manifest_write (cacheDir (cacheState w)) m]).
Proof.
  intros events Hw. unfold update_finish. cbv zeta.
  rewrite (bind_run _ _ _ _ _ (append_updates_ok _ _ _ _ _ Hw)). fold events.
  step. cbn [cacheState evolve].
  destruct (touch_manifest_run (cacheDir (cacheState w)) (job_target job)
              (job_timestamp job) (evolve (cacheState w) [] events w))
    as (logs & saved & Ht & Hsaved).
  rewrite (bind_run _ _ _ _ _ Ht). do 3 step.
  exists logs, saved. split.
  - unfold ret. rewrite !evolve_evolve, set_cacheState_evolve, evolve_evolve.
    cbn [cacheState evolve clock]. by rewrite !app_nil_r.
  - destruct Hsaved as [->|(t & info & _ & _ & ->)]; [by left|right; eauto].
Qed.

(** However it ends, the rest of an update leaves the count of tool calls
    and what the trigger reads, the active topic apart, as they were. *)
Lemma complete_update_run job w :
  ∃ w1,
    complete_update job w = (Ret tt, w1) ∧
    clock w1 = clock w ∧ inflight w1 = inflight w ∧
    (cacheState w1 = cacheState w ∨
     cacheState w1 = state_after_update (cacheState w) (clock w) (job_target job)).
Proof.
  unfold complete_update, try_catch, update_finish. cbv zeta.
  pose proof (keeps_state_append_updates (job_dir job) (job_timestamp job)
                (job_target job) (job_args job) w) as [Hs Hc].
  assert (Hi : inflight (append_updates (job_dir job) (job_timestamp job)
                           (job_target job) (job_args job) w).2 = inflight w).
  { unfold append_updates, append_optional, bind, writeFile, ret.
    repeat (case_match; simplify_eq/=; try done). }
  unfold bind at 1 2.
  destruct (append_updates _ _ _ _ w) as [[[]|e] w1]; cbn [snd] in Hs, Hc, Hi.
  - step.
    destruct (touch_manifest_run (cacheDir (cacheState w1)) (job_target job)
                (job_timestamp job) w1) as (logs & saved & Ht & _).
    rewrite (bind_run _ _ _ _ _ Ht). do 3 step. unfold ret. cbv beta iota.
    eexists. split; [reflexivity|]. cbn. rewrite Hs, Hc, Hi. auto.
  - unfold ret. cbv beta iota. eexists. split; [reflexivity|]. auto.
Qed.

Lemma rem_is_zero_divide n d : 0 < n → rem_is_zero n d = true ↔ (d | n).
Proof.
  intros Hn. unfold rem_is_zero. destruct (Z.eqb_spec d 0) as [->|Hd].
  - split; [done|]. intros Hdiv. apply Z.divide_0_l in Hdiv. lia.
  - rewrite Z.eqb_eq. by apply Z.rem_divide.
Qed.

Lemma div_succ c k :
  0 ≤ c → 0 < k → (c + 1) / k - c / k = if rem_is_zero (c + 1) k then 1 else 0.
Proof.
  intros Hc Hk. unfold rem_is_zero. rewrite (proj2 (Z.eqb_neq k 0)) by lia.
  rewrite Z.rem_mod_nonneg by lia.
  pose proof (Z.div_mod c k ltac:(lia)) as Hdm.
  pose proof (Z.mod_pos_bound c k Hk) as Hb.
  destruct (decide (c mod k + 1 = k)) as [Heq|Hne].
  - assert (Hq : (c + 1) / k = c / k + 1)
      by (symmetry; apply (Z.div_unique _ _ _ 0); lia).
    assert (Hm : (c + 1) mod k = 0)
      by (symmetry; apply (Z.mod_unique _ _ (c / k + 1)); lia).
    rewrite Hq, Hm. simpl. lia.
  - assert (Hq : (c + 1) / k = c / k)
      by (symmetry; apply (Z.div_unique _ _ _ (c mod k + 1)); lia).
    assert (Hm : (c + 1) mod k = c mod k + 1)
      by (symmetry; apply (Z.mod_unique _ _ (c / k)); lia).
    rewrite Hq, Hm. rewrite (proj2 (Z.eqb_neq _ 0)) by lia. lia.
Qed.

(** [k] ticks in a row: the count, and the updates in flight, one for each
    multiple of the interval that the count passes. *)
Lemma ticks_run k w :
  let cs := cacheState w in
  let c := toolCallCount cs in
  let dir := getCacheDirectory (cacheDir cs) (activeTopic cs) in
  let job N :=
    {| job_args := auto_update_args (with_count N cs) (clock w);
       job_target := or_null (activeTopic cs);
       job_dir := dir; job_timestamp := clock w |} in
  0 ≤ c → 0 < updateInterval cs →
  ∃ jobs,
    ticks k w =
      (Ret tt, set_inflight (inflight w ++ jobs)
                 (set_cacheState (with_count (c + Z.of_nat k) cs) w)) ∧
    Z.of_nat (length jobs) =
      (if should_auto_update cs && isInitialized cs && exists_on (disk w) dir
       then (c + Z.of_nat k) / updateInterval cs - c / updateInterval cs
       else 0) ∧
    Forall (λ j, ∃ N, c < N ≤ c + Z.of_nat k ∧ (updateInterval cs | N) ∧ j = job N) jobs.
Proof.
  revert w. induction k as [|k IH]; intros w cs c dir job Hc Hk.
  - exists []. split; [|split; [|done]].
    + cbn [ticks]. unfold ret. f_equal. rewrite Z.add_0_r, app_nil_r.
      destruct w as [[] ? ? ? ?]. reflexivity.
    + rewrite Z.add_0_r. destruct (_ && _ && _); cbn; lia.
  - cbn [ticks]. rewrite (bind_run _ _ _ _ _ (incrementToolCallCounter_run w)).
    fold cs. cbv zeta.
    set (due := should_auto_update (counted cs) && isInitialized (counted cs)
                && rem_is_zero (toolCallCount (counted cs)) (updateInterval (counted cs))
                && exists_on (disk w)
                     (getCacheDirectory (cacheDir (counted cs)) (activeTopic (counted cs)))).
    set (w1 := if due then _ else _).
    assert (Hw1 : cacheState w1 = counted cs ∧ disk w1 = disk w ∧ clock w1 = clock w).
    { unfold w1. by destruct due. }
    destruct Hw1 as (Hs1 & Hd1 & Hc1).
    destruct (IH w1) as (jobs & Et & Hlen & Hall).
    { rewrite Hs1. cbn. lia. }
    { by rewrite Hs1. }
    rewrite Et. clear Et IH.
    rewrite Hs1, Hd1 in Hlen. rewrite Hs1, Hc1 in Hall.
    cbn [toolCallCount updateInterval isInitialized cacheDir activeTopic counted]
      in Hlen, Hall.
    rewrite (should_auto_update_ext cs (counted cs)) in Hlen by done.
    fold c dir in Hlen, Hall.
    assert (Hdue : due = should_auto_update cs && isInitialized cs
                         && rem_is_zero (c + 1) (updateInterval cs)
                         && exists_on (disk w) dir).
    { unfold due. by rewrite (should_auto_update_ext cs (counted cs)). }
    pose proof (div_succ c (updateInterval cs) Hc Hk) as Hdiv.
    replace (c + 1 + Z.of_nat k) with (c + Z.of_nat (S k)) in Hlen, Hall by lia.
    exists ((if due then [job (c + 1)] else []) ++ jobs). split; [|split].
    + f_equal. rewrite Hs1. unfold w1.
      destruct due; cbn; rewrite <- ?app_assoc; try reflexivity.
      all: by replace (toolCallCount cs + 1 + Z.of_nat k) with (c + Z.of_nat (S k)) by lia.
    + rewrite length_app, Nat2Z.inj_add, Hlen, Hdue.
      destruct (should_auto_update cs), (isInitialized cs), (exists_on (disk w) dir);
        cbn [andb]; rewrite ?andb_false_r; cbn [length app]; try lia.
      rewrite andb_true_r. destruct (rem_is_zero (c + 1) (updateInterval cs)); cbn; lia.
    + apply Forall_app. split.
      * destruct due eqn:Ed; [|done]. apply Forall_singleton. exists (c + 1).
        split; [lia|]. split; [|done].
        symmetry in Hdue. apply andb_true_iff in Hdue as [Hdue _].
        apply andb_true_iff in Hdue as [_ Hdue].
        apply rem_is_zero_divide in Hdue; [done|lia].
      * eapply Forall_impl; [exact Hall|]. intros j (N & HN & Hd & ->).
        exists N. split; [lia|]. split; [done|]. reflexivity.
Qed.

Lemma getCacheDirectory_match base topic :
  getCacheDirectory base topic =
  match or_null topic with
  | Some t => path_join base t
  | None => base
  end.
Proof. unfold getCacheDirectory, or_null. by destruct topic as [[|c r]|]. Qed.

Lemma or_null_idemp o : or_null (or_null o) = or_null o.
Proof. unfold or_null. by destruct o as [[|c r]|]. Qed.

(** Claim C4: every call of [incrementToolCallCounter] adds one to
    [toolCallCount] and changes nothing else of the cache state, the disk
    or the console; it starts an update -- not awaited: the call is in
    flight when [incrementToolCallCounter] returns -- exactly when the
    effective flag (the setting of the active topic, false when absent, or
    the global flag when no topic is active) is true, the cache is
    initialized and the new count is a multiple of [updateInterval]; the
    update carries the summary "Auto-update triggered after N tool calls at
    <timestamp>" and the active topic if any, and when the event loop
    completes it, it appends one section with that summary to the
    conversation log of the topic; and of [updateInterval] calls in a row,
    under an enablement that holds, exactly one starts an update. *)
Theorem tick_contract (w : World) :
  let cs := cacheState w in
  let n := toolCallCount cs + 1 in
  let target := or_null (activeTopic cs) in
  let dir := match target with
             | Some t => path_join (cacheDir cs) t
             | None => cacheDir cs
             end in
  let due := should_auto_update cs = true ∧ isInitialized cs = true ∧
             (updateInterval cs | n) in
  let summary N := "Auto-update triggered after " +:+ pretty N +:+ " tool calls at " +:+
                   toISOString (clock w) in
  let job N :=
    {| job_args := {| upd_conversationSummary := summary N;
                      upd_projectUpdate := None; upd_decisionsUpdate := None;
                      upd_nextStepsUpdate := None; upd_topic := target |};
       job_target := target; job_dir := dir; job_timestamp := clock w |} in
  let nl := String "010"%char EmptyString in
  let section N :=
    nl +:+ nl +:+ "## Update: " +:+ toISOString (clock w) +:+
    match target with
    | Some t => " (Topic: " +:+ t +:+ ")"
    | None => EmptyString
    end +:+ nl +:+ summary N +:+ nl +:+ nl in
  0 ≤ toolCallCount cs < 9007199254740992 →
  ∃ w',
    incrementToolCallCounter w = (Ret tt, w') ∧
    (toolCallCount (cacheState w') = n ∧
     isInitialized (cacheState w') = isInitialized cs ∧
     cacheDir (cacheState w') = cacheDir cs ∧
     currentTopic (cacheState w') = currentTopic cs ∧
     autoUpdateEnabled (cacheState w') = autoUpdateEnabled cs ∧
     updateInterval (cacheState w') = updateInterval cs ∧
     lastUpdate (cacheState w') = lastUpdate cs ∧
     activeTopic (cacheState w') = activeTopic cs ∧
     hasCreatePermission (cacheState w') = hasCreatePermission cs ∧
     permissionGrantedAt (cacheState w') = permissionGrantedAt cs ∧
     topicAutoUpdateSettings (cacheState w') = topicAutoUpdateSettings cs ∧
     disk w' = disk w ∧ console w' = console w ∧ clock w' = clock w) ∧
    should_auto_update cs =
      match target with
      | Some t => default false (topicAutoUpdateSettings cs !! t)
      | None => autoUpdateEnabled cs
      end ∧
    (due →
     incrementToolCallCounter w =
       start_update (job_args (job n)) (set_cacheState (with_count n cs) w)) ∧
    (inflight w' =
       inflight w ++ [job n] ↔ due ∧ exists_on (disk w) dir = true) ∧
    (¬ (due ∧ exists_on (disk w) dir = true) → inflight w' = inflight w) ∧
    (due → exists_on (disk w) dir = true → inflight w = [] →
     path_join dir "conversation_log.md" ∉ denied (disk w) →
     ∃ saved,
       journal (disk (after settle w')) =
         journal (disk w) ++
         [EvWrite (path_join dir "conversation_log.md") (section n) Append] ++ saved ∧
       rewrites_manifest (cacheDir cs) saved ∧
       inflight (after settle w') = []) ∧
    (0 < updateInterval cs →
     toolCallCount cs + updateInterval cs ≤ 9007199254740992 →
     should_auto_update cs = true → isInitialized cs = true →
     exists_on (disk w) dir = true →
     ∃ N, n ≤ N ≤ toolCallCount cs + updateInterval cs ∧ (updateInterval cs | N) ∧
          ticks (Z.to_nat (updateInterval cs)) w =
            (Ret tt,
             set_inflight (inflight w ++ [job N])
               (set_cacheState (with_count (toolCallCount cs + updateInterval cs) cs) w))).
Proof.
  intros cs n target dir due summary job nl section Hc.
  pose proof (incrementToolCallCounter_run w) as Hrun. cbv zeta in Hrun.
  fold cs in Hrun.
  rewrite (should_auto_update_ext cs (counted cs)) in Hrun by done.
  cbn [toolCallCount updateInterval isInitialized cacheDir activeTopic counted] in Hrun.
  fold n in Hrun.
  rewrite getCacheDirectory_match in Hrun. fold target dir in Hrun.
  assert (Hjob : {| job_args := auto_update_args (counted cs) (clock w);
                    job_target := target; job_dir := dir; job_timestamp := clock w |}
                 = job n) by reflexivity.
  rewrite Hjob in Hrun. clear Hjob.
  assert (Hdue : should_auto_update cs && isInitialized cs
                 && rem_is_zero n (updateInterval cs) = true ↔ due).
  { unfold due. rewrite !andb_true_iff, rem_is_zero_divide by (unfold n; lia). tauto. }
  assert (Hne : ∀ l (j : UpdateJob), l ≠ l ++ [j]).
  { intros l j E. apply (f_equal length) in E. rewrite length_app in E. simpl in E. lia. }
  eexists. split; [exact Hrun|].
  split.
  { destruct (_ && _ && _ && _); cbn; done. }
  split.
  { unfold should_auto_update, topic_setting. fold target.
    destruct target as [t|]; [|done].
    by destruct (topicAutoUpdateSettings cs !! t) as [[]|]. }
  split.
  { intros Hd. apply Hdue in Hd.
    unfold incrementToolCallCounter. do 2 step. fold cs.
    rewrite (should_auto_update_ext cs (counted cs)) by done.
    cbn [toolCallCount updateInterval isInitialized counted]. fold n.
    rewrite Hd. by step. }
  split.
  { destruct (should_auto_update cs && isInitialized cs
              && rem_is_zero n (updateInterval cs)) eqn:Ed; cbn [andb].
    - destruct (exists_on (disk w) dir); cbn [inflight set_inflight set_cacheState].
      + split; [|done]. intros _. split; [by apply Hdue|done].
      + split; [by intros ?%Hne|]. by intros [_ ?].
    - cbn [inflight set_inflight set_cacheState]. split; [by intros ?%Hne|].
      intros [Hd%Hdue _]. congruence. }
  split.
  { intros Hn.
    destruct (should_auto_update cs && isInitialized cs
              && rem_is_zero n (updateInterval cs)) eqn:Ed; cbn [andb]; [|done].
    destruct (exists_on (disk w) dir) eqn:Ee; [|done].
    exfalso. apply Hn. split; [by apply Hdue|done]. }
  split.
  { intros Hd%Hdue He Hq Hw. rewrite Hd, He, Hq. cbn [andb app].
    unfold after, settle. cbn [inflight set_inflight complete_updates].
    set (w0 := set_inflight [] _).
    destruct (update_finish_ok (job n) w0) as (logs & saved & Ef & Hsaved).
    { cbn. intros ev ->%list_elem_of_singleton. exact Hw. }
    unfold complete_update, try_catch, bind, ret. rewrite Ef.
    cbn [snd disk evolve inflight]. rewrite replay_journal.
    exists saved. split; [|split; [|done]].
    2: { destruct Hsaved as [->|[m ->]]; [by left|right; by eexists]. }
    unfold update_events, update_entry.
    cbn [job job_args job_target job_dir job_timestamp upd_conversationSummary
         upd_projectUpdate upd_decisionsUpdate upd_nextStepsUpdate truthy app].
    unfold target. rewrite or_null_idemp. reflexivity. }
  intros Hk Hb Hs Hi He.
  destruct (ticks_run (Z.to_nat (updateInterval cs)) w) as (jobs & Et & Hlen & Hall);
    [fold cs; lia|done|].
  fold cs in Et, Hlen, Hall. rewrite getCacheDirectory_match in Hlen, Hall.
  fold target dir in Hlen, Hall.
  rewrite Z2Nat.id in Et, Hlen, Hall by lia.
  rewrite Hs, Hi, He in Hlen. cbn [andb] in Hlen.
  replace (toolCallCount cs + updateInterval cs)
    with (toolCallCount cs + 1 * updateInterval cs) in Hlen by lia.
  rewrite Z.div_add in Hlen by lia.
  destruct jobs as [|j [|j' jobs]]; cbn [length] in Hlen; try lia.
  apply Forall_singleton in Hall as (N & HN & Hd & ->).
  exists N. split; [unfold n; lia|]. split; [done|]. exact Et.
Qed.

Lemma handleInitCache_initialized args w :
  (handleInitCache args w).1 = Ret (init_reply args) →
  ∃ mk logs,
    Forall is_mkdir mk ∧
    handleInitCache args w =
      (Ret (init_reply args),
       evolve (state_after_init (cacheState w) (init_cacheDir args) (init_topic args)
                 (clock w))
         logs
         (mk ++ init_saved args w ++
          initial_events (getCacheDirectory (init_cacheDir args) (init_topic args))
            (init_context args (clock w)))
         w).
Proof.
  intros Hr.
  destruct (exists_on (disk w) (getCacheDirectory (init_cacheDir args) (init_topic args)))
    eqn:He.
  2: destruct (init_confirmCreate args && init_understoodGrowth args) eqn:Hc.
  3: { rewrite (handleInitCache_blocked _ _ He Hc) in Hr.
       unfold init_reply in Hr. discriminate. }
  all: rewrite handleInitCache_gate_open in Hr |- * by auto.
  all: unfold try_catch in Hr |- *.
  all: destruct (initialize args w) as [[[t|e]|e] w1] eqn:Ei; try discriminate.
  all: destruct (initialize_inv _ _ _ _ Ei) as (mk & logs & Hmk & E).
  all: rewrite Ei in E; injection E as -> ->; eauto.
Qed.

(** Claim C10: the load of the manifest parses the first 1000 lines of the
    file only; when those lines do not parse -- as for a manifest whose
    text runs over 1000 lines -- it warns and returns the fresh manifest:
    no active session, no archived sessions, version "2.0.0"; the next
    save, here that of [init_cache], writes the new record alone: what the
    file recorded before is gone. *)
Theorem truncated_manifest_is_reset (base : string) (w : World) (content : string) :
  files (disk w) !! manifest_path base = Some content →
  JSON_parse (lines_window 0 1000 content) = None →
  loadSessionManifest base w = (Ret defaultManifest, add_log WarnLoadManifest w) ∧
  defaultManifest =
    {| activeSessions := []; archivedSessions := None; manifestVersion := "2.0.0" |} ∧
  ∀ args t,
    init_cacheDir args = base → or_null (init_topic args) = Some t →
    manifest_path base ∉ denied (disk w) →
    (handleInitCache args w).1 = Ret (init_reply args) →
    manifest_write base
      {| activeSessions :=
           [(t, init_entry (clock w) (default_project_name args) (init_sessionOnly args))];
         archivedSessions := None;
         manifestVersion := "2.0.0" |}
    ∈ journal (disk (after (handleInitCache args) w)).
Proof.
  intros Hf Hp. split; [|split; [done|]].
  - assert (He : exists_on (disk w) (manifest_path base) = true).
    { unfold exists_on. rewrite Hf.
      rewrite (bool_decide_eq_true_2 (is_Some (Some content))) by eauto.
      apply orb_true_r. }
    unfold loadSessionManifest, bind, try_catch, existsSync, readFileInternal, ret,
      throw, log.
    cbv zeta. rewrite He. case_bool_decide; [done|]. by rewrite Hf, Hp.
  - intros args t <- Ht Hd Hr.
    destruct (handleInitCache_initialized _ _ Hr) as (mk & logs & _ & E).
    unfold after. rewrite E. cbn [snd]. unfold evolve. cbn [disk].
    rewrite replay_journal, !elem_of_app. right. right. left.
    unfold init_saved. cbv zeta. rewrite Ht, bool_decide_eq_false_2 by done.
    rewrite manifest_of_eq. cbv zeta. case_bool_decide; [apply list_elem_of_here|].
    rewrite Hf, Hp. apply list_elem_of_here.
Qed.

Lemma create_directories_denied base dir topic w :
  dir ∈ denied (disk w) →
  create_directories base dir topic w =
    (Ret (Some (ErrorResponse (FailedToCreateDirectory ("EACCES: " +:+ dir)))), w).
Proof.
  intros Hd. unfold create_directories, try_catch.
  by rewrite (bind_throw _ _ _ _ _ (createDirectory_denied _ _ Hd)).
Qed.

(** *** Sequences of writes *)

Lemma perform_event_run ev w :
  perform_event ev w =
  if bool_decide (event_path ev ∈ denied (disk w))
  then (Throw ("EACCES: " +:+ event_path ev), w)
  else (Ret tt, evolve (cacheState w) [] [ev] w).
Proof.
  destruct ev as [p c m|p]; cbn [perform_event event_path]; case_bool_decide.
  - by apply writeFile_denied.
  - by apply writeFile_ok.
  - by apply createDirectory_denied.
  - by apply createDirectory_ok.
Qed.

Lemma perform_cons ev evs w :
  perform (ev :: evs) w = (perform_event ev;; perform evs) w.
Proof.
  destruct evs as [|ev' evs]; [|done]. cbn [perform]. unfold bind, ret.
  by destruct (perform_event ev w) as [[[]|e] w1].
Qed.

(** A sequence of calls stops at the first one that fails: what was done
    is a prefix of the sequence, all of it when no path is denied. *)
Lemma perform_run evs w :
  ∃ written,
    written `prefix_of` evs ∧
    (perform evs w).2 = evolve (cacheState w) [] written w ∧
    ((perform evs w).1 = Ret tt → written = evs) ∧
    ((∀ ev, ev ∈ evs → event_path ev ∉ denied (disk w)) →
     perform evs w = (Ret tt, evolve (cacheState w) [] evs w)) ∧
    ((∃ ev, ev ∈ evs ∧ event_path ev ∈ denied (disk w)) →
     ∃ e, (perform evs w).1 = Throw e).
Proof.
  revert w. induction evs as [|ev evs IH]; intros w.
  - exists []. split; [done|]. split; [by rewrite evolve_id|]. split; [done|].
    split; [intros _; cbn; unfold ret; by rewrite evolve_id|].
    by intros (ev & ?%elem_of_nil & _).
  - rewrite perform_cons. unfold bind. rewrite perform_event_run.
    case_bool_decide as Hd.
    + exists []. split; [apply prefix_nil|]. split; [by rewrite evolve_id|].
      split; [done|].
      split; [intros Hall; exfalso; apply (Hall ev); [left|done]|]. eauto.
    + destruct (IH (evolve (cacheState w) [] [ev] w))
        as (written & Hp & Hw & Hret & Hok & Hfail).
      rewrite denied_evolve in Hok, Hfail. cbn [cacheState evolve] in Hw, Hok.
      rewrite evolve_evolve in Hw, Hok. cbn [app] in Hw, Hok.
      exists (ev :: written). split; [by apply prefix_cons|]. split; [done|].
      split; [by intros ->%Hret|]. split.
      * intros Hall. apply Hok. intros ev' Hin. apply Hall. by right.
      * intros (ev' & [->|Hin]%elem_of_cons & Hden); [done|]. apply Hfail. eauto.
Qed.

Lemma write_initial_files_perform dir ctx w :
  write_initial_files dir ctx w = perform (initial_events dir ctx) w.
Proof. reflexivity. Qed.

Lemma append_updates_perform dir ts target args w :
  append_updates dir ts target args w = perform (update_events dir ts target args) w.
Proof.
  unfold append_updates, update_events, append_optional.
  destruct (truthy (upd_projectUpdate args)), (truthy (upd_decisionsUpdate args)),
    (truthy (upd_nextStepsUpdate args)); cbn [app perform perform_event]; try reflexivity.
  all: unfold bind, ret.
  all: repeat match goal with
         | |- context [writeFile ?p ?c ?m ?w] =>
             destruct (writeFile p c m w) as [[[]|?] ?]
         end; reflexivity.
Qed.


(** Whatever its outcome, [initialize] has created directories, then saved
    the manifest at most once, then written a prefix of the five files. *)
Lemma initialize_run args w :
  let base := init_cacheDir args in
  let dir := getCacheDirectory base (init_topic args) in
  let events := initial_events dir (init_context args (clock w)) in
  ∃ mk saved written,
    Forall is_mkdir mk ∧
    (saved = [] ∨ saved = init_saved args w) ∧
    written `prefix_of` events ∧
    disk (initialize args w).2 = replay (mk ++ saved ++ written) (disk w) ∧
    (dir ∉ denied (disk w) → base ∉ denied (disk w) →
     (∃ ev, ev ∈ events ∧ event_path ev ∈ denied (disk w)) →
     ∃ e, (initialize args w).1 = Throw e).
Proof.
  intros base dir events.
  destruct (create_directories_run base dir (init_topic args) w)
    as (r & mk & Ec & Hmk & Hr & _ & Hok).
  unfold initialize. cbv zeta. fold base dir. rewrite (bind_run _ _ _ _ _ Ec).
  destruct Hr as [->|[e ->]].
  2: { exists mk, [], []. split; [done|]. split; [by left|].
       split; [apply prefix_nil|].
       split; [unfold ret; cbn [snd disk evolve]; by rewrite !app_nil_r|].
       intros Hd Hb _. by specialize (Hok Hd Hb). }
  step.
  destruct (register_topic_run base (init_topic args)
              (init_entry (clock w) (default_project_name args) (init_sessionOnly args))
              (evolve (cacheState w) [] mk w)) as [logs Er].
  rewrite denied_evolve, (manifest_of_mkdirs _ _ _ _ _ Hmk), evolve_evolve in Er.
  cbn [cacheState evolve] in Er. fold (init_saved args w) in Er.
  cbn [clock evolve]. rewrite (bind_run _ _ _ _ _ Er).
  match goal with
  | |- context [bind (write_initial_files _ _) _ ?w'] => set (w1 := w')
  end.
  destruct (perform_run events w1) as (written & Hp & Hw & _ & Hall & Hfail).
  assert (Hd1 : denied (disk w1) = denied (disk w)) by apply denied_evolve.
  rewrite Hd1 in Hall, Hfail.
  exists mk, (init_saved args w), written.
  split; [exact Hmk|]. split; [by right|]. split; [exact Hp|].
  pose proof (write_initial_files_perform dir (init_context args (clock w)) w1) as Ew.
  fold events in Ew.
  destruct (perform events w1) as [[[]|e] w2] eqn:Ep; cbn [snd fst] in *.
  - rewrite (bind_run _ _ _ _ _ Ew). split.
    + do 3 step. unfold ret. cbn [snd disk set_cacheState]. rewrite Hw.
      unfold w1. cbn [disk evolve]. by rewrite <- !replay_app, <- app_assoc.
    + intros _ _ Hden. destruct (Hfail Hden) as [e He]. done.
  - rewrite (bind_throw _ _ _ _ _ Ew). cbn [fst snd].
    split; [|intros _ _ _; by exists e].
    rewrite Hw. unfold w1. cbn [disk evolve].
    by rewrite <- !replay_app, <- app_assoc.
Qed.



Lemma update_events_denied dir ts target args d :
  (path_join dir "conversation_log.md" ∈ denied d ∨
   truthy (upd_projectUpdate args) = true ∧
     path_join dir "current_project_state.md" ∈ denied d ∨
   truthy (upd_decisionsUpdate args) = true ∧
     path_join dir "decisions_made.md" ∈ denied d ∨
   truthy (upd_nextStepsUpdate args) = true ∧
     path_join dir "next_steps.md" ∈ denied d) →
  ∃ ev, ev ∈ update_events dir ts target args ∧ event_path ev ∈ denied d.
Proof.
  unfold update_events.
  intros [Hd|[[Ht Hd]|[[Ht Hd]|[Ht Hd]]]]; rewrite ?Ht.
  - exists (EvWrite (path_join dir "conversation_log.md")
              (update_entry "Update" ts target (upd_conversationSummary args)) Append).
    split; [|exact Hd]. apply elem_of_app. left. apply list_elem_of_here.
  - exists (EvWrite (path_join dir "current_project_state.md")
              (update_entry "Project Update" ts target
                 (or_else (upd_projectUpdate args) EmptyString)) Append).
    split; [|exact Hd].
    apply elem_of_app. right. apply elem_of_app. left. apply list_elem_of_here.
  - exists (EvWrite (path_join dir "decisions_made.md")
              (update_entry "Decision Update" ts target
                 (or_else (upd_decisionsUpdate args) EmptyString)) Append).
    split; [|exact Hd].
    do 2 (apply elem_of_app; right). apply elem_of_app. left. apply list_elem_of_here.
  - exists (EvWrite (path_join dir "next_steps.md")
              (update_entry "Next Steps Update" ts target
                 (or_else (upd_nextStepsUpdate args) EmptyString)) Append).
    split; [|exact Hd].
    do 3 (apply elem_of_app; right). apply list_elem_of_here.
Qed.

(** Claim C8, as amended: the load and the save of the manifest never
    raise -- a missing or unreadable manifest is replaced by the fresh one,
    and a save that fails is only logged with [console.warn] -- so, on a
    manifest file that the cache wrote and that cannot be written again,
    [archive_cache] of a topic with a plain name and [cleanup_cache] report
    success, leaving the disk as
    it was, and [init_cache] and [update_cache] succeed whether or not the
    manifest can be written, as soon as their directories and cache files
    can; the failure of another write is surfaced as an error response: of
    the creation of the directory or the write of one of the five files in
    [init_cache], and of the append to any of the files in
    [update_cache]. *)
Theorem manifest_failures_are_only_logged :
  (∀ base m w, ∃ w1, saveSessionManifest base m w = (Ret tt, w1)) ∧
  (∀ base w, ∃ m w1, loadSessionManifest base w = (Ret m, w1)) ∧
  (∀ base w,
     exists_on (disk w) (manifest_path base) = false →
     loadSessionManifest base w = (Ret defaultManifest, w)) ∧
  (∀ base w,
     exists_on (disk w) (manifest_path base) = true →
     manifest_path base ∈ unreadable (disk w) →
     loadSessionManifest base w = (Ret defaultManifest, add_log WarnLoadManifest w)) ∧
  (∀ base m w,
     manifest_path base ∈ denied (disk w) →
     saveSessionManifest base m w =
       (Ret tt, add_log (WarnSaveManifest ("EACCES: " +:+ manifest_path base)) w)) ∧
  (∀ args w,
     arch_confirmArchive args = true →
     plain_name (arch_topic args) = true →
     typed_manifest_file (disk w) (arch_cacheDir args) →
     exists_on (disk w) (getCacheDirectory (arch_cacheDir args) (Some (arch_topic args)))
       = true →
     has_key (arch_topic args)
       (activeSessions (manifest_of w (arch_cacheDir args))) →
     manifest_path (arch_cacheDir args) ∈ denied (disk w) →
     succeeds (handleArchiveCache args w) ∧
     disk (after (handleArchiveCache args) w) = disk w) ∧
  (∀ args w,
     clean_confirmCleanup args = true →
     typed_manifest_file (disk w) (clean_cacheDir args) →
     exists_on (disk w) (clean_cacheDir args) = true →
     manifest_path (clean_cacheDir args) ∈ denied (disk w) →
     succeeds (handleCleanupCache args w) ∧
     disk (after (handleCleanupCache args) w) = disk w) ∧
  (∀ args w,
     let dir := getCacheDirectory (init_cacheDir args) (init_topic args) in
     typed_manifest_file (disk w) (init_cacheDir args) →
     (exists_on (disk w) dir = true ∨
      init_confirmCreate args && init_understoodGrowth args = true) →
     dir ∉ denied (disk w) → init_cacheDir args ∉ denied (disk w) →
     (∀ f, path_join dir (file_name f) ∉ denied (disk w)) →
     (handleInitCache args w).1 = Ret (init_reply args)) ∧
  (∀ args w,
     let cs := cacheState w in
     let target := resolve_target (upd_topic args) cs in
     let dir := getCacheDirectory (cacheDir cs) target in
     isInitialized cs = true → exists_on (disk w) dir = true →
     path_join dir "conversation_log.md" ∉ denied (disk w) →
     (truthy (upd_projectUpdate args) = true →
      path_join dir "current_project_state.md" ∉ denied (disk w)) →
     (truthy (upd_decisionsUpdate args) = true →
      path_join dir "decisions_made.md" ∉ denied (disk w)) →
     (truthy (upd_nextStepsUpdate args) = true →
      path_join dir "next_steps.md" ∉ denied (disk w)) →
     succeeds (handleUpdateCache args w)) ∧
  (∀ args w,
     let dir := getCacheDirectory (init_cacheDir args) (init_topic args) in
     (exists_on (disk w) dir = true ∨
      init_confirmCreate args && init_understoodGrowth args = true) →
     dir ∈ denied (disk w) →
     handleInitCache args w =
       (Ret (ErrorResponse (FailedToCreateDirectory ("EACCES: " +:+ dir))), w)) ∧
  (∀ args w f,
     let dir := getCacheDirectory (init_cacheDir args) (init_topic args) in
     (exists_on (disk w) dir = true ∨
      init_confirmCreate args && init_understoodGrowth args = true) →
     dir ∉ denied (disk w) → init_cacheDir args ∉ denied (disk w) →
     path_join dir (file_name f) ∈ denied (disk w) →
     ∃ error, (handleInitCache args w).1 = Ret (ErrorResponse (InitializationFailed error))) ∧
  (∀ args w,
     let cs := cacheState w in
     let dir := getCacheDirectory (cacheDir cs) (resolve_target (upd_topic args) cs) in
     isInitialized cs = true → exists_on (disk w) dir = true →
     (path_join dir "conversation_log.md" ∈ denied (disk w) ∨
      truthy (upd_projectUpdate args) = true ∧
        path_join dir "current_project_state.md" ∈ denied (disk w) ∨
      truthy (upd_decisionsUpdate args) = true ∧
        path_join dir "decisions_made.md" ∈ denied (disk w) ∨
      truthy (upd_nextStepsUpdate args) = true ∧
        path_join dir "next_steps.md" ∈ denied (disk w)) →
     ∃ error, (handleUpdateCache args w).1 = Ret (ErrorResponse (UpdateFailed error))).
Proof.
  split; [|split; [|split; [|split; [|split; [|split; [|split; [|split; [|split;
    [|split; [|split]]]]]]]]]].
  - intros base m w. rewrite saveSessionManifest_run. eauto.
  - intros base w. destruct (loadSessionManifest_run base w) as [logs E]. eauto.
  - intros base w He. unfold loadSessionManifest, try_catch. cbv zeta.
    unfold bind at 1 2. unfold existsSync at 1. by rewrite He.
  - intros base w He Hu. unfold loadSessionManifest, try_catch. cbv zeta.
    unfold bind at 1 2. unfold existsSync at 1. rewrite He.
    unfold bind at 1. unfold readFileInternal at 1.
    by rewrite bool_decide_eq_true_2.
  - intros base m w Hd. rewrite saveSessionManifest_run.
    by rewrite bool_decide_eq_true_2, add_log_evolve.
  - intros args w Hc _ _ He Hk Hd.
    pose proof (handleArchiveCache_run args w Hc) as Hrun. cbv zeta in Hrun.
    rewrite He in Hrun. destruct Hrun as [logs Hrun].
    destruct (obj_get _ _) as [info|] eqn:Hg; [|by apply obj_get_None in Hg].
    rewrite bool_decide_eq_true_2 in Hrun by done.
    unfold succeeds, after. rewrite Hrun. done.
  - intros args w Hc _ He Hd.
    destruct (handleCleanupCache_run args w Hc He) as [logs Hrun].
    rewrite bool_decide_eq_true_2 in Hrun by done.
    unfold succeeds, after. rewrite Hrun. done.
  - intros args w dir _ Hopen Hd Hb Hw.
    rewrite (handleInitCache_gate_open _ _ Hopen). unfold try_catch.
    destruct (initialize_ok args w Hd Hb) as [w1 ->]; [|done].
    intros ev Hev. fold dir in Hev. unfold initial_events in Hev.
    repeat (apply elem_of_cons in Hev as [->|Hev]); [..|by apply elem_of_nil in Hev].
    + apply (Hw ConversationLog).
    + apply (Hw ProjectState).
    + apply (Hw Decisions).
    + apply (Hw NextSteps).
    + apply (Hw Protocol).
  - intros args w cs target dir Hi He Hlog Hp Hd Hn.
    apply handleUpdateCache_ok; [done..|]. fold cs target dir.
    unfold update_events. intros ev Hev.
    apply elem_of_app in Hev as [Hev|Hev];
      [apply list_elem_of_singleton in Hev as ->; exact Hlog|].
    apply elem_of_app in Hev as [Hev|Hev].
    { destruct (truthy (upd_projectUpdate args)); [|by apply elem_of_nil in Hev].
      apply list_elem_of_singleton in Hev as ->. by apply Hp. }
    apply elem_of_app in Hev as [Hev|Hev].
    { destruct (truthy (upd_decisionsUpdate args)); [|by apply elem_of_nil in Hev].
      apply list_elem_of_singleton in Hev as ->. by apply Hd. }
    destruct (truthy (upd_nextStepsUpdate args)); [|by apply elem_of_nil in Hev].
    apply list_elem_of_singleton in Hev as ->. by apply Hn.
  - intros args w dir Hopen Hd.
    rewrite (handleInitCache_gate_open _ _ Hopen). unfold try_catch, initialize.
    cbv zeta. fold dir.
    by rewrite (bind_run _ _ _ _ _ (create_directories_denied _ _ _ _ Hd)).
  - intros args w f dir Hopen Hd Hb Hf.
    rewrite (handleInitCache_gate_open _ _ Hopen). unfold try_catch.
    destruct (initialize_run args w) as (_ & _ & _ & _ & _ & _ & _ & Hfail).
    destruct (Hfail Hd Hb) as [e He].
    { exists (EvWrite (path_join dir (file_name f))
                (initial_content f (init_context args (clock w))) Rewrite).
      split; [|exact Hf]. unfold initial_events. fold dir.
      destruct f; cbn [file_name]; repeat first [apply list_elem_of_here | apply list_elem_of_further]. }
    destruct (initialize args w) as [[r|e'] w1]; cbn [fst] in He; [done|].
    unfold ret. cbn. eauto.
  - intros args w cs dir Hi He Hden.
    apply (update_events_denied dir (clock w) (resolve_target (upd_topic args) cs) args)
      in Hden.
    rewrite handleUpdateCache_unfold. unfold try_catch. step. fold cs dir. rewrite Hi.
    cbn [negb]. step. rewrite He. cbn [negb]. step.
    destruct (perform_run (update_events dir (clock w) (resolve_target (upd_topic args) cs)
                             args) w) as (_ & _ & _ & _ & _ & Hfail).
    destruct (Hfail Hden) as [e Hthrow].
    rewrite <- append_updates_perform in Hthrow.
    destruct (append_updates _ _ _ _ w) as [[[]|e'] w1] eqn:Ea; cbn [fst] in Hthrow;
      [done|].
    rewrite (bind_throw _ _ _ _ _ Ea). unfold ret. cbn. eauto.
Qed.

(** ** The two maps of the manifest *)

Lemma keeps_disk_ret {A} (a : A) : keeps_disk (ret a).
Proof. done. Qed.

Lemma keeps_disk_bind {A B} (m : M A) (k : A → M B) :
  keeps_disk m → (∀ a, keeps_disk (k a)) → keeps_disk (bind m k).
Proof.
  intros Hm Hk w. unfold bind. specialize (Hm w).
  destruct (m w) as [[a|e] w1]; simpl in *; [|done].
  by rewrite Hk.
Qed.

Lemma keeps_disk_try_catch {A} (m : M A) h :
  keeps_disk m → (∀ e, keeps_disk (h e)) → keeps_disk (try_catch m h).
Proof.
  intros Hm Hh w. unfold try_catch. specialize (Hm w).
  destruct (m w) as [[a|e] w1]; simpl in *; [done|].
  by rewrite Hh.
Qed.

Lemma keeps_disk_get_state : keeps_disk get_state.
Proof. done. Qed.

Lemma keeps_disk_put_state cs : keeps_disk (put_state cs).
Proof. done. Qed.

Lemma keeps_disk_existsSync p : keeps_disk (existsSync p).
Proof. done. Qed.

Lemma keeps_disk_readFile p isUrl offset length : keeps_disk (readFile p isUrl offset length).
Proof.
  intros w. unfold readFile, readFileInternal, throw, ret.
  repeat (case_match; simpl; try done).
Qed.

Lemma keeps_disk_loadSessionManifest base : keeps_disk (loadSessionManifest base).
Proof.
  intros w. destruct (loadSessionManifest_run base w) as [logs ->]. done.
Qed.

Lemma keeps_disk_load_sections dir names : keeps_disk (load_sections dir names).
Proof.
  induction names as [|file rest IH]; simpl; [apply keeps_disk_ret|].
  apply keeps_disk_bind.
  - apply keeps_disk_try_catch; [|intros; apply keeps_disk_ret].
    apply keeps_disk_bind; [apply keeps_disk_readFile|].
    intros []; apply keeps_disk_ret.
  - intros s. apply keeps_disk_bind; [done|]. intros; apply keeps_disk_ret.
Qed.

Ltac keeps_disk :=
  repeat first
    [ apply keeps_disk_ret | apply keeps_disk_get_state | apply keeps_disk_put_state
    | apply keeps_disk_existsSync | apply keeps_disk_loadSessionManifest
    | apply keeps_disk_load_sections
    | apply keeps_disk_try_catch | apply keeps_disk_bind
    | match goal with
      | |- ∀ _, _ => intro
      | |- keeps_disk (if ?b then _ else _) => destruct b
      | |- keeps_disk (match ?x with _ => _ end) => destruct x
      end ].





(** Without the confirmation [archive_cache] and [cleanup_cache] only ask
    for it. *)
Lemma handleArchiveCache_unconfirmed args w :
  arch_confirmArchive args = false → after (handleArchiveCache args) w = w.
Proof. intros Hc. unfold after, handleArchiveCache. cbv zeta. by rewrite Hc. Qed.

Lemma handleCleanupCache_unconfirmed args w :
  clean_confirmCleanup args = false → after (handleCleanupCache args) w = w.
Proof. intros Hc. unfold after, handleCleanupCache. cbv zeta. by rewrite Hc. Qed.































End Proofs.

(** * The claims on Node

    Closed runs of the handlers on [NodePlatform]: instances of the
    theorems above, and the runs on which the handlers differ from what was
    claimed of them. *)




(** Instance of C3: "a" was last used forty days before "b", the active
    topic. *)
Lemma cleanup_contract_witness :
  clean_confirmCleanup demo_cleanup = true ∧
  exists_on (disk two_topics) (clean_cacheDir demo_cleanup) = true ∧
  @typed_manifest_file NodePlatform (disk two_topics) (clean_cacheDir demo_cleanup) ∧
  plain_keys
    (activeSessions (@manifest_of NodePlatform two_topics (clean_cacheDir demo_cleanup)))
  = true ∧
  StronglySorted most_recent_first
    (sort_sessions
       (activeSessions (@manifest_of NodePlatform two_topics (clean_cacheDir demo_cleanup)))) ∧
  topicAutoUpdateSettings
    (cacheState (@handleCleanupCache NodePlatform demo_cleanup two_topics).2) !! "a" = None ∧
  dirs (disk (@handleCleanupCache NodePlatform demo_cleanup two_topics).2) =
  dirs (disk two_topics).
Proof.
  assert (He : exists_on (disk two_topics) (clean_cacheDir demo_cleanup) = true)
    by (vm_compute; reflexivity).
  assert (Ht : @typed_manifest_file NodePlatform (disk two_topics)
                 (clean_cacheDir demo_cleanup)).
  { apply (@typed_manifest_file_holds NodePlatform _ _
             (@manifest_of NodePlatform two_topics "/cache")).
    vm_compute. reflexivity. }
  assert (Hk : plain_keys
                 (activeSessions
                    (@manifest_of NodePlatform two_topics (clean_cacheDir demo_cleanup)))
               = true) by (vm_compute; reflexivity).
  pose proof (@cleanup_contract NodePlatform demo_cleanup two_topics eq_refl He Ht Hk) as H.
  cbv zeta in H. destruct H as (_ & Hsorted & _ & _ & Hgone & _ & _ & Hdirs & _).
  split; [reflexivity|]. split; [exact He|]. split; [exact Ht|]. split; [exact Hk|].
  split; [exact Hsorted|]. split; [|exact Hdirs].
  apply Hgone. exists 1%nat. eexists. split; [vm_compute; reflexivity|]. split.
  - left. exists 1700864000000. split; vm_compute; reflexivity.
  - vm_compute. intros [=].
Defined.

(** Scenario D of the specification: "a" leaves [activeSessions], "b"
    stays, and the disk holds what it held, but for the manifest. *)
Lemma cleanup_of_two_topics :
  (@handleCleanupCache NodePlatform demo_cleanup two_topics).1 =
    Ret (Content (CleanupComplete 30 10 (Some 1700864000000)
                    ["a (a Project) - Directory: /cache/a"] ["b (b Project)"] 1)) ∧
  obj_keys (activeSessions
              (@manifest_of NodePlatform
                 (after (@handleCleanupCache NodePlatform demo_cleanup) two_topics)
                 "/cache")) = ["b"].
Proof. split; vm_compute; reflexivity. Qed.

(** Instance of C4: three tool calls in a row with the auto-update of the
    active topic enabled every three calls leave one update in flight. *)
Lemma tick_contract_witness :
  0 ≤ toolCallCount (cacheState demo_ticking) < 9007199254740992 ∧
  ∃ w1,
    @ticks NodePlatform (Z.to_nat (updateInterval (cacheState demo_ticking))) demo_ticking
    = (Ret tt, w1) ∧
    toolCallCount (cacheState w1) = 3 ∧
    length (inflight w1) = 1%nat.
Proof.
  assert (Hc : 0 ≤ toolCallCount (cacheState demo_ticking) < 9007199254740992)
    by (vm_compute; split; [discriminate|reflexivity]).
  pose proof (@tick_contract NodePlatform demo_ticking) as H. cbv zeta in H.
  destruct (H Hc) as (w' & _ & _ & _ & _ & _ & _ & _ & Hticks).
  split; [exact Hc|].
  destruct Hticks as (N & _ & _ & E); try (vm_compute; reflexivity).
  { vm_compute. discriminate. }
  eexists. split; [exact E|]. split; reflexivity.
Defined.

(** Instance of C9: "b" is the active topic, the update names "a". *)
Lemma update_switches_active_topic_witness :
  succeeds (@handleUpdateCache NodePlatform demo_update two_topics) ∧
  activeTopic (cacheState two_topics) = Some "b" ∧
  activeTopic (cacheState (after (@handleUpdateCache NodePlatform demo_update) two_topics))
  = Some "a".
Proof.
  assert (Hs : succeeds (@handleUpdateCache NodePlatform demo_update two_topics))
    by (vm_compute; exact I).
  pose proof (@update_switches_active_topic NodePlatform demo_update two_topics Hs) as H.
  cbv zeta in H. destruct H as (Ht & _).
  split; [exact Hs|]. split; [vm_compute; reflexivity|].
  assert (Ha : or_null (resolve_target (upd_topic demo_update) (cacheState two_topics)) =
               Some "a") by (vm_compute; reflexivity).
  destruct (Ht "a" Ha) as [Hactive _]. exact Hactive.
Defined.

(** Instance of C10: the text of a manifest of two hundred topics has 1205
    lines; its first 1000 lines do not parse, the load answers with the
    fresh manifest, and [init_cache] saves "demo" alone. *)
Lemma truncated_manifest_is_reset_witness :
  files (disk long_manifest_world) !! @manifest_path NodePlatform "/cache" =
    Some (Node.stringify long_manifest) ∧
  @JSON_parse NodePlatform (lines_window 0 1000 (Node.stringify long_manifest)) = None ∧
  length (split_lines (Node.stringify long_manifest)) = 1205%nat ∧
  @loadSessionManifest NodePlatform "/cache" long_manifest_world =
    (Ret defaultManifest, add_log WarnLoadManifest long_manifest_world) ∧
  @manifest_write NodePlatform "/cache"
    {| activeSessions :=
         [("demo", init_entry (clock long_manifest_world)
                     (default_project_name demo_init) (init_sessionOnly demo_init))];
       archivedSessions := None;
       manifestVersion := "2.0.0" |}
  ∈ journal (disk (after (@handleInitCache NodePlatform demo_init) long_manifest_world)).
Proof.
  assert (Hf : files (disk long_manifest_world) !! @manifest_path NodePlatform "/cache" =
               Some (Node.stringify long_manifest)) by reflexivity.
  assert (Hp : @JSON_parse NodePlatform
                 (lines_window 0 1000 (Node.stringify long_manifest)) = None)
    by (vm_compute; reflexivity).
  destruct (@truncated_manifest_is_reset NodePlatform "/cache" long_manifest_world _ Hf Hp)
    as (Hload & _ & Hinit).
  split; [exact Hf|]. split; [exact Hp|]. split; [vm_compute; reflexivity|].
  split; [exact Hload|].
  apply (Hinit demo_init "demo").
  - reflexivity.
  - reflexivity.
  - apply not_elem_of_empty.
  - vm_compute. reflexivity.
Defined.

(** Against C8: the manifest file cannot be written, [archive_cache]
    answers that the topic was archived; the failure is a line of
    [console.warn], the disk is as before, and the manifest still lists the
    topic as active. *)
Lemma archive_succeeds_on_a_locked_manifest :
  (@handleArchiveCache NodePlatform demo_archive demo_locked).1 =
    Ret (Content (TopicArchived "demo" "demo Project" "/cache/demo" 1700000000000)) ∧
  disk (after (@handleArchiveCache NodePlatform demo_archive) demo_locked) =
    disk demo_locked ∧
  console (after (@handleArchiveCache NodePlatform demo_archive) demo_locked) =
    console demo_locked ++ [WarnSaveManifest "EACCES: /cache/session_manifest.json"] ∧
  has_key "demo"
    (activeSessions
       (@manifest_of NodePlatform
          (after (@handleArchiveCache NodePlatform demo_archive) demo_locked) "/cache")).
Proof.
  split; [vm_compute; reflexivity|]. split; [vm_compute; reflexivity|].
  split; [vm_compute; reflexivity|]. vm_compute. left. reflexivity.
Qed.

(** The resolver on Node's [path.join]. *)
Lemma getCacheDirectory_on_node :
  @getCacheDirectory NodePlatform "/cache" None = "/cache" ∧
  @getCacheDirectory NodePlatform "/cache" (Some "demo") = "/cache/demo" ∧
  @getCacheDirectory NodePlatform "/cache" (Some "") = "/cache".
Proof. repeat split; vm_compute; reflexivity. Qed.

(** Without the two flags [init_cache] of a new topic asks for them and
    writes nothing; with them it creates the directories, the manifest and
    the five files. *)
Lemma init_of_a_new_topic :
  @handleInitCache NodePlatform (with_consent true false demo_init) demo_world =
    (Ret (Content PermissionRequired), demo_world) ∧
  map event_path (journal (disk demo_initialised)) =
    ["/cache/demo"; "/cache"; "/cache/session_manifest.json";
     "/cache/demo/conversation_log.md"; "/cache/demo/current_project_state.md";
     "/cache/demo/decisions_made.md"; "/cache/demo/next_steps.md";
     "/cache/demo/cache_protocol.md"].
Proof. split; vm_compute; reflexivity. Qed.

(** * Further properties of the handlers *)

Section Coverage.
Context `{Platform}.

(** ** The operations that only report *)




(** ** [load_cache] *)

Lemma load_section_run dir file w :
  load_section dir file w = (Ret (read_section (disk w) dir file), w).
Proof.
  unfold load_section, read_section, try_catch, bind, readFile, readFileInternal, ret.
  cbv zeta. case_bool_decide; [done|].
  destruct (files (disk w) !! path_join dir file) as [content|]; [|done].
  by destruct (lines_window 0 2000 content).
Qed.

Lemma load_sections_run dir names w :
  load_sections dir names w = (Ret (map (read_section (disk w) dir) names), w).
Proof.
  induction names as [|file rest IH]; [done|]. cbn [load_sections map].
  rewrite (bind_run _ _ _ _ _ (load_section_run dir file w)).
  rewrite (bind_run _ _ _ _ _ IH). done.
Qed.

Lemma section_file_read_section d dir file :
  section_file (read_section d dir file) = file.
Proof.
  unfold read_section. cbv zeta. case_bool_decide; [done|].
  destruct (files d !! _) as [content|]; [|done].
  by destruct (lines_window 0 2000 content).
Qed.

Lemma handleLoadCache_target args w :
  let base := load_cacheDir args in
  let topic := load_topic args in
  let dir := getCacheDirectory base topic in
  negb (truthy topic) && negb (load_useLegacy args) = false →
  handleLoadCache args w =
    if load_useLegacy args && negb (truthy topic) && negb (exists_on (disk w) base)
    then (Ret (ErrorResponse (LegacyDirectoryNotFound base)), w)
    else if negb (exists_on (disk w) dir)
    then (Ret (ErrorResponse (CacheDirectoryNotFound dir (or_null topic))), w)
    else (Ret (Content (ContextLoaded dir (or_null topic)
                          (map (read_section (disk w) dir) loaded_files))),
          set_cacheState (state_after_load (cacheState w) base topic) w).
Proof.
  intros base topic dir Hmode.
  unfold handleLoadCache, try_catch. cbv zeta. fold base topic. rewrite Hmode.
  do 2 step. destruct (_ && _ && _); [done|]. fold dir. step.
  destruct (exists_on (disk w) dir); cbn [negb]; [|done].
  rewrite (bind_run _ _ _ _ _ (load_sections_run _ _ _)). by do 2 step.
Qed.

Lemma discover_topics_run base w :
  ∃ logs,
    discover_topics base w =
      (Ret (Some (Content
                    match activeSessions (manifest_of w base) with
                    | _ :: _ =>
                        MultipleTopicsAvailable (activeSessions (manifest_of w base))
                          (exists_on (disk w) base)
                    | [] =>
                        if exists_on (disk w) base then LegacyCacheModeDetected base
                        else NoCacheFound
                    end)),
       evolve (cacheState w) logs [] w).
Proof.
  destruct (loadSessionManifest_run base w) as [logs E]. exists logs.
  unfold discover_topics, try_catch. rewrite (bind_run _ _ _ _ _ E). step.
  change (exists_on (disk (evolve (cacheState w) logs [] w)) base)
    with (exists_on (disk w) base).
  destruct (activeSessions (manifest_of w base)); [|done].
  by destruct (exists_on (disk w) base).
Qed.

Lemma handleLoadCache_look args w :
  let base := load_cacheDir args in
  let topic := load_topic args in
  let cs := cacheState w in
  let r := handleLoadCache args w in
  truthy topic = false → load_useLegacy args = false →
  ∃ logs,
    r = (Ret (Content
                match activeSessions (manifest_of w base) with
                | _ :: _ =>
                    MultipleTopicsAvailable (activeSessions (manifest_of w base))
                      (exists_on (disk w) base)
                | [] =>
                    if exists_on (disk w) base then LegacyCacheModeDetected base
                    else NoCacheFound
                end),
         evolve cs logs [] w).
Proof.
  intros base topic cs r Ht Hl.
  unfold r, handleLoadCache, try_catch. cbv zeta. fold base topic.
  rewrite Ht, Hl. cbn [negb andb].
  destruct (discover_topics_run base w) as [logs E].
  rewrite (bind_run _ _ _ _ _ E). by exists logs.
Qed.

(** Property X2: [load_cache] never writes to the disk.  Without a topic
    and without [useLegacy], on a manifest file that the cache wrote, it
    only looks: the cache state is as before, and the reply lists the active
    sessions of the manifest, or, when there are none, tells whether the
    base directory exists.  With a topic, or in
    legacy mode, a missing directory is an error that changes nothing; on an
    existing directory -- the manifest is not consulted: an archived or
    unregistered topic loads as well -- the reply has one section for each
    of the four files, in order, a readable file giving the first 2000 of
    its lines and a missing file an error section, and the session then is
    initialized on the base directory with the topic as current and active
    topic, the other fields as before. *)
Theorem load_contract (args : LoadCacheArgs) (w : World) :
  let base := load_cacheDir args in
  let topic := load_topic args in
  let dir := getCacheDirectory base topic in
  let cs := cacheState w in
  let r := handleLoadCache args w in
  disk r.2 = disk w ∧
  (truthy topic = false → load_useLegacy args = false →
   typed_manifest_file (disk w) base →
   cacheState r.2 = cs ∧
   r.1 = Ret (Content
                match activeSessions (manifest_of w base) with
                | _ :: _ =>
                    MultipleTopicsAvailable (activeSessions (manifest_of w base))
                      (exists_on (disk w) base)
                | [] =>
                    if exists_on (disk w) base then LegacyCacheModeDetected base
                    else NoCacheFound
                end)) ∧
  (truthy topic = true ∨ load_useLegacy args = true →
   exists_on (disk w) dir = false →
   (∃ e, r.1 = Ret (ErrorResponse e)) ∧ r.2 = w) ∧
  (truthy topic = true ∨ load_useLegacy args = true →
   exists_on (disk w) dir = true →
   ∃ sections,
     r.1 = Ret (Content (ContextLoaded dir (or_null topic) sections)) ∧
     map section_file sections = loaded_files ∧
     (∀ file content,
        file ∈ loaded_files →
        path_join dir file ∉ unreadable (disk w) →
        files (disk w) !! path_join dir file = Some content →
        lines_window 0 2000 content ≠ EmptyString →
        SectionLoaded file (lines_window 0 2000 content) ∈ sections) ∧
     (∀ file,
        file ∈ loaded_files →
        files (disk w) !! path_join dir file = None →
        ∃ error, SectionLoadError file error ∈ sections) ∧
     console r.2 = console w ∧
     cacheState r.2 = state_after_load cs base topic ∧
     isInitialized (cacheState r.2) = true ∧
     cacheDir (cacheState r.2) = base ∧
     currentTopic (cacheState r.2) = or_null topic ∧
     activeTopic (cacheState r.2) = or_null topic).
Proof.
  intros base topic dir cs r.
  pose proof (handleLoadCache_target args w) as Hrun. cbv zeta in Hrun.
  fold base topic dir cs r in Hrun.
  pose proof (handleLoadCache_look args w) as Hlook. cbv zeta in Hlook.
  fold base topic cs r in Hlook.
  split; [|split; [|split]].
  - destruct (truthy topic) eqn:Ht, (load_useLegacy args) eqn:Hl;
      cbn [negb andb] in Hrun.
    4: { destruct (Hlook eq_refl eq_refl) as [logs ->]. done. }
    all: rewrite Hrun by done;
      repeat (match goal with |- context [if ?b then _ else _] => destruct b end); done.
  - intros Ht Hl _. destruct (Hlook Ht Hl) as [logs ->]. done.
  - intros Hmode He.
    assert (negb (truthy topic) && negb (load_useLegacy args) = false) as Hm
      by (destruct Hmode as [-> | ->]; by destruct (truthy topic)).
    rewrite (Hrun Hm), He. cbn [negb].
    destruct (_ && _ && _); eauto.
  - intros Hmode He.
    assert (negb (truthy topic) && negb (load_useLegacy args) = false) as Hm
      by (destruct Hmode as [-> | ->]; by destruct (truthy topic)).
    specialize (Hrun Hm). rewrite He in Hrun. cbn [negb] in Hrun.
    assert (load_useLegacy args && negb (truthy topic) && negb (exists_on (disk w) base)
            = false) as Hleg.
    { destruct (load_useLegacy args), (truthy topic) eqn:Ht; cbn [negb andb]; try done.
      unfold dir, getCacheDirectory in He. fold topic in He. rewrite Ht in He.
      cbn [negb] in He. by rewrite He. }
    rewrite Hleg in Hrun. rewrite Hrun. eexists. split; [reflexivity|].
    split; [|split; [|split]].
    + rewrite map_map. unfold loaded_files. cbn [map].
      by rewrite !section_file_read_section.
    + intros file content Hin Hu Hf Hne. apply list_elem_of_fmap. exists file.
      split; [|done]. unfold read_section. cbv zeta.
      rewrite bool_decide_eq_false_2, Hf by done.
      by destruct (lines_window 0 2000 content).
    + intros file Hin Hf.
      assert (Hs : ∃ error, read_section (disk w) dir file = SectionLoadError file error).
      { unfold read_section. cbv zeta. case_bool_decide; [eauto|]. rewrite Hf. eauto. }
      destruct Hs as [error Hs]. exists error. apply list_elem_of_fmap. by exists file.
    + done.
Qed.

(** ** [auto_update_cache] *)

(** Property X3: [auto_update_cache] never fails and touches neither disk
    nor console, also before any [init_cache]: it stores [enable] as the
    setting of its target -- the topic given, else the active topic -- and
    leaves the settings of the other topics; the global flag becomes
    [enable] when there is no target or the target is the active topic, and
    is kept otherwise; the interval is replaced by a non-zero
    [updateInterval] and kept for zero; no other field changes.  So without
    an explicit topic the trigger of the next tool calls is [enable], and
    with an explicit topic other than the active one it is as before. *)
Theorem configure_contract (args : AutoUpdateCacheArgs) (w : World) :
  let cs := cacheState w in
  let enable := auto_enable args in
  let target := or_null (resolve_target (auto_topic args) cs) in
  let r := handleAutoUpdateCache args w in
  let cs' := cacheState r.2 in
  r.1 = Ret (Content (AutoCacheConfigured enable target (updateInterval cs')
                        (toolCallCount cs))) ∧
  disk r.2 = disk w ∧ console r.2 = console w ∧
  (∀ t, target = Some t →
        topicAutoUpdateSettings cs' !! t = Some enable ∧
        (∀ t', t' ≠ t →
           topicAutoUpdateSettings cs' !! t' = topicAutoUpdateSettings cs !! t') ∧
        autoUpdateEnabled cs' =
          if bool_decide (activeTopic cs = Some t) then enable else autoUpdateEnabled cs) ∧
  (target = None →
   topicAutoUpdateSettings cs' = topicAutoUpdateSettings cs ∧ autoUpdateEnabled cs' = enable) ∧
  updateInterval cs' =
    (if bool_decide (auto_updateInterval args = 0) then updateInterval cs
     else auto_updateInterval args) ∧
  (isInitialized cs' = isInitialized cs ∧ cacheDir cs' = cacheDir cs ∧
   currentTopic cs' = currentTopic cs ∧ toolCallCount cs' = toolCallCount cs ∧
   lastUpdate cs' = lastUpdate cs ∧ activeTopic cs' = activeTopic cs ∧
   hasCreatePermission cs' = hasCreatePermission cs ∧
   permissionGrantedAt cs' = permissionGrantedAt cs) ∧
  (truthy (auto_topic args) = false → should_auto_update cs' = enable) ∧
  (∀ t, auto_topic args = Some t → truthy (Some t) = true → activeTopic cs ≠ Some t →
        should_auto_update cs' = should_auto_update cs).
Proof.
  intros cs enable target r cs'.
  assert (Hcs : cs' = state_after_configure cs args) by reflexivity.
  assert (Hr : r.1 = Ret (Content (AutoCacheConfigured enable target (updateInterval cs')
                                     (toolCallCount cs)))) by reflexivity.
  split; [exact Hr|]. clear Hr.
  split; [reflexivity|]. split; [reflexivity|].
  clearbody cs' r. subst cs'.
  unfold state_after_configure. cbv zeta. fold cs target enable.
  cbn [topicAutoUpdateSettings autoUpdateEnabled updateInterval isInitialized cacheDir
       currentTopic toolCallCount lastUpdate activeTopic hasCreatePermission
       permissionGrantedAt].
  split; [|split; [|split; [|split; [|split]]]].
  - intros t ->. split; [apply lookup_insert_eq|].
    split; [intros t' Hne; by apply lookup_insert_ne|reflexivity].
  - by intros ->.
  - destruct (Z.eqb_spec (auto_updateInterval args) 0) as [He|He].
    + by rewrite bool_decide_eq_true_2.
    + by rewrite bool_decide_eq_false_2.
  - done.
  - intros Ht. unfold should_auto_update, topic_setting.
    cbn [topicAutoUpdateSettings autoUpdateEnabled activeTopic].
    unfold target, resolve_target. rewrite Ht. cbn [negb andb].
    destruct (truthy (activeTopic cs)) eqn:Ha.
    + rewrite (or_null_truthy _ Ha). destruct (activeTopic cs) as [a|]; [|done].
      rewrite lookup_insert_eq. by destruct enable.
    + rewrite (or_null_falsy _ Ha), (or_null_falsy _ Ht). done.
  - intros t Ht Hy Hne. unfold should_auto_update, topic_setting.
    cbn [topicAutoUpdateSettings autoUpdateEnabled activeTopic].
    unfold target, resolve_target. rewrite Ht, Hy. cbn [negb andb].
    rewrite (or_null_truthy _ Hy).
    destruct (or_null (activeTopic cs)) as [a|] eqn:Ha.
    + apply or_null_Some in Ha as [Ha _].
      rewrite lookup_insert_ne; [done|]. intros <-. by apply Hne.
    + unfold strict_eq. by rewrite bool_decide_eq_false_2.
Qed.

(** ** Errors and the cache state *)

Lemma keeps_state_get_state : keeps_state get_state.
Proof. by intros w. Qed.

Lemma keeps_state_now : keeps_state now.
Proof. by intros w. Qed.

Lemma keeps_state_throw {A} e : keeps_state (@throw A e).
Proof. by intros w. Qed.

Lemma keeps_state_existsSync p : keeps_state (existsSync p).
Proof. by intros w. Qed.

Lemma keeps_state_createDirectory p : keeps_state (createDirectory p).
Proof. intros w. unfold createDirectory. by case_bool_decide. Qed.

Lemma keeps_state_readFileInternal p offset length :
  keeps_state (readFileInternal p offset length).
Proof.
  intros w. unfold readFileInternal. case_bool_decide; [done|].
  by destruct (files (disk w) !! p).
Qed.

Ltac keeps_state :=
  repeat first
    [ apply keeps_state_ret | apply keeps_state_get_state | apply keeps_state_now
    | apply keeps_state_throw | apply keeps_state_existsSync
    | apply keeps_state_createDirectory | apply keeps_state_readFileInternal
    | apply keeps_state_writeFile | apply keeps_state_log
    | apply keeps_state_append_updates
    | apply keeps_state_try_catch | apply keeps_state_bind
    | match goal with
      | |- ∀ _, _ => intro
      | |- keeps_state (if ?b then _ else _) => destruct b
      | |- keeps_state (match ?x with _ => _ end) => destruct x
      end ].













Lemma put_state_content cs t w :
  ∃ t', ((put_state cs;; ret (Content t)) w).1 = Ret (Content t').
Proof. by exists t. Qed.










(** ** [init_cache]: the files and the session *)


Lemma NoDup_lookup_ne {A} (l : list A) (i j : nat) x y :
  NoDup l → l !! i = Some x → l !! j = Some y → i ≠ j → x ≠ y.
Proof. intros Hnd Hi Hj Hne ->. apply Hne. by eapply NoDup_lookup. Qed.

Lemma files_initial_events dir ctx d f :
  NoDup (cache_paths dir) →
  files (replay (initial_events dir ctx) d) !! path_join dir (file_name f) =
  Some (initial_content f ctx).
Proof.
  intros Hnd.
  assert (Hne : ∀ i j x y, cache_paths dir !! i = Some x → cache_paths dir !! j = Some y →
                           i ≠ j → x ≠ y)
    by (intros i j x y; by apply NoDup_lookup_ne).
  unfold initial_events, replay. cbn [foldl apply_event write_to files].
  destruct f; cbn [file_name].
  - rewrite lookup_insert_ne by (apply (Hne 4%nat 0%nat); done).
    rewrite lookup_insert_ne by (apply (Hne 3%nat 0%nat); done).
    rewrite lookup_insert_ne by (apply (Hne 2%nat 0%nat); done).
    rewrite lookup_insert_ne by (apply (Hne 1%nat 0%nat); done).
    apply lookup_insert_eq.
  - rewrite lookup_insert_ne by (apply (Hne 4%nat 1%nat); done).
    rewrite lookup_insert_ne by (apply (Hne 3%nat 1%nat); done).
    rewrite lookup_insert_ne by (apply (Hne 2%nat 1%nat); done).
    apply lookup_insert_eq.
  - rewrite lookup_insert_ne by (apply (Hne 4%nat 2%nat); done).
    rewrite lookup_insert_ne by (apply (Hne 3%nat 2%nat); done).
    apply lookup_insert_eq.
  - rewrite lookup_insert_ne by (apply (Hne 4%nat 3%nat); done).
    apply lookup_insert_eq.
  - apply lookup_insert_eq.
Qed.

(** Property X5: an [init_cache] that answers with its success text leaves
    each of the five files of the directory with exactly its template --
    the files are rewritten, not appended to: what a file held before, such
    as the sections of earlier updates, is gone, also when [init_cache] is
    run again on an existing topic.  The session is then initialized on the
    base directory, with the topic as current and active topic and the
    permission recorded; the counter of tool calls, the interval and the
    auto-update settings are as before. *)
Theorem init_rewrites_the_cache_files (args : InitCacheArgs) (w : World) :
  let base := init_cacheDir args in
  let topic := init_topic args in
  let dir := getCacheDirectory base topic in
  let cs := cacheState w in
  let w' := after (handleInitCache args) w in
  (handleInitCache args w).1 = Ret (init_reply args) →
  NoDup (cache_paths dir) →
  (∀ f, files (disk w') !! path_join dir (file_name f) =
        Some (initial_content f (init_context args (clock w)))) ∧
  cacheState w' = state_after_init cs base topic (clock w) ∧
  isInitialized (cacheState w') = true ∧
  cacheDir (cacheState w') = base ∧
  currentTopic (cacheState w') = or_null topic ∧
  activeTopic (cacheState w') = or_null topic ∧
  hasCreatePermission (cacheState w') = true ∧
  toolCallCount (cacheState w') = toolCallCount cs ∧
  updateInterval (cacheState w') = updateInterval cs ∧
  autoUpdateEnabled (cacheState w') = autoUpdateEnabled cs ∧
  topicAutoUpdateSettings (cacheState w') = topicAutoUpdateSettings cs.
Proof.
  intros base topic dir cs w' Hr Hnd.
  destruct (handleInitCache_initialized args w Hr) as (mk & logs & Hmk & E).
  assert (Hw : w' = evolve (state_after_init cs base topic (clock w)) logs
                      (mk ++ init_saved args w ++
                       initial_events dir (init_context args (clock w))) w)
    by (unfold w', after; by rewrite E).
  clearbody w'. subst w'. cbn [cacheState disk evolve].
  split; [|done].
  intros f. rewrite !replay_app. by apply files_initial_events.
Qed.

(** ** [update_cache] only appends *)

Lemma append_cons x (a b : string) : String x a +:+ b = String x (a +:+ b).
Proof. reflexivity. Qed.

Lemma append_assoc (a b c : string) : (a +:+ b) +:+ c = a +:+ (b +:+ c).
Proof. induction a as [|x a IH]; [done|]. by rewrite !append_cons, IH. Qed.

Lemma append_empty_r (a : string) : a +:+ EmptyString = a.
Proof. induction a as [|x a IH]; [done|]. by rewrite append_cons, IH. Qed.

Lemma extends_files_refl except d : extends_files except d d.
Proof.
  split; [done|]. intros p old _ Hf. exists EmptyString. by rewrite append_empty_r.
Qed.

Lemma extends_files_trans except d1 d2 d3 :
  extends_files except d1 d2 → extends_files except d2 d3 → extends_files except d1 d3.
Proof.
  intros [Hd1 Hf1] [Hd2 Hf2]. split; [congruence|].
  intros p old Hne Hf. destruct (Hf1 p old Hne Hf) as [a1 H1].
  destruct (Hf2 p _ Hne H1) as [a2 H2]. exists (a1 +:+ a2).
  by rewrite H2, append_assoc.
Qed.

Lemma appends_only_keeps_disk {A} except (m : M A) : keeps_disk m → appends_only except m.
Proof. intros Hm w. rewrite Hm. apply extends_files_refl. Qed.

Lemma appends_only_bind {A B} except (m : M A) (k : A → M B) :
  appends_only except m → (∀ a, appends_only except (k a)) →
  appends_only except (bind m k).
Proof.
  intros Hm Hk w. unfold bind. specialize (Hm w).
  destruct (m w) as [[a|e] w1]; simpl in *; [|done].
  eapply extends_files_trans; [exact Hm|apply Hk].
Qed.

Lemma appends_only_try_catch {A} except (m : M A) h :
  appends_only except m → (∀ e, appends_only except (h e)) →
  appends_only except (try_catch m h).
Proof.
  intros Hm Hh w. unfold try_catch. specialize (Hm w).
  destruct (m w) as [[a|e] w1]; simpl in *; [done|].
  eapply extends_files_trans; [exact Hm|apply Hh].
Qed.

Lemma appends_only_append except p content :
  appends_only except (writeFile p content Append).
Proof.
  intros w. unfold writeFile. case_bool_decide; [apply extends_files_refl|].
  split; [done|]. intros q old _ Hf. cbn.
  destruct (decide (q = p)) as [->|Hne].
  - rewrite lookup_insert_eq, Hf. by eexists.
  - rewrite lookup_insert_ne by done. exists EmptyString. by rewrite append_empty_r.
Qed.

Lemma appends_only_write_except except content mode :
  appends_only except (writeFile except content mode).
Proof.
  intros w. unfold writeFile. case_bool_decide; [apply extends_files_refl|].
  split; [done|]. intros q old Hne Hf. exists EmptyString. rewrite append_empty_r.
  cbn. by destruct mode; rewrite lookup_insert_ne.
Qed.

Lemma appends_only_saveSessionManifest base m :
  appends_only (manifest_path base) (saveSessionManifest base m).
Proof.
  unfold saveSessionManifest. cbv zeta.
  apply appends_only_try_catch; [apply appends_only_write_except|].
  intros e. by apply appends_only_keeps_disk.
Qed.

Lemma appends_only_append_updates except dir ts target args :
  appends_only except (append_updates dir ts target args).
Proof.
  unfold append_updates, append_optional.
  repeat first [ apply appends_only_bind; [|intros ?]
               | apply appends_only_append
               | by apply appends_only_keeps_disk
               | match goal with |- appends_only _ (if ?b then _ else _) => destruct b end ].
Qed.

Lemma appends_only_touch_manifest base target ts :
  appends_only (manifest_path base) (touch_manifest base target ts).
Proof.
  unfold touch_manifest. destruct (or_null target); [|by apply appends_only_keeps_disk].
  apply appends_only_try_catch; [|intros; by apply appends_only_keeps_disk].
  apply appends_only_bind.
  - apply appends_only_keeps_disk, keeps_disk_loadSessionManifest.
  - intros m. destruct (obj_get _ _); [apply appends_only_saveSessionManifest|].
    by apply appends_only_keeps_disk.
Qed.

Lemma appends_only_handleUpdateCache args w :
  extends_files (manifest_path (cacheDir (cacheState w))) (disk w)
    (disk (after (handleUpdateCache args) w)).
Proof.
  unfold after. rewrite handleUpdateCache_unfold. unfold try_catch. step.
  set (base := cacheDir (cacheState w)).
  set (body := if negb (isInitialized (cacheState w)) then _ else _).
  assert (Hb : appends_only (manifest_path base) body).
  { unfold body. destruct (negb _); [by apply appends_only_keeps_disk|].
    apply appends_only_bind; [by apply appends_only_keeps_disk|]. intros present.
    destruct (negb present); [by apply appends_only_keeps_disk|].
    apply appends_only_bind; [by apply appends_only_keeps_disk|]. intros ts.
    apply appends_only_bind; [apply appends_only_append_updates|]. intros _.
    apply appends_only_bind; [apply appends_only_touch_manifest|]. intros _.
    by apply appends_only_keeps_disk. }
  specialize (Hb w). by destruct (body w) as [[r|e] w1].
Qed.

Lemma appends_only_update_finish job w :
  extends_files (manifest_path (cacheDir (cacheState w))) (disk w)
    (disk (update_finish job w).2).
Proof.
  set (base := cacheDir (cacheState w)).
  unfold update_finish. cbv zeta.
  pose proof (appends_only_append_updates (manifest_path base) (job_dir job)
                (job_timestamp job) (job_target job) (job_args job) w) as Ha.
  pose proof (keeps_state_append_updates (job_dir job) (job_timestamp job)
                (job_target job) (job_args job) w) as [Hs _].
  unfold bind at 1.
  destruct (append_updates _ _ _ _ w) as [[[]|e] w1]; cbn [snd] in Ha, Hs |- *;
    [|exact Ha].
  eapply extends_files_trans; [exact Ha|].
  rewrite bind_get_state, Hs. fold base.
  match goal with |- context [bind (touch_manifest ?b ?t ?ts) ?k] =>
    assert (Hb : appends_only (manifest_path base) (bind (touch_manifest b t ts) k))
  end.
  { apply appends_only_bind; [apply appends_only_touch_manifest|]. intros _.
    by apply appends_only_keeps_disk. }
  apply Hb.
Qed.

(** An update in flight, and so the updates that the event loop completes,
    append to the files and leave the base directory of the session. *)
Lemma complete_update_appends job w :
  ∃ w1, complete_update job w = (Ret tt, w1) ∧
        cacheDir (cacheState w1) = cacheDir (cacheState w) ∧
        extends_files (manifest_path (cacheDir (cacheState w))) (disk w) (disk w1).
Proof.
  destruct (complete_update_run job w) as (w1 & E & _ & _ & Hs).
  exists w1. split; [exact E|]. split.
  - destruct Hs as [-> | ->]; done.
  - pose proof (appends_only_update_finish job w) as Ha.
    unfold complete_update, try_catch, bind, ret in E.
    destruct (update_finish job w) as [[r|e] w2]; cbn [snd] in Ha;
      injection E as <-; exact Ha.
Qed.

Lemma complete_updates_appends jobs w :
  ∃ w1, complete_updates jobs w = (Ret tt, w1) ∧
        cacheDir (cacheState w1) = cacheDir (cacheState w) ∧
        extends_files (manifest_path (cacheDir (cacheState w))) (disk w) (disk w1).
Proof.
  revert w. induction jobs as [|job jobs IH]; intros w.
  - exists w. split; [done|]. split; [done|]. apply extends_files_refl.
  - cbn [complete_updates].
    destruct (complete_update_appends job w) as (w1 & E & Hd & Ha).
    rewrite (bind_run _ _ _ _ _ E).
    destruct (IH w1) as (w2 & E2 & Hd2 & Ha2). rewrite Hd in Hd2, Ha2.
    exists w2. split; [exact E2|]. split; [exact Hd2|].
    eapply extends_files_trans; [exact Ha|exact Ha2].
Qed.

(** Property X6: whatever it answers, [update_cache] creates and removes
    no directory, and every file other than the manifest that was on the
    disk is still there afterwards and holds what it held before, followed
    by what the call appended: no cache file is truncated, replaced or
    deleted, also when the call fails half way.  The same holds for the
    update that a tool call starts, and for any number of tool calls in a
    row. *)
Theorem update_only_appends :
  (∀ args w,
     extends_files (manifest_path (cacheDir (cacheState w))) (disk w)
       (disk (after (handleUpdateCache args) w))) ∧
  (∀ n w,
     extends_files (manifest_path (cacheDir (cacheState w))) (disk w)
       (disk (after (tool_calls n) w))).
Proof.
  split; [apply appends_only_handleUpdateCache|].
  induction n as [|n IH]; intros w; [apply extends_files_refl|].
  unfold after. cbn [tool_calls].
  pose proof (incrementToolCallCounter_run w) as Et. cbv zeta in Et.
  match type of Et with _ = (_, ?x) => set (w0 := x) in Et end.
  assert (Hd0 : disk w0 = disk w) by (unfold w0; by case_match).
  assert (Hc0 : cacheDir (cacheState w0) = cacheDir (cacheState w))
    by (unfold w0; by case_match).
  rewrite (bind_run _ _ _ _ _ Et).
  destruct (complete_updates_appends (inflight w0) (set_inflight [] w0))
    as (w1 & E1 & Hc1 & Ha1).
  cbn [cacheState disk set_inflight] in Hc1, Ha1. rewrite Hc0 in Hc1, Ha1.
  rewrite Hd0 in Ha1.
  assert (Es : settle w0 = (Ret tt, w1)) by exact E1.
  rewrite (bind_run _ _ _ _ _ Es).
  specialize (IH w1). unfold after in IH. rewrite Hc1 in IH.
  eapply extends_files_trans; [exact Ha1|exact IH].
Qed.

(** ** [update_cache] and the manifest *)

Lemma touch_manifest_exact base target ts w :
  ∃ logs,
    touch_manifest base target ts w =
      (Ret tt, evolve (cacheState w) logs (update_saved base target ts w) w).
Proof.
  unfold touch_manifest, update_saved. destruct (or_null target) as [t|].
  - destruct (loadSessionManifest_run base w) as [logs E].
    unfold try_catch. rewrite (bind_run _ _ _ _ _ E).
    destruct (obj_get t _) as [info|].
    + rewrite saveSessionManifest_run, denied_evolve. cbn [fst snd].
      case_bool_decide; rewrite evolve_evolve; eexists; by rewrite ?app_nil_l.
    + by exists logs.
  - exists []. unfold ret. by rewrite evolve_id.
Qed.

Lemma handleUpdateCache_exact args w :
  succeeds (handleUpdateCache args w) →
  let cs := cacheState w in
  let target := resolve_target (upd_topic args) cs in
  let appends := update_events (getCacheDirectory (cacheDir cs) target) (clock w) target args in
  ∃ logs,
    after (handleUpdateCache args) w =
      evolve (state_after_update cs (clock w) target) logs
        (appends ++ update_saved (cacheDir cs) target (clock w) (evolve cs [] appends w)) w.
Proof.
  intros Hs cs target appends.
  rewrite handleUpdateCache_unfold in Hs.
  apply try_catch_succeeds in Hs as (t & w1 & Hb).
  assert (Hr : handleUpdateCache args w = (Ret (Content t), w1))
    by (rewrite handleUpdateCache_unfold; apply try_catch_run, Hb).
  unfold after. rewrite Hr. clear Hr. cbn [snd].
  step_in Hb. fold cs target in Hb.
  destruct (isInitialized cs); [|discriminate]. cbn [negb] in Hb.
  step_in Hb.
  destruct (exists_on (disk w) _); [|discriminate]. cbn [negb] in Hb.
  step_in Hb.
  apply bind_inv in Hb as ([] & w2 & ->%append_updates_inv & Hb).
  fold cs appends in Hb.
  destruct (touch_manifest_exact (cacheDir cs) target (clock w) (evolve cs [] appends w))
    as (logs & Ht).
  rewrite (bind_run _ _ _ _ _ Ht) in Hb.
  do 3 step_in Hb.
  injection Hb as _ <-. exists logs.
  rewrite !evolve_evolve, set_cacheState_evolve, evolve_evolve.
  by rewrite !app_nil_r.
Qed.

Lemma obj_keys_set_present {V} k (v v0 : V) o :
  obj_get k o = Some v0 → obj_keys (obj_set k v o) = obj_keys o.
Proof.
  induction o as [|[k' v'] o IH]; [done|]. cbn.
  destruct (String.eqb k k'); [done|]. intros Hg. cbn. f_equal. by apply IH.
Qed.

(** Property X7: a successful [update_cache] of a target with a plain
    name, on a manifest file that the cache wrote, writes the manifest at
    most once, after its appends, and never registers a topic: with no
    target, or with a target that is not in [activeSessions] of the
    manifest -- a topic that was archived or removed by a cleanup, or whose
    directory was made by hand -- the manifest file is not written; for a
    target in
    [activeSessions] and a writable manifest file, the manifest saved is the
    one loaded with [lastUsed] of the target set to the time of the call:
    the other fields of the record, the other records, their order,
    [archivedSessions] and the version are as loaded. *)
Theorem update_touches_only_lastUsed (args : UpdateCacheArgs) (w : World) :
  succeeds (handleUpdateCache args w) →
  plain_topic (resolve_target (upd_topic args) (cacheState w)) = true →
  typed_manifest_file
    (replay
       (update_events
          (getCacheDirectory (cacheDir (cacheState w))
             (resolve_target (upd_topic args) (cacheState w)))
          (clock w) (resolve_target (upd_topic args) (cacheState w)) args)
       (disk w))
    (cacheDir (cacheState w)) →
  let cs := cacheState w in
  let base := cacheDir cs in
  let resolved := resolve_target (upd_topic args) cs in
  let appends := update_events (getCacheDirectory base resolved) (clock w) resolved args in
  let m := manifest_of (evolve cs [] appends w) base in
  ∃ saved,
    journal (disk (after (handleUpdateCache args) w)) =
      journal (disk w) ++ appends ++ saved ∧
    (or_null resolved = None → saved = []) ∧
    (∀ t, or_null resolved = Some t → obj_get t (activeSessions m) = None → saved = []) ∧
    (∀ t info,
       or_null resolved = Some t → obj_get t (activeSessions m) = Some info →
       manifest_path base ∉ denied (disk w) →
       ∃ m',
         saved = [manifest_write base m'] ∧
         obj_get t (activeSessions m') =
           Some {| createdAt := createdAt info; lastUsed := clock w;
                   projectName := projectName info;
                   autoCleanupAfterDays := autoCleanupAfterDays info;
                   sessionOnly := sessionOnly info; archivedAt := archivedAt info |} ∧
         (∀ t', t' ≠ t →
            obj_get t' (activeSessions m') = obj_get t' (activeSessions m)) ∧
         obj_keys (activeSessions m') = obj_keys (activeSessions m) ∧
         archivedSessions m' = archivedSessions m ∧
         manifestVersion m' = manifestVersion m).
Proof.
  intros Hs _ _ cs base resolved appends m.
  destruct (handleUpdateCache_exact args w Hs) as [logs E]. fold cs base resolved appends in E.
  exists (update_saved base resolved (clock w) (evolve cs [] appends w)).
  rewrite E. cbn [disk evolve]. rewrite replay_journal.
  split; [done|]. unfold update_saved. fold m.
  split; [by intros ->|]. split; [by intros t -> ->|].
  intros t info -> Hg Hd. rewrite Hg, denied_evolve, bool_decide_eq_false_2 by done.
  eexists. split; [reflexivity|]. cbn [activeSessions archivedSessions manifestVersion set_active].
  split; [apply obj_get_set_eq|]. split; [intros t' Hne; by apply obj_get_set_ne|].
  split; [|done]. by eapply obj_keys_set_present.
Qed.

(** ** The manifest, saved and read back *)

Lemma manifest_of_written cs logs base m w :
  manifest_path base ∉ denied (disk w) →
  manifest_path base ∉ unreadable (disk w) →
  manifest_of (evolve cs logs [manifest_write base m] w) base =
  default defaultManifest (JSON_parse (lines_window 0 1000 (JSON_stringify m))).
Proof.
  intros Hd Hu. rewrite manifest_of_eq. cbv zeta.
  cbn [disk evolve replay foldl apply_event manifest_write write_to unreadable files].
  by rewrite bool_decide_eq_false_2, lookup_insert_eq.
Qed.

(** Property X8: the manifest that [saveSessionManifest] writes is the one
    that the next [loadSessionManifest] returns, without a warning, when the
    file can be written and read and the text of the manifest parses back
    from its first 1000 lines; when the file cannot be written, the save
    warns and the next load returns what the file held before. *)
Theorem manifest_round_trip (base : string) (m : SessionManifest) (w : World) :
  manifest_path base ∉ unreadable (disk w) →
  JSON_parse (lines_window 0 1000 (JSON_stringify m)) = Some m →
  (manifest_path base ∉ denied (disk w) →
   (saveSessionManifest base m;; loadSessionManifest base) w =
     (Ret m, evolve (cacheState w) [] [manifest_write base m] w)) ∧
  (manifest_path base ∈ denied (disk w) →
   ((saveSessionManifest base m;; loadSessionManifest base) w).1 =
     Ret (manifest_of w base) ∧
   disk (after (saveSessionManifest base m;; loadSessionManifest base) w) = disk w).
Proof.
  intros Hu Hp. split; intros Hd.
  - rewrite (bind_run _ _ _ _ _ (saveSessionManifest_run _ _ _)).
    rewrite bool_decide_eq_false_2 by done.
    set (w1 := evolve (cacheState w) [] [manifest_write base m] w).
    assert (Hf : files (disk w1) !! manifest_path base = Some (JSON_stringify m))
      by apply lookup_insert_eq.
    assert (Hu1 : manifest_path base ∉ unreadable (disk w1)) by done.
    unfold loadSessionManifest, bind, try_catch, existsSync, readFileInternal, ret.
    cbv zeta. unfold exists_on. rewrite Hf.
    rewrite (bool_decide_eq_true_2 (is_Some (Some _))) by eauto.
    rewrite orb_true_r, bool_decide_eq_false_2 by done. cbv beta iota.
    rewrite Hf. cbv beta iota. by rewrite Hp.
  - unfold after. rewrite (bind_run _ _ _ _ _ (saveSessionManifest_run _ _ _)).
    rewrite bool_decide_eq_true_2 by done.
    destruct (loadSessionManifest_run base
                (evolve (cacheState w)
                   [WarnSaveManifest ("EACCES: " +:+ manifest_path base)] [] w))
      as [logs E].
    rewrite E. cbn [fst snd]. split; [|reflexivity].
    f_equal. by apply manifest_of_disk.
Qed.

(** ** After [archive_cache] *)

Lemma exists_on_replay evs d p : exists_on d p = true → exists_on (replay evs d) p = true.
Proof.
  revert d. induction evs as [|ev evs IH]; intros d Hp; [done|].
  apply IH. unfold exists_on in *. apply orb_true_iff in Hp as [Hp|Hp];
    apply bool_decide_eq_true in Hp; apply orb_true_iff.
  - left. apply bool_decide_eq_true. destruct ev; cbn; [done|]. set_solver.
  - right. apply bool_decide_eq_true. destruct ev as [q c []|q]; cbn; [| |done].
    + destruct (decide (q = p)) as [->|Hne]; [by rewrite lookup_insert_eq|].
      by rewrite lookup_insert_ne.
    + destruct (decide (q = p)) as [->|Hne]; [by rewrite lookup_insert_eq|].
      by rewrite lookup_insert_ne.
Qed.



(** ** [cleanup_cache], run again *)

Lemma obj_delete_filter {V} k (o : list (string * V)) :
  obj_delete k o = filter (λ e, e.1 ≠ k) o.
Proof.
  induction o as [|[k' v] o IH]; [done|]. cbn [obj_delete].
  rewrite filter_cons. cbn [fst].
  destruct (String.eqb_spec k k') as [->|Hne].
  - rewrite decide_False by (intros Hn; by apply Hn). exact IH.
  - rewrite decide_True by (intros ->; by apply Hne). by rewrite IH.
Qed.

Lemma foldl_obj_delete_filter {V} ks (o : list (string * V)) :
  foldl (λ o k, obj_delete k o) o ks = filter (λ e, e.1 ∉ ks) o.
Proof.
  revert o. induction ks as [|k ks IH]; intros o; cbn [foldl].
  - induction o as [|e o IHo]; [done|].
    rewrite filter_cons_True by apply not_elem_of_nil. by rewrite <- IHo.
  - rewrite IH, obj_delete_filter, list_filter_filter.
    apply list_filter_iff. intros e. rewrite not_elem_of_cons. tauto.
Qed.

Lemma insert_session_front x l :
  Forall (most_recent_first x) l → insert_session x l = x :: l.
Proof.
  destruct 1 as [|y l Hy _]; [done|]. cbn [insert_session]. unfold stays_before.
  by rewrite (proj2 (Z.leb_le _ _) Hy).
Qed.

Lemma insert_session_filter (P : string * SessionInfo → Prop) `{∀ e, Decision (P e)} x l :
  StronglySorted most_recent_first l →
  filter P (insert_session x l) =
  if decide (P x) then insert_session x (filter P l) else filter P l.
Proof.
  induction 1 as [|y l Hs IH Hy]; cbn [insert_session].
  - rewrite filter_cons, filter_nil. by destruct (decide (P x)).
  - unfold stays_before.
    destruct (Z.leb_spec (lastUsed y.2) (lastUsed x.2)) as [Hle|Hlt].
    + rewrite (filter_cons _ x). destruct (decide (P x)); [|done].
      rewrite insert_session_front; [done|].
      apply Forall_forall. intros z Hz%list_elem_of_filter. destruct Hz as [_ Hz].
      apply elem_of_cons in Hz as [->|Hz]; [done|].
      rewrite Forall_forall in Hy. specialize (Hy z Hz).
      unfold most_recent_first in *. lia.
    + rewrite (filter_cons _ y), IH, (filter_cons _ y).
      destruct (decide (P y)), (decide (P x)); try done.
      cbn [insert_session]. unfold stays_before.
      by rewrite (proj2 (Z.leb_gt _ _) Hlt).
Qed.

Lemma sort_sessions_filter (P : string * SessionInfo → Prop) `{∀ e, Decision (P e)} l :
  sort_sessions (filter P l) = filter P (sort_sessions l).
Proof.
  induction l as [|x l IH]; [done|]. cbn [sort_sessions foldr].
  fold (sort_sessions l).
  rewrite insert_session_filter by apply sort_sessions_sorted.
  rewrite filter_cons. destruct (decide (P x)); [|done].
  cbn [sort_sessions foldr]. fold (sort_sessions (filter P l)). by rewrite IH.
Qed.

Lemma selected_for_cleanup_later cutoff maxSessions active (i j : nat) e :
  (j ≤ i)%nat →
  selected_for_cleanup cutoff maxSessions active j e = true →
  selected_for_cleanup cutoff maxSessions active i e = true.
Proof.
  intros Hle. rewrite !selected_for_cleanup_spec. intros [[Ho|Hr] Ha]; split; auto.
  right. lia.
Qed.

Lemma selected_keys_of_kept cutoff maxSessions active (ks : list string) (i j : nat) l :
  (j ≤ i)%nat →
  (∀ k, k ∈ selected_keys cutoff maxSessions active i l → k ∈ ks) →
  selected_keys cutoff maxSessions active j (filter (λ e, e.1 ∉ ks) l) = [].
Proof.
  revert i j. induction l as [|e l IH]; intros i j Hle Hks; [done|].
  cbn [selected_keys] in Hks. rewrite filter_cons.
  assert (Hrest : ∀ k, k ∈ selected_keys cutoff maxSessions active (S i) l → k ∈ ks).
  { intros k Hk. apply Hks, elem_of_app. by right. }
  destruct (decide (e.1 ∉ ks)) as [Hkept|_].
  - cbn [selected_keys].
    destruct (selected_for_cleanup cutoff maxSessions active j e) eqn:Es.
    + exfalso. apply Hkept, Hks, elem_of_app. left.
      rewrite (selected_for_cleanup_later _ _ _ i j e Hle Es). apply list_elem_of_here.
    + cbn [app]. apply (IH (S i) (S j)); [lia|done].
  - apply (IH (S i) j); [lia|done].
Qed.

Lemma selected_keys_cleaned cutoff maxSessions active m :
  selected_keys cutoff maxSessions active 0
    (sort_sessions (activeSessions (cleaned_manifest cutoff maxSessions active m))) = [].
Proof.
  unfold cleaned_manifest. rewrite foldl_delete_active. cbn [activeSessions].
  rewrite foldl_obj_delete_filter, sort_sessions_filter.
  by apply (selected_keys_of_kept _ _ _ _ 0%nat 0%nat).
Qed.

Lemma cleanup_loop_nothing d dir cutoff maxSessions active i l st :
  selected_keys cutoff maxSessions active i l = [] →
  cl_cleaned (cleanup_loop d dir cutoff maxSessions active i l st) = cl_cleaned st.
Proof.
  revert i st. induction l as [|e l IH]; intros i st Hk; [done|].
  cbn [selected_keys] in Hk. apply app_eq_nil in Hk as [He Hk].
  cbn [cleanup_loop]. rewrite IH by done. unfold cleanup_step.
  by destruct (selected_for_cleanup _ _ _ _ _).
Qed.

(** Property X10: on a manifest file that the cache wrote, of topics with
    plain names, [cleanup_cache] has nothing left to do when it is run
    again at once: the manifest that the first run saved -- the one loaded,
    without the sessions that are too old or beyond the count, the active
    topic kept -- holds no session that a run with the same arguments
    selects.  When that manifest was written and reads back, the second run
    reports no topic as cleaned, leaves the cache state, the directories and
    the files as the first run left them, and the manifest is the same. *)
Theorem cleanup_again_changes_nothing (args : CleanupCacheArgs) (w : World) :
  let base := clean_cacheDir args in
  let cs := cacheState w in
  let instant := clock w - clean_cleanupAfterDays args * 86400000 in
  let cutoff := if Z.abs instant <=? 8640000000000000 then Some instant else None in
  let m1 := cleaned_manifest cutoff (clean_maxSessions args) (activeTopic cs)
              (manifest_of w base) in
  let w1 := after (handleCleanupCache args) w in
  let r2 := handleCleanupCache args w1 in
  clean_confirmCleanup args = true →
  exists_on (disk w) base = true →
  typed_manifest_file (disk w) base →
  plain_keys (activeSessions (manifest_of w base)) = true →
  manifest_path base ∉ denied (disk w) →
  manifest_path base ∉ unreadable (disk w) →
  JSON_parse (lines_window 0 1000 (JSON_stringify m1)) = Some m1 →
  cleaned_manifest cutoff (clean_maxSessions args) (activeTopic cs) m1 = m1 ∧
  manifest_of w1 base = m1 ∧
  (∃ preserved,
     r2.1 = Ret (Content (CleanupComplete (clean_cleanupAfterDays args)
                            (clean_maxSessions args) cutoff [] preserved
                            (length (obj_keys (activeSessions m1)))))) ∧
  cacheState r2.2 = cacheState w1 ∧
  dirs (disk r2.2) = dirs (disk w1) ∧
  files (disk r2.2) = files (disk w1) ∧
  manifest_of r2.2 base = m1.
Proof.
  intros base cs instant cutoff m1 w1 r2 Hc He _ _ Hd Hu Hp.
  assert (Hcut : cutoff_date (clock w) (clean_cleanupAfterDays args) = cutoff).
  { unfold cutoff_date, time_clip, cutoff, instant.
    by replace (clock w - clean_cleanupAfterDays args * 24 * 60 * 60 * 1000)
         with (clock w - clean_cleanupAfterDays args * 86400000) by lia. }
  assert (Hidem : cleaned_manifest cutoff (clean_maxSessions args) (activeTopic cs) m1 = m1).
  { unfold cleaned_manifest at 1. unfold m1. by rewrite selected_keys_cleaned. }
  destruct (handleCleanupCache_run args w Hc He) as [logs E]. cbv zeta in E.
  fold base cs in E. rewrite Hcut in E.
  rewrite bool_decide_eq_false_2 in E by done.
  match type of E with
  | context [cleanup_loop ?d ?dir ?c ?mx ?a ?i ?l ?st] =>
      destruct (cleanup_loop_result d dir c mx a i l st) as [Hm Hs];
      set (st1 := cleanup_loop d dir c mx a i l st) in *
  end.
  cbn [cl_manifest cl_settings] in Hm, Hs. fold (cleaned_manifest cutoff (clean_maxSessions args)
    (activeTopic cs) (manifest_of w base)) in Hm. fold m1 in Hm. rewrite Hm in E.
  assert (Hw1 : w1 = evolve (with_settings cs (cl_settings st1)) logs
                       [manifest_write base m1] w)
    by (unfold w1, after; by rewrite E).
  assert (Hm1 : manifest_of w1 base = m1).
  { rewrite Hw1, manifest_of_written by done. by rewrite Hp. }
  assert (He1 : exists_on (disk w1) base = true).
  { rewrite Hw1. cbn [disk evolve]. by apply exists_on_replay. }
  destruct (handleCleanupCache_run args w1 Hc He1) as [logs2 E2]. cbv zeta in E2.
  fold base in E2. rewrite Hm1 in E2.
  assert (Hclock : clock w1 = clock w) by (by rewrite Hw1).
  assert (Hact : activeTopic (cacheState w1) = activeTopic cs) by (by rewrite Hw1).
  assert (Hd1 : manifest_path base ∉ denied (disk w1))
    by (by rewrite Hw1, denied_evolve).
  rewrite Hclock, Hact, Hcut in E2.
  rewrite bool_decide_eq_false_2 in E2 by done.
  match type of E2 with
  | context [cleanup_loop ?d ?dir ?c ?mx ?a ?i ?l ?st] =>
      destruct (cleanup_loop_result d dir c mx a i l st) as [Hm2 Hs2];
      pose proof (cleanup_loop_nothing d dir c mx a i l st) as Hn2;
      set (st2 := cleanup_loop d dir c mx a i l st) in *
  end.
  cbn [cl_manifest cl_settings cl_cleaned] in Hm2, Hs2, Hn2.
  pose proof (selected_keys_cleaned cutoff (clean_maxSessions args) (activeTopic cs)
                (manifest_of w base)) as Hk. fold m1 in Hk.
  rewrite Hk in Hm2, Hs2. cbn [foldl] in Hm2, Hs2. specialize (Hn2 Hk).
  rewrite Hm2, Hs2, Hn2 in E2.
  split; [done|]. split; [done|]. unfold r2. rewrite E2. cbn [fst snd].
  split; [eauto|]. split.
  { cbn [cacheState evolve]. rewrite Hw1. reflexivity. }
  split; [reflexivity|]. split.
  - cbn [disk evolve replay foldl apply_event manifest_write write_to files].
    rewrite Hw1. cbn [disk evolve replay foldl apply_event manifest_write write_to files].
    apply insert_insert_eq.
  - rewrite manifest_of_written by (rewrite ?unreadable_evolve; rewrite Hw1 in *; done).
    by rewrite Hp.
Qed.

(** ** The schemas and the confirmations *)

Lemma after_with_schema {A} (schema : Node.json → option A) handler args w :
  after (with_schema schema handler args) w =
  match schema args with
  | Some parsed => after (handler parsed) w
  | None => w
  end.
Proof.
  unfold after, with_schema. destruct (schema args) as [parsed|]; [|done].
  unfold bind. by destruct (handler parsed w) as [[r|e] w1].
Qed.

Lemma z_default_bool_true (field : option Node.json) b :
  z_default Node.as_bool false field = Some b →
  b = true → field = Some (Node.JBool true).
Proof.
  destruct field as [v|]; cbn; [|congruence].
  destruct v; cbn; try done. congruence.
Qed.

Lemma ArchiveCacheArgsSchema_confirm args parsed :
  ArchiveCacheArgsSchema args = Some parsed →
  arch_confirmArchive parsed = true →
  ∃ fs, args = Node.JObj fs ∧ obj_get "confirmArchive" fs = Some (Node.JBool true).
Proof.
  unfold ArchiveCacheArgsSchema, z_object. destruct args as [| | | |fs]; try done.
  cbn [mbind option_bind]. intros Hp Hc. exists fs. split; [done|].
  destruct (z_required _ _) as [t|]; [|done]. cbn [mbind option_bind] in Hp.
  destruct (z_default Node.as_string _ _) as [d|]; [|done]. cbn [mbind option_bind] in Hp.
  destruct (z_default Node.as_bool _ _) as [b|] eqn:Eb; [|done].
  cbn [mbind option_bind] in Hp. injection Hp as <-. cbn in Hc.
  by eapply z_default_bool_true.
Qed.

Lemma CleanupCacheArgsSchema_confirm args parsed :
  CleanupCacheArgsSchema args = Some parsed →
  clean_confirmCleanup parsed = true →
  ∃ fs, args = Node.JObj fs ∧ obj_get "confirmCleanup" fs = Some (Node.JBool true).
Proof.
  unfold CleanupCacheArgsSchema, z_object. destruct args as [| | | |fs]; try done.
  cbn [mbind option_bind]. intros Hp Hc. exists fs. split; [done|].
  destruct (z_default Node.as_string _ _) as [d|]; [|done]. cbn [mbind option_bind] in Hp.
  destruct (z_default Node.as_number 30 _) as [days|]; [|done].
  cbn [mbind option_bind] in Hp.
  destruct (z_default Node.as_number 10 _) as [mx|]; [|done].
  cbn [mbind option_bind] in Hp.
  destruct (z_default Node.as_bool _ _) as [b|] eqn:Eb; [|done].
  cbn [mbind option_bind] in Hp. injection Hp as <-. cbn in Hc.
  by eapply z_default_bool_true.
Qed.

Lemma InitCacheArgsSchema_consent args parsed :
  InitCacheArgsSchema args = Some parsed →
  init_confirmCreate parsed && init_understoodGrowth parsed = true →
  ∃ fs, args = Node.JObj fs ∧
        obj_get "confirmCreate" fs = Some (Node.JBool true) ∧
        obj_get "understoodGrowth" fs = Some (Node.JBool true).
Proof.
  unfold InitCacheArgsSchema, z_object. destruct args as [| | | |fs]; try done.
  cbn [mbind option_bind]. intros Hp Hc. exists fs. split; [done|].
  destruct (z_default Node.as_string _ _) as [d|]; [|done]. cbn [mbind option_bind] in Hp.
  destruct (z_optional Node.as_string (obj_get "projectName" fs)) as [pn|]; [|done].
  cbn [mbind option_bind] in Hp.
  destruct (z_optional Node.as_string (obj_get "topic" fs)) as [tp|]; [|done].
  cbn [mbind option_bind] in Hp.
  destruct (z_default Node.as_bool false (obj_get "confirmCreate" fs)) as [b1|] eqn:E1;
    [|done].
  cbn [mbind option_bind] in Hp.
  destruct (z_default Node.as_bool false (obj_get "understoodGrowth" fs)) as [b2|] eqn:E2;
    [|done].
  cbn [mbind option_bind] in Hp.
  destruct (z_default Node.as_bool false (obj_get "sessionOnly" fs)) as [b3|]; [|done].
  cbn [mbind option_bind] in Hp. injection Hp as <-. cbn in Hc.
  apply andb_true_iff in Hc as [-> ->].
  split; by eapply z_default_bool_true.
Qed.

(** Property X11: the operations that create, archive or clean up act only
    on an explicit confirmation in the arguments of the call.  Whatever the
    JSON arguments are -- not an object, fields of a wrong type, flags
    absent -- [archive_cache] without a field [confirmArchive] that is
    [true], and [cleanup_cache] without a field [confirmCleanup] that is
    [true], leave the cache state, the disk and the console as they were;
    and [init_cache] on a directory that does not exist answers with the
    request for permission, and changes nothing, unless both
    [confirmCreate] and [understoodGrowth] are fields that are [true]. *)
Theorem nothing_without_confirmation :
  (∀ args w,
     (∀ fs, args = Node.JObj fs → obj_get "confirmArchive" fs ≠ Some (Node.JBool true)) →
     after (with_schema ArchiveCacheArgsSchema handleArchiveCache args) w = w) ∧
  (∀ args w,
     (∀ fs, args = Node.JObj fs → obj_get "confirmCleanup" fs ≠ Some (Node.JBool true)) →
     after (with_schema CleanupCacheArgsSchema handleCleanupCache args) w = w) ∧
  (∀ args w,
     (∀ fs, args = Node.JObj fs →
            obj_get "confirmCreate" fs ≠ Some (Node.JBool true) ∨
            obj_get "understoodGrowth" fs ≠ Some (Node.JBool true)) →
     match InitCacheArgsSchema args with
     | Some parsed =>
         exists_on (disk w)
           (getCacheDirectory (init_cacheDir parsed) (init_topic parsed)) = false →
         with_schema InitCacheArgsSchema handleInitCache args w =
           (Ret (Handled (Content PermissionRequired)), w)
     | None =>
         with_schema InitCacheArgsSchema handleInitCache args w =
           (Ret InvalidArguments, w)
     end).
Proof.
  split; [|split].
  - intros args w Hno. rewrite after_with_schema.
    destruct (ArchiveCacheArgsSchema args) as [parsed|] eqn:Ep; [|done].
    apply handleArchiveCache_unconfirmed.
    destruct (arch_confirmArchive parsed) eqn:Hc; [|done].
    destruct (ArchiveCacheArgsSchema_confirm _ _ Ep Hc) as (fs & -> & Hf).
    by destruct (Hno fs eq_refl).
  - intros args w Hno. rewrite after_with_schema.
    destruct (CleanupCacheArgsSchema args) as [parsed|] eqn:Ep; [|done].
    apply handleCleanupCache_unconfirmed.
    destruct (clean_confirmCleanup parsed) eqn:Hc; [|done].
    destruct (CleanupCacheArgsSchema_confirm _ _ Ep Hc) as (fs & -> & Hf).
    by destruct (Hno fs eq_refl).
  - intros args w Hno. unfold with_schema.
    destruct (InitCacheArgsSchema args) as [parsed|] eqn:Ep; [|done].
    intros He.
    destruct (init_confirmCreate parsed && init_understoodGrowth parsed) eqn:Hc.
    + destruct (InitCacheArgsSchema_consent _ _ Ep Hc) as (fs & -> & H1 & H2).
      by destruct (Hno fs eq_refl).
    + by rewrite (bind_run _ _ _ _ _ (handleInitCache_blocked _ _ He Hc)).
Qed.

(** ** The request handler and the count of tool calls *)

















(** ** What the files hold after [update_cache] *)

Lemma replay_appends evs d p c :
  NoDup (map event_path evs) →
  (∀ ev, ev ∈ evs → ∃ q t, ev = EvWrite q t Append) →
  EvWrite p c Append ∈ evs →
  files (replay evs d) !! p = Some (default EmptyString (files d !! p) +:+ c).
Proof.
  revert d. induction evs as [|ev evs IH]; intros d Hnd Happ Hin;
    [by apply elem_of_nil in Hin|].
  cbn [map] in Hnd. apply NoDup_cons in Hnd as [Hfresh Hnd].
  destruct (Happ ev) as (q & t & ->); [left|]. cbn [event_path] in Hfresh.
  change (replay (EvWrite q t Append :: evs) d)
    with (replay evs (write_to q t Append d)).
  apply elem_of_cons in Hin as [Heq|Hin].
  - injection Heq as -> ->. rewrite replay_files_other.
    + cbn. apply lookup_insert_eq.
    + intros ev Hev Heq. apply Hfresh, list_elem_of_fmap. by exists ev.
  - rewrite IH; [|done|intros ev Hev; apply Happ; by right|done].
    cbn [write_to files]. rewrite lookup_insert_ne; [done|].
    intros ->. apply Hfresh, list_elem_of_fmap. by exists (EvWrite p c Append).
Qed.

Lemma update_events_append dir ts target args ev :
  ev ∈ update_events dir ts target args → ∃ q t, ev = EvWrite q t Append.
Proof.
  unfold update_events. rewrite !elem_of_app.
  intros [Hin|[Hin|[Hin|Hin]]];
    repeat (match type of Hin with context [if ?b then _ else _] => destruct b end);
    try (by apply elem_of_nil in Hin);
    apply list_elem_of_singleton in Hin as ->; eauto.
Qed.

Lemma update_saved_path base target ts w ev :
  ev ∈ update_saved base target ts w → event_path ev = manifest_path base.
Proof.
  unfold update_saved. destruct (or_null target); [|by intros ?%elem_of_nil].
  destruct (obj_get _ _); [|by intros ?%elem_of_nil].
  case_bool_decide; [by intros ?%elem_of_nil|].
  by intros ->%list_elem_of_singleton.
Qed.

(** Property X13: after a successful [update_cache], when the files that it
    appends to are distinct and none of them is the manifest file, each of
    them holds what it held before -- nothing, for a file that was not
    there -- followed by exactly the section written for it: the
    conversation log ends with the section of the summary; and a file
    that is neither one of them nor the manifest is as it was. *)
Theorem update_appends_its_sections (args : UpdateCacheArgs) (w : World) :
  let cs := cacheState w in
  let target := resolve_target (upd_topic args) cs in
  let dir := getCacheDirectory (cacheDir cs) target in
  let appends := update_events dir (clock w) target args in
  let w' := after (handleUpdateCache args) w in
  succeeds (handleUpdateCache args w) →
  NoDup (map event_path appends) →
  manifest_path (cacheDir cs) ∉ map event_path appends →
  (∀ p section,
     EvWrite p section Append ∈ appends →
     files (disk w') !! p =
       Some (default EmptyString (files (disk w) !! p) +:+ section)) ∧
  files (disk w') !! path_join dir "conversation_log.md" =
    Some (default EmptyString (files (disk w) !! path_join dir "conversation_log.md")
          +:+ update_entry "Update" (clock w) target (upd_conversationSummary args)) ∧
  (∀ p, p ∉ map event_path appends → p ≠ manifest_path (cacheDir cs) →
        files (disk w') !! p = files (disk w) !! p).
Proof.
  intros cs target dir appends w' Hs Hnd Hm.
  destruct (handleUpdateCache_exact args w Hs) as [logs E].
  fold cs target dir appends w' in E.
  assert (Hsections : ∀ p section,
    EvWrite p section Append ∈ appends →
    files (disk w') !! p =
      Some (default EmptyString (files (disk w) !! p) +:+ section)).
  { intros p section Hin. rewrite E. cbn [disk evolve]. rewrite replay_app.
    rewrite replay_files_other.
    - apply replay_appends; [done|apply update_events_append|done].
    - intros ev Hev%update_saved_path Hp. apply Hm, list_elem_of_fmap.
      exists (EvWrite p section Append). split; [|done]. cbn. congruence. }
  split; [exact Hsections|]. split.
  - apply Hsections. unfold appends, update_events.
    apply elem_of_app. left. apply list_elem_of_here.
  - intros p Hp Hne. rewrite E. apply files_evolve_other.
    intros ev [Hev|Hev%update_saved_path]%elem_of_app; [|congruence].
    intros <-. apply Hp, list_elem_of_fmap. by exists ev.
Qed.

(** ** What [init_cache] records in the manifest *)

Lemma obj_keys_set_absent {V} k (v : V) o :
  obj_get k o = None → obj_keys (obj_set k v o) = obj_keys o ++ [k].
Proof.
  induction o as [|[k' v'] o IH]; [done|]. cbn.
  destruct (String.eqb k k'); [done|]. intros Hg. cbn. f_equal. by apply IH.
Qed.

(** Property X14: on a manifest file that the cache wrote, a successful
    [init_cache] with a topic of a plain name writes the manifest once,
    between the directories and the five files; without a topic it does not
    write it.  The manifest saved is the one loaded with the record
    of the topic replaced by a fresh one -- created and last used now, the
    project name given or derived from the topic, a cleanup after 7 days
    exactly for a session-only cache -- so that running [init_cache] again
    on a topic resets its [createdAt]; the topic keeps its place among the
    keys, or is added last; the other records, [archivedSessions] and the
    version are as loaded. *)
Theorem init_registers_the_topic (args : InitCacheArgs) (w : World) :
  let base := init_cacheDir args in
  let topic := init_topic args in
  let m := manifest_of w base in
  let w' := after (handleInitCache args) w in
  (handleInitCache args w).1 = Ret (init_reply args) →
  plain_topic (init_topic args) = true →
  typed_manifest_file (disk w) (init_cacheDir args) →
  ∃ mk saved,
    Forall is_mkdir mk ∧
    journal (disk w') =
      journal (disk w) ++ mk ++ saved ++
      initial_events (getCacheDirectory base topic) (init_context args (clock w)) ∧
    (or_null topic = None → saved = []) ∧
    (∀ t, or_null topic = Some t → manifest_path base ∉ denied (disk w) →
       ∃ m',
         saved = [manifest_write base m'] ∧
         obj_get t (activeSessions m') =
           Some {| createdAt := clock w; lastUsed := clock w;
                   projectName :=
                     or_else (init_projectName args) (t +:+ " Project");
                   autoCleanupAfterDays :=
                     if init_sessionOnly args then Some 7 else None;
                   sessionOnly := Some (init_sessionOnly args);
                   archivedAt := None |} ∧
         (∀ t', t' ≠ t →
            obj_get t' (activeSessions m') = obj_get t' (activeSessions m)) ∧
         obj_keys (activeSessions m') =
           match obj_get t (activeSessions m) with
           | Some _ => obj_keys (activeSessions m)
           | None => obj_keys (activeSessions m) ++ [t]
           end ∧
         archivedSessions m' = archivedSessions m ∧
         manifestVersion m' = manifestVersion m).
Proof.
  intros base topic m w' Hr _ _.
  destruct (handleInitCache_initialized args w Hr) as (mk & logs & Hmk & E).
  exists mk, (init_saved args w). split; [done|].
  unfold w', after. rewrite E. cbn [snd disk evolve]. rewrite replay_journal.
  split; [done|]. unfold init_saved. fold base topic m.
  split; [by intros ->|].
  intros t Ht Hd. rewrite Ht, bool_decide_eq_false_2 by done.
  eexists. split; [reflexivity|].
  cbn [activeSessions archivedSessions manifestVersion set_active].
  split.
  { rewrite obj_get_set_eq. unfold init_entry, default_project_name.
    fold topic. by rewrite Ht. }
  split; [intros t' Hne; by apply obj_get_set_ne|]. split; [|done].
  destruct (obj_get t (activeSessions m)) eqn:Hg.
  - by eapply obj_keys_set_present.
  - by apply obj_keys_set_absent.
Qed.

(** ** What a failed [init_cache] leaves behind *)

(** Property X15: [init_cache] registers the topic before it writes the
    files.  For a topic with a plain name and a manifest file that the
    cache wrote, when the directories can be made and the manifest written, and
    the first of the five files cannot be written, the call answers with an
    error and leaves the cache state as it was -- the session is not
    initialized -- but the directories are made and the manifest on the disk
    records the topic: none of the five files is written, and nothing is
    rolled back. *)
Theorem failed_init_leaves_the_topic_registered (args : InitCacheArgs) (w : World) :
  let base := init_cacheDir args in
  let topic := init_topic args in
  let dir := getCacheDirectory base topic in
  let r := handleInitCache args w in
  exists_on (disk w) dir = true ∨
    init_confirmCreate args && init_understoodGrowth args = true →
  plain_topic topic = true →
  typed_manifest_file (disk w) base →
  dir ∉ denied (disk w) → base ∉ denied (disk w) →
  path_join dir "conversation_log.md" ∈ denied (disk w) →
  (∃ error, r.1 = Ret (ErrorResponse (InitializationFailed error))) ∧
  cacheState r.2 = cacheState w ∧
  (∃ mk, Forall is_mkdir mk ∧
         journal (disk r.2) = journal (disk w) ++ mk ++ init_saved args w) ∧
  dir ∈ dirs (disk r.2) ∧
  (∀ t, or_null topic = Some t → manifest_path base ∉ denied (disk w) →
        manifest_write base
          (set_active t
             (init_entry (clock w) (default_project_name args) (init_sessionOnly args))
             (manifest_of w base))
        ∈ journal (disk r.2)).
Proof.
  intros base topic dir r Hopen _ _ Hd Hb Hlog.
  destruct (create_directories_run base dir topic w)
    as (res & mk & Ec & Hmk & _ & _ & Hres).
  rewrite (Hres Hd Hb) in Ec. clear Hres.
  assert (Hdir : dir ∈ dirs (disk (evolve (cacheState w) [] mk w))).
  { revert Ec. unfold create_directories, try_catch.
    rewrite (bind_run _ _ _ _ _ (createDirectory_ok dir w Hd)).
    set (w0 := evolve (cacheState w) [] [EvMkdir dir] w).
    assert (H0 : dir ∈ dirs (disk w0)) by (apply elem_of_union; left; set_solver).
    step.
    destruct (truthy topic && negb (exists_on (disk w0) base)); cbv beta iota.
    - destruct (createDirectory base w0) as [[[]|e] w1] eqn:E1.
      + rewrite (bind_run _ _ _ _ _ E1). unfold ret.
        intros Heq%(f_equal snd). cbn [snd] in Heq. rewrite <- Heq.
        revert E1. unfold createDirectory. case_bool_decide; [done|].
        intros Hw1%(f_equal snd). cbn [snd] in Hw1. rewrite <- Hw1.
        apply elem_of_union. by right.
      + rewrite (bind_throw _ _ _ _ _ E1). done.
    - step. unfold ret. intros Heq%(f_equal snd). cbn [snd] in Heq. by rewrite <- Heq. }
  destruct (register_topic_run base topic
              (init_entry (clock w) (default_project_name args) (init_sessionOnly args))
              (evolve (cacheState w) [] mk w)) as [logs Er].
  rewrite denied_evolve, (manifest_of_mkdirs _ _ _ _ _ Hmk), evolve_evolve in Er.
  cbn [cacheState evolve] in Er. fold (init_saved args w) in Er.
  rewrite app_nil_l in Er.
  set (w2 := evolve (cacheState w) logs (mk ++ init_saved args w) w) in Er.
  assert (Hrun : r = (Ret (ErrorResponse
                             (InitializationFailed
                                ("EACCES: " +:+ path_join dir "conversation_log.md"))),
                      w2)).
  { unfold r. rewrite (handleInitCache_gate_open _ _ Hopen). unfold try_catch, initialize.
    cbv zeta. fold base topic dir. rewrite (bind_run _ _ _ _ _ Ec). step.
    cbn [clock evolve]. rewrite (bind_run _ _ _ _ _ Er).
    unfold write_initial_files.
    assert (Hw : writeFile (path_join dir "conversation_log.md")
                   (initial_content ConversationLog (init_context args (clock w)))
                   Rewrite w2 =
                 (Throw ("EACCES: " +:+ path_join dir "conversation_log.md"), w2)).
    { apply writeFile_denied. unfold w2. by rewrite denied_evolve. }
    rewrite (bind_throw _ _ _ _ _ (bind_throw _ _ _ _ _ Hw)). done. }
  rewrite Hrun. cbn [fst snd]. split; [eauto|]. split; [done|].
  unfold w2. cbn [disk evolve]. rewrite replay_journal. split; [eauto|]. split.
  - rewrite replay_app. revert Hdir. cbn [disk evolve]. intros Hdir.
    assert (Hwrites : ∀ ev, ev ∈ init_saved args w → ∃ p c m, ev = EvWrite p c m).
    { unfold init_saved. destruct (or_null _); [|by intros ? ?%elem_of_nil].
      destruct (bool_decide _); [by intros ? ?%elem_of_nil|].
      intros ev ->%list_elem_of_singleton. unfold manifest_write. eauto. }
    by rewrite (replay_dirs_writes _ _ Hwrites).
  - intros t Ht Hm. unfold init_saved. fold base topic.
    rewrite Ht, bool_decide_eq_false_2 by done.
    rewrite !elem_of_app. right. right. apply list_elem_of_here.
Qed.

End Coverage.

(** * The further properties on Node *)

(** The first hypothesis of [H], proved by [tac] on its own. *)
Ltac discharge H tac :=
  match type of H with
  | ?A → _ => let Ha := fresh "Ha" in assert (Ha : A) by tac; specialize (H Ha)
  end.

Ltac decided := refine (bool_decide_unpack _ _); vm_compute; exact I.

(** Instance of X5: "a" is initialized again after an update: its
    conversation log is the template again, the section of the update is
    gone. *)
Lemma init_rewrites_the_cache_files_witness :
  (@handleInitCache NodePlatform (init_topic_args "a") two_topics_updated).1 =
    Ret (@init_reply NodePlatform (init_topic_args "a")) ∧
  NoDup (@cache_paths NodePlatform "/cache/a") ∧
  files (disk two_topics_updated) !! "/cache/a/conversation_log.md" ≠
    Some (Node.heading ConversationLog
            (@init_context NodePlatform (init_topic_args "a") (clock two_topics_updated))) ∧
  files (disk (after (@handleInitCache NodePlatform (init_topic_args "a"))
                 two_topics_updated))
    !! "/cache/a/conversation_log.md" =
    Some (Node.heading ConversationLog
            (@init_context NodePlatform (init_topic_args "a") (clock two_topics_updated))).
Proof.
  assert (Hr : (@handleInitCache NodePlatform (init_topic_args "a") two_topics_updated).1 =
               Ret (@init_reply NodePlatform (init_topic_args "a")))
    by (vm_compute; reflexivity).
  assert (Hnd : NoDup (@cache_paths NodePlatform "/cache/a"))
    by decided.
  pose proof (@init_rewrites_the_cache_files NodePlatform (init_topic_args "a")
                two_topics_updated) as H.
  cbv zeta in H. destruct (H Hr Hnd) as [Hfiles _].
  split; [exact Hr|]. split; [exact Hnd|]. split; [vm_compute; discriminate|].
  exact (Hfiles ConversationLog).
Defined.

(** Instance of X7: the update of "a" saves the manifest once, after its two
    appends. *)
Lemma update_touches_only_lastUsed_witness :
  succeeds (@handleUpdateCache NodePlatform demo_update two_topics) ∧
  plain_topic (resolve_target (upd_topic demo_update) (cacheState two_topics)) = true ∧
  ∃ saved,
    journal (disk two_topics_updated) =
      journal (disk two_topics) ++
      @update_events NodePlatform "/cache/a" (clock two_topics) (Some "a") demo_update ++
      saved ∧
    length saved = 1%nat.
Proof.
  assert (Hs : succeeds (@handleUpdateCache NodePlatform demo_update two_topics))
    by (vm_compute; exact I).
  pose proof (@update_touches_only_lastUsed NodePlatform demo_update two_topics Hs
                eq_refl) as H.
  discharge H ltac:(apply (@typed_manifest_file_holds NodePlatform _ _
                             (@manifest_of NodePlatform two_topics "/cache"));
                    vm_compute; reflexivity).
  cbv zeta in H. destruct H as (saved & Hj & _ & _ & Hsaved).
  split; [exact Hs|]. split; [reflexivity|]. exists saved. split; [exact Hj|].
  specialize (Hsaved "a" (init_entry 1700000000000 "a Project" false)).
  discharge Hsaved ltac:(vm_compute; reflexivity).
  discharge Hsaved ltac:(vm_compute; reflexivity).
  discharge Hsaved ltac:(decided).
  destruct Hsaved as (m' & -> & _). reflexivity.
Defined.

(** Instance of X8: a manifest with an active and an archived record. *)
Lemma manifest_round_trip_witness :
  (@manifest_path NodePlatform "/cache" ∉ unreadable (disk demo_world)) ∧
  @JSON_parse NodePlatform (lines_window 0 1000 (@JSON_stringify NodePlatform demo_manifest))
    = Some demo_manifest ∧
  ((@saveSessionManifest NodePlatform "/cache" demo_manifest;;
    @loadSessionManifest NodePlatform "/cache") demo_world).1 = Ret demo_manifest.
Proof.
  assert (Hu : @manifest_path NodePlatform "/cache" ∉ unreadable (disk demo_world))
    by apply not_elem_of_empty.
  assert (Hp : @JSON_parse NodePlatform
                 (lines_window 0 1000 (@JSON_stringify NodePlatform demo_manifest))
               = Some demo_manifest) by (vm_compute; reflexivity).
  destruct (@manifest_round_trip NodePlatform "/cache" demo_manifest demo_world Hu Hp)
    as [Hok _].
  split; [exact Hu|]. split; [exact Hp|].
  by rewrite Hok by apply not_elem_of_empty.
Defined.


(** Instance of X10: the cleanup of the two topics, twice. *)
Lemma cleanup_again_changes_nothing_witness :
  clean_confirmCleanup demo_cleanup = true ∧
  exists_on (disk two_topics) "/cache" = true ∧
  plain_keys (activeSessions (@manifest_of NodePlatform two_topics "/cache")) = true ∧
  obj_keys (activeSessions (@manifest_of NodePlatform two_topics "/cache")) = ["a"; "b"] ∧
  obj_keys
    (activeSessions
       (@manifest_of NodePlatform
          (after (@handleCleanupCache NodePlatform demo_cleanup) two_topics) "/cache"))
    = ["b"] ∧
  cacheState
    (@handleCleanupCache NodePlatform demo_cleanup
       (after (@handleCleanupCache NodePlatform demo_cleanup) two_topics)).2 =
  cacheState (after (@handleCleanupCache NodePlatform demo_cleanup) two_topics).
Proof.
  assert (He : exists_on (disk two_topics) "/cache" = true) by (vm_compute; reflexivity).
  assert (Hk : plain_keys (activeSessions (@manifest_of NodePlatform two_topics "/cache"))
               = true) by (vm_compute; reflexivity).
  pose proof (@cleanup_again_changes_nothing NodePlatform demo_cleanup two_topics) as H.
  cbv zeta in H. specialize (H eq_refl He).
  discharge H ltac:(apply (@typed_manifest_file_holds NodePlatform _ _
                             (@manifest_of NodePlatform two_topics "/cache"));
                    vm_compute; reflexivity).
  specialize (H Hk).
  discharge H ltac:(decided). discharge H ltac:(decided).
  discharge H ltac:(vm_compute; reflexivity).
  destruct H as (_ & _ & _ & Hstate & _).
  split; [reflexivity|]. split; [exact He|]. split; [exact Hk|].
  split; [vm_compute; reflexivity|].
  split; [vm_compute; reflexivity|exact Hstate].
Defined.


(** Instance of X13: the update of "a" appends to the conversation log and
    to the decisions. *)
Lemma update_appends_its_sections_witness :
  succeeds (@handleUpdateCache NodePlatform demo_update two_topics) ∧
  files (disk two_topics_updated) !! "/cache/a/conversation_log.md" =
    Some (default EmptyString (files (disk two_topics) !! "/cache/a/conversation_log.md")
          +:+ @update_entry NodePlatform "Update" (clock two_topics) (Some "a")
                "Reviewed the plan") ∧
  files (disk two_topics_updated) !! "/cache/a/next_steps.md" =
    files (disk two_topics) !! "/cache/a/next_steps.md".
Proof.
  assert (Hs : succeeds (@handleUpdateCache NodePlatform demo_update two_topics))
    by (vm_compute; exact I).
  pose proof (@update_appends_its_sections NodePlatform demo_update two_topics) as H.
  cbv zeta in H. specialize (H Hs).
  discharge H ltac:(decided). discharge H ltac:(decided).
  destruct H as (_ & Hlog & Hother).
  split; [exact Hs|]. split; [exact Hlog|].
  apply Hother; [decided|vm_compute; discriminate].
Defined.

(** Instance of X14: [init_cache] of "demo" on the empty disk. *)
Lemma init_registers_the_topic_witness :
  (@handleInitCache NodePlatform demo_init demo_world).1 =
    Ret (@init_reply NodePlatform demo_init) ∧
  plain_topic (init_topic demo_init) = true ∧
  ∃ mk m',
    Forall is_mkdir mk ∧
    journal (disk demo_initialised) =
      mk ++ [@manifest_write NodePlatform "/cache" m'] ++
      @initial_events NodePlatform "/cache/demo"
        (@init_context NodePlatform demo_init (clock demo_world)) ∧
    obj_keys (activeSessions m') = ["demo"].
Proof.
  assert (Hr : (@handleInitCache NodePlatform demo_init demo_world).1 =
               Ret (@init_reply NodePlatform demo_init)) by (vm_compute; reflexivity).
  assert (Ht : @typed_manifest_file NodePlatform (disk demo_world) (init_cacheDir demo_init))
    by (apply (@typed_manifest_file_absent NodePlatform); reflexivity).
  destruct (@init_registers_the_topic NodePlatform demo_init demo_world Hr eq_refl Ht)
    as (mk & saved & Hmk & Hj & _ & Hsaved).
  destruct (Hsaved "demo") as (m' & -> & _ & _ & Hkeys & _);
    [reflexivity|apply not_elem_of_empty|].
  split; [exact Hr|]. split; [reflexivity|].
  exists mk, m'. split; [exact Hmk|]. split; [exact Hj|].
  rewrite Hkeys. vm_compute. reflexivity.
Defined.

(** Instance of X15: the conversation log of "demo" cannot be written:
    [init_cache] fails, the session is not initialized, and the manifest
    lists "demo". *)
Lemma failed_init_leaves_the_topic_registered_witness :
  init_confirmCreate demo_init && init_understoodGrowth demo_init = true ∧
  plain_topic (init_topic demo_init) = true ∧
  (∃ error,
     (@handleInitCache NodePlatform demo_init demo_log_locked).1 =
       Ret (ErrorResponse (InitializationFailed error))) ∧
  cacheState (@handleInitCache NodePlatform demo_init demo_log_locked).2 =
    cacheState demo_log_locked ∧
  isInitialized (cacheState demo_log_locked) = false ∧
  obj_keys
    (activeSessions
       (@manifest_of NodePlatform
          (after (@handleInitCache NodePlatform demo_init) demo_log_locked) "/cache"))
    = ["demo"].
Proof.
  pose proof (@failed_init_leaves_the_topic_registered NodePlatform demo_init
                demo_log_locked) as H.
  cbv zeta in H. specialize (H (or_intror eq_refl) eq_refl).
  discharge H ltac:(apply (@typed_manifest_file_absent NodePlatform); reflexivity).
  discharge H ltac:(decided). discharge H ltac:(decided). discharge H ltac:(decided).
  destruct H as (Herr & Hstate & _).
  split; [reflexivity|]. split; [reflexivity|]. split; [exact Herr|].
  split; [exact Hstate|].
  split; vm_compute; reflexivity.
Defined.
